(** * RO-Crate entity graph: a shallow embedding of rocrate/rocrate.py,
    rocrate/model/entity.py and rocrate/model/dataset.py.

    Python objects with identity (entities) live in a heap indexed by
    locations; the crate's [__entity_map] is a finite map from canonical ids
    to locations.  Operations that may raise thread the state through a small
    exception-and-state monad, so that the state left behind by a failing call
    can be inspected. *)

From Stdlib Require Import ZArith Ascii String List Bool Lia.
From stdpp Require Import base option list gmap strings.
Import ListNotations.

Set Warnings "-register-all".
Local Open Scope string_scope.

(** ** Python strings *)

Module PyStr.

(** [s.startswith(p)] *)
Fixpoint startswith (p s : string) : bool :=
  match p with
  | EmptyString => true
  | String a p' =>
      match s with
      | EmptyString => false
      | String b s' => Ascii.eqb a b && startswith p' s'
      end
  end.

(** [s.rstrip(c)] for a one-character argument. *)
Fixpoint rstrip (c : ascii) (s : string) : string :=
  match s with
  | EmptyString => EmptyString
  | String a r =>
      match rstrip c r with
      | EmptyString => if Ascii.eqb a c then EmptyString else String a EmptyString
      | r' => String a r'
      end
  end.

(** [s.split(c)]: always at least one piece. *)
Fixpoint split (c : ascii) (s : string) : list string :=
  match s with
  | EmptyString => [EmptyString]
  | String a r =>
      if Ascii.eqb a c then EmptyString :: split c r
      else match split c r with
           | h :: t => String a h :: t
           | [] => [String a EmptyString]
           end
  end.

(** [sep.join(l)] *)
Fixpoint join (sep : string) (l : list string) : string :=
  match l with
  | [] => EmptyString
  | x :: r =>
      match r with
      | [] => x
      | _ :: _ => x ++ sep ++ join sep r
      end
  end.

(** The part of [s] before the first character satisfying [P], and the rest
    (which starts at that character, or is empty). *)
Fixpoint span_until (P : ascii -> bool) (s : string) : string * string :=
  match s with
  | EmptyString => (EmptyString, EmptyString)
  | String a r =>
      if P a then (EmptyString, s)
      else let '(h, t) := span_until P r in (String a h, t)
  end.

Fixpoint forallb (P : ascii -> bool) (s : string) : bool :=
  match s with
  | EmptyString => true
  | String a r => P a && forallb P r
  end.

Definition between (lo hi a : ascii) : bool :=
  (N.leb (N_of_ascii lo) (N_of_ascii a)) && (N.leb (N_of_ascii a) (N_of_ascii hi)).

Definition is_upper (a : ascii) : bool := between "A" "Z" a.
Definition is_alpha (a : ascii) : bool := between "a" "z" a || is_upper a.
Definition is_digit (a : ascii) : bool := between "0" "9" a.

Definition lower_char (a : ascii) : ascii :=
  if is_upper a then ascii_of_N (N_of_ascii a + 32) else a.

Fixpoint lower (s : string) : string :=
  match s with
  | EmptyString => EmptyString
  | String a r => String (lower_char a) (lower r)
  end.

Definition nonempty (s : string) : bool :=
  match s with EmptyString => false | String _ _ => true end.

(** White space of ASCII text, as [str.isspace] has it. *)
Definition is_space (a : ascii) : bool :=
  between "009" "013" a || between "028" " " a.

Fixpoint lstrip_space (s : string) : string :=
  match s with
  | EmptyString => EmptyString
  | String a r => if is_space a then lstrip_space r else s
  end.

Fixpoint rstrip_space (s : string) : string :=
  match s with
  | EmptyString => EmptyString
  | String a r =>
      match rstrip_space r with
      | EmptyString => if is_space a then EmptyString else String a EmptyString
      | r' => String a r'
      end
  end.

(** [s.strip()] *)
Definition strip (s : string) : string := rstrip_space (lstrip_space s).

End PyStr.

(** ** urllib.parse, as far as [ROCrate.resolve_id] uses it

    [urljoin] belongs to Python's standard library, not to this repository.
    The model follows CPython's [urlsplit] / [urljoin] / [urlunsplit] for
    references made of printable ASCII characters.  Two things are left out:
    the stripping of control characters, and the [;params] split of the last
    path segment (the parameters are carried inside the path instead).  The
    [arcp] scheme is registered by the [arcp] package among the schemes that
    allow relative references and a network location. *)

Module UrlParse.
Import PyStr.

Record SplitResult := mkSplit {
  scheme : string; netloc : string; path : string;
  query : string; fragment : string }.

Definition scheme_char (a : ascii) : bool :=
  is_alpha a || is_digit a ||
  Ascii.eqb a "+" || Ascii.eqb a "-" || Ascii.eqb a ".".

Definition base_schemes : list string :=
  ["ftp"; "http"; "gopher"; "nntp"; "imap"; "wais"; "file"; "https";
   "shttp"; "mms"; "prospero"; "rtsp"; "rtspu"; "sftp"; "svn"; "svn+ssh";
   "ws"; "wss"].

Definition uses_relative : list string := "" :: "arcp" :: base_schemes.

Definition uses_netloc : list string :=
  "" :: "arcp" :: "telnet" :: "snews" :: "rsync" :: "nfs" :: "git" ::
  "git+ssh" :: base_schemes.

Definition mem (s : string) (l : list string) : bool :=
  existsb (String.eqb s) l.

(** The scheme of [url] (lower-cased) and what follows its colon; an empty
    scheme and [url] itself when there is none. *)
Definition split_scheme (url : string) : string * string :=
  match span_until (Ascii.eqb ":") url with
  | (String a pre, String _ rest) =>
      if is_alpha a && forallb scheme_char (String a pre)
      then (lower (String a pre), rest)
      else (EmptyString, url)
  | _ => (EmptyString, url)
  end.

Definition netloc_end (a : ascii) : bool :=
  Ascii.eqb a "/" || Ascii.eqb a "?" || Ascii.eqb a "#".

Definition split_netloc (url : string) : string * string :=
  match url with
  | String "/" (String "/" r) => span_until netloc_end r
  | _ => (EmptyString, url)
  end.

(** [url.split(c, 1)] when [c] occurs in [url]. *)
Definition split_once (c : ascii) (url : string) : string * string :=
  match span_until (Ascii.eqb c) url with
  | (h, String _ t) => (h, t)
  | (h, EmptyString) => (h, EmptyString)
  end.

Definition urlsplit (url default_scheme : string) : SplitResult :=
  let '(sch, url1) := split_scheme url in
  let sch := if nonempty sch then sch else default_scheme in
  let '(nl, url2) := split_netloc url1 in
  let '(url3, frag) := split_once "#" url2 in
  let '(url4, qry) := split_once "?" url3 in
  mkSplit sch nl url4 qry frag.

Definition urlunsplit (r : SplitResult) : string :=
  let url := path r in
  let url :=
    if nonempty (netloc r) ||
       (nonempty (scheme r) && mem (scheme r) uses_netloc &&
        negb (startswith "//" url))
    then "//" ++ netloc r ++
         (if nonempty url && negb (startswith "/" url) then "/" ++ url else url)
    else url in
  let url := if nonempty (scheme r) then scheme r ++ ":" ++ url else url in
  let url := if nonempty (query r) then url ++ "?" ++ query r else url in
  if nonempty (fragment r) then url ++ "#" ++ fragment r else url.

(** [segments[1:-1] = filter(None, segments[1:-1])] *)
Fixpoint filter_but_last (l : list string) : list string :=
  match l with
  | [] => []
  | y :: r =>
      match r with
      | [] => [y]
      | _ :: _ => if nonempty y then y :: filter_but_last r else filter_but_last r
      end
  end.

Definition filter_middle (l : list string) : list string :=
  match l with
  | [] => []
  | x :: r => x :: filter_but_last r
  end.

(** The loop over the segments; [acc] is [resolved_path] reversed. *)
Fixpoint resolve_segments (segs : list string) (acc : list string) : list string :=
  match segs with
  | [] => rev acc
  | seg :: r =>
      if String.eqb seg ".." then resolve_segments r (tl acc)
      else if String.eqb seg "." then resolve_segments r acc
      else resolve_segments r (seg :: acc)
  end.

Definition drop_last_unless_empty (l : list string) : list string :=
  match List.last l "x" with
  | EmptyString => l
  | _ => removelast l
  end.

Definition urljoin (base url : string) : string :=
  if negb (nonempty base) then url
  else if negb (nonempty url) then base
  else
    let b := urlsplit base "" in
    let u := urlsplit url (scheme b) in
    if negb (String.eqb (scheme u) (scheme b)) || negb (mem (scheme u) uses_relative)
    then url
    else if mem (scheme u) uses_netloc && nonempty (netloc u)
    then urlunsplit u
    else
      let nl := if mem (scheme u) uses_netloc then netloc b else netloc u in
      if negb (nonempty (path u))
      then urlunsplit (mkSplit (scheme u) nl (path b)
                         (if nonempty (query u) then query u else query b)
                         (fragment u))
      else
        let base_parts := drop_last_unless_empty (split "/" (path b)) in
        let segments :=
          if startswith "/" (path u) then split "/" (path u)
          else filter_middle (base_parts ++ split "/" (path u))%list in
        let resolved := resolve_segments segments [] in
        let resolved :=
          if String.eqb (List.last segments "") "." ||
             String.eqb (List.last segments "") ".."
          then (resolved ++ [EmptyString])%list
          else resolved in
        let p := join "/" resolved in
        urlunsplit (mkSplit (scheme u) nl (if nonempty p then p else "/")
                      (query u) (fragment u)).

End UrlParse.

(** ** JSON-LD values

    [JsonLDProperty] of rocrate_types.py: primitives, references and lists of
    them.  Floats and datetimes are left out.  A plain mapping keeps its
    ["@id"] entry, which [JsonLDReference] types as [str], apart from its
    other entries. *)

Inductive json : Type :=
  | JNone
  | JBool (b : bool)
  | JInt (n : Z)
  | JStr (s : string)
  | JList (l : list json)
  | JDict (at_id : option string) (rest : list (string * json)).

(** An ordered string-keyed mapping, as a Python [dict]: keys are unique and
    keep their insertion order. *)
Abbreviation pydict := (list (string * json)).

Module Dict.

Fixpoint get (k : string) (d : pydict) : option json :=
  match d with
  | [] => None
  | (k', v) :: r => if String.eqb k k' then Some v else get k r
  end.

Definition mem (k : string) (d : pydict) : bool :=
  match get k d with Some _ => true | None => false end.

(** [d[k] = v]: an existing key keeps its position. *)
Fixpoint set (k : string) (v : json) (d : pydict) : pydict :=
  match d with
  | [] => [(k, v)]
  | (k', v') :: r =>
      if String.eqb k k' then (k, v) :: r else (k', v') :: set k v r
  end.

(** [del d[k]] for a key that is present; [d.pop(k, None)] in general. *)
Fixpoint remove (k : string) (d : pydict) : pydict :=
  match d with
  | [] => []
  | (k', v') :: r =>
      if String.eqb k k' then r else (k', v') :: remove k r
  end.

Definition keys (d : pydict) : list string := map fst d.

End Dict.

(** Python's [==] on these values: [bool] is a subtype of [int], lists
    compare element by element, mappings compare as sets of entries. *)
Fixpoint py_eq (a b : json) {struct a} : bool :=
  match a, b with
  | JNone, JNone => true
  | JBool x, JBool y => Bool.eqb x y
  | JBool x, JInt y => Z.eqb (Z.b2z x) y
  | JInt x, JBool y => Z.eqb x (Z.b2z y)
  | JInt x, JInt y => Z.eqb x y
  | JStr x, JStr y => String.eqb x y
  | JList l1, JList l2 =>
      (fix go (l1 l2 : list json) {struct l1} : bool :=
         match l1, l2 with
         | [], [] => true
         | x :: xs, y :: ys => py_eq x y && go xs ys
         | _, _ => false
         end) l1 l2
  | JDict i1 d1, JDict i2 d2 =>
      match i1, i2 with
      | None, None => true
      | Some x, Some y => String.eqb x y
      | _, _ => false
      end &&
      Nat.eqb (length d1) (length d2) &&
      (fix go (d : pydict) {struct d} : bool :=
         match d with
         | [] => true
         | (k, v) :: r =>
             match Dict.get k d2 with
             | Some v' => py_eq v v'
             | None => false
             end && go r
         end) d1
  | _, _ => false
  end.

(** [d1 == d2] for two property stores. *)
Definition dict_eq (d1 d2 : pydict) : bool :=
  Nat.eqb (length d1) (length d2) &&
  forallb (fun kv => match Dict.get (fst kv) d2 with
                     | Some v' => py_eq (snd kv) v'
                     | None => false
                     end) d1.

(** [isinstance(v, list)] and [isinstance(v, dict)] *)
Definition is_list (v : json) : bool :=
  match v with JList _ => true | _ => false end.

Definition is_dict (v : json) : bool :=
  match v with JDict _ _ => true | _ => false end.

(** [{"@id": i}] *)
Definition ref (i : string) : json := JDict (Some i) [].

(** ** Exceptions and the state monad *)

(** The Python exceptions the modelled code raises.  [NoSuchObject] belongs to
    the model only: it answers a location that is not in the heap, which no
    Python state contains. *)
Inductive exn : Type :=
  | KeyError | ValueError | TypeError | AttributeError | RuntimeError
  | FileNotFoundError | URLError | AssertionError | RecursionError
  | NoSuchObject.

Inductive outcome (A : Type) : Type :=
  | Ok (a : A)
  | Raise (e : exn).
Arguments Ok {A} a.
Arguments Raise {A} e.

(** ** Classes of the model package *)

Inductive EntityClass : Type :=
  | PlainEntity            (* Entity *)
  | ContextEntity
  | TestSuite
  | DataEntity
  | FileOrDir
  | File
  | Dataset
  | RootDataset
  | Metadata
  | LegacyMetadata
  | Preview
  | TestDefinition.

#[global] Instance EntityClass_eq_dec : EqDecision EntityClass.
Proof. solve_decision. Defined.

(** The direct base class.  Modelled from the spec: data_entity.py,
    contextentity.py, file.py, metadata.py and preview.py are not among the
    sources; files and directories are the data entities, the metadata and
    preview entities are files, everything else is contextual. *)
Definition base (c : EntityClass) : option EntityClass :=
  match c with
  | PlainEntity => None
  | ContextEntity => Some PlainEntity
  | TestSuite => Some ContextEntity
  | DataEntity => Some PlainEntity
  | FileOrDir => Some DataEntity
  | File => Some FileOrDir
  | Dataset => Some FileOrDir
  | RootDataset => Some Dataset
  | Metadata => Some File
  | LegacyMetadata => Some Metadata
  | Preview => Some File
  | TestDefinition => Some File
  end.

(** The class and its ancestors; the hierarchy is six levels deep. *)
Fixpoint mro_upto (n : nat) (c : EntityClass) : list EntityClass :=
  match n with
  | O => [c]
  | S n' => c :: match base c with Some b => mro_upto n' b | None => [] end
  end.

Definition mro (c : EntityClass) : list EntityClass := mro_upto 6 c.

(** [isinstance(e, k)] for an object [e] of class [c]. *)
Definition isinstance (c k : EntityClass) : bool :=
  bool_decide (k ∈ mro c).

(** [hasattr(e, "write")].  Modelled from the spec: the data entities are the
    entities exposing the write capability; [DataEntity] declares it. *)
Definition has_write (c : EntityClass) : bool := isinstance c DataEntity.

(** ** Objects and the crate *)

(** [str(u)] for a [uuid.UUID] with integer value [n]: 32 lower-case
    hexadecimal digits in groups of 8-4-4-4-12. *)
Definition hex_digit (n : N) : ascii :=
  nth (N.to_nat n)
    ["0"; "1"; "2"; "3"; "4"; "5"; "6"; "7"; "8"; "9";
     "a"; "b"; "c"; "d"; "e"; "f"]%char "0"%char.

(** The [k] low hexadecimal digits of [n], most significant first. *)
Fixpoint hex (k : nat) (n : N) : string :=
  match k with
  | O => EmptyString
  | S k' => hex k' (n / 16) ++ String (hex_digit (n mod 16)) EmptyString
  end.

Definition uuid_str (n : N) : string :=
  hex 8 (n / 16 ^ 24) ++ "-" ++ hex 4 (n / 16 ^ 20) ++ "-" ++
  hex 4 (n / 16 ^ 16) ++ "-" ++ hex 4 (n / 16 ^ 12) ++ "-" ++ hex 12 n.

Abbreviation loc := positive.

Record Entity : Type := mkEntity {
  ent_class : EntityClass;
  ent_id : string;                 (* self.id, fixed at construction *)
  _jsonld : pydict;
  ent_source : option string;      (* FileOrDir.source *)
  fetch_remote : bool;
  validate_url : bool }.

Definition with_jsonld (e : Entity) (d : pydict) : Entity :=
  mkEntity (ent_class e) (ent_id e) d (ent_source e) (fetch_remote e) (validate_url e).

(** [root_dataset] and [metadata] are attributes that exist only once an
    entity of that kind has been added; [preview] starts as [None].  A falsy
    [source] (None, an empty string or mapping) means a crate built from
    scratch and is modelled as [None]. *)
Record ROCrate : Type := mkCrate {
  uuid : N;
  entity_map : gmap string loc;
  root_dataset : option loc;
  metadata : option loc;
  preview : option loc;
  source : option string }.

Record world : Type := mkWorld {
  heap : gmap loc Entity;
  crate : ROCrate }.

Definition M (A : Type) : Type := world -> outcome A * world.

Definition ret {A} (a : A) : M A := fun w => (Ok a, w).
Definition raise {A} (e : exn) : M A := fun w => (Raise e, w).
Definition bind {A B} (m : M A) (f : A -> M B) : M B :=
  fun w => match m w with
           | (Ok a, w') => f a w'
           | (Raise e, w') => (Raise e, w')
           end.

Notation "'let*' x ':=' m 'in' k" := (bind m (fun x => k))
  (at level 10, x name, m at level 100, k at level 200).

Fixpoint mapM {A B} (f : A -> M B) (l : list A) : M (list B) :=
  match l with
  | [] => ret []
  | x :: r => let* y := f x in let* ys := mapM f r in ret (y :: ys)
  end.

Definition get_crate : M ROCrate := fun w => (Ok (crate w), w).
Definition put_crate (c : ROCrate) : M unit := fun w => (Ok tt, mkWorld (heap w) c).

Definition get_entity (l : loc) : M Entity :=
  fun w => match heap w !! l with
           | Some e => (Ok e, w)
           | None => (Raise NoSuchObject, w)
           end.

(** Assignment to [self._jsonld] of the object at [l]. *)
Definition put_jsonld (l : loc) (d : pydict) : M unit :=
  fun w => (Ok tt, mkWorld (alter (fun e => with_jsonld e d) l (heap w)) (crate w)).

(** A Python value handed to or returned by an entity: an [Entity] object or
    JSON data; [One (Val (JList l))] is a list as well. *)
Inductive pyitem : Type :=
  | Obj (l : loc)
  | Val (v : json).

Inductive pyval : Type :=
  | One (x : pyitem)
  | Many (l : list pyitem).

(** [isinstance(value, list)] *)
Definition isinstance_list (value : pyval) : bool :=
  match value with
  | Many _ => true
  | One (Val (JList _)) => true
  | One _ => false
  end.

(** [value if isinstance(value, list) else [value]] *)
Definition as_values (value : pyval) : list pyitem :=
  match value with
  | Many l => l
  | One (Val (JList l)) => map Val l
  | One x => [x]
  end.

(** ** rocrate/model/entity.py and rocrate/rocrate.py *)

Section Crate.

(** [utils.is_url] is not among the sources; the crate code only asks it
    whether an id is an absolute URL.  [py_hash] is Python's [hash] on [str]. *)
Variable is_url : string -> bool.
Variable py_hash : string -> Z.

(** [utils.iso_now()] at the time of the call, and the ["@type"] that the
    skeleton of a class gets from [_default_type] (vocabs.py and the classes
    outside the sources decide it). *)
Variable iso_now : string.
Variable default_type : EntityClass -> json.

Definition arcp_base_uri (c : ROCrate) : string :=
  "arcp://uuid," ++ uuid_str (uuid c) ++ "/".

(** [ROCrate.resolve_id] *)
Definition resolve_id (c : ROCrate) (id_ : string) : string :=
  let id_ := if is_url id_ then id_ else UrlParse.urljoin (arcp_base_uri c) id_ in
  PyStr.rstrip "/" id_.

(** [ROCrate.dereference] without its default. *)
Definition dereference (c : ROCrate) (entity_id : string) : option loc :=
  entity_map c !! resolve_id c entity_id.

(** [Entity.canonical_id], [Entity.__hash__], [Entity.__eq__] *)
Definition canonical_id (c : ROCrate) (e : Entity) : string :=
  resolve_id c (ent_id e).

Definition entity_hash (c : ROCrate) (e : Entity) : Z :=
  py_hash (canonical_id c e).

Definition entity_eq (a b : Entity) : bool :=
  String.eqb (ent_id a) (ent_id b) && dict_eq (_jsonld a) (_jsonld b).

(** One round of the loop of [Entity.__getitem__]. *)
Definition deref_entry (c : ROCrate) (entry : json) : outcome pyitem :=
  match entry with
  | JDict None _ => Raise ValueError
  | JDict (Some id_) _ =>
      Ok (match dereference c id_ with
          | Some l => Obj l
          | None => Val (JStr id_)
          end)
  | _ => Ok (Val entry)
  end.

Fixpoint deref_values (c : ROCrate) (values : list json) : outcome (list pyitem) :=
  match values with
  | [] => Ok []
  | entry :: r =>
      match deref_entry c entry with
      | Raise x => Raise x
      | Ok d =>
          match deref_values c r with
          | Raise x => Raise x
          | Ok ds => Ok (d :: ds)
          end
      end
  end.

(** [Entity.__getitem__]; reading changes nothing. *)
Definition getitem (c : ROCrate) (e : Entity) (key : string) : outcome pyval :=
  match Dict.get key (_jsonld e) with
  | None => Raise KeyError
  | Some v =>
      match v with
      | JNone => Ok (One (Val v))
      | _ =>
          if PyStr.startswith "@" key then Ok (One (Val v))
          else
            match v with
            | JList values =>
                match deref_values c values with
                | Raise x => Raise x
                | Ok ds => Ok (Many ds)
                end
            | _ =>
                match deref_entry c v with
                | Raise x => Raise x
                | Ok d => Ok (One d)
                end
            end
      end
  end.

(** [Mapping.get]: [KeyError] alone is turned into the default. *)
Definition entity_get (c : ROCrate) (e : Entity) (key : string) (default : pyval)
  : outcome pyval :=
  match getitem c e key with
  | Raise KeyError => Ok default
  | r => r
  end.

(** [{"@id": _.id} if isinstance(_, Entity) else _] *)
Definition to_ref (x : pyitem) : M json :=
  match x with
  | Obj l => let* e := get_entity l in ret (ref (ent_id e))
  | Val v => ret v
  end.

(** [isinstance(v, dict) and "@id" not in v] *)
Definition lacks_id (x : pyitem) : bool :=
  match x with
  | Val (JDict None _) => true
  | _ => false
  end.

Definition first_or_none (l : list json) : json :=
  match l with x :: _ => x | [] => JNone end.

(** [Entity.__setitem__] *)
Definition setitem (self : loc) (key : string) (value : pyval) : M unit :=
  if PyStr.startswith "@" key then raise KeyError
  else
    let values := as_values value in
    if existsb lacks_id values then raise ValueError
    else
      let* ref_values := mapM to_ref values in
      let* e := get_entity self in
      put_jsonld self
        (Dict.set key
           (if isinstance_list value then JList ref_values
            else first_or_none ref_values)
           (_jsonld e)).

(** [Entity.__delitem__] *)
Definition delitem (self : loc) (key : string) : M unit :=
  if PyStr.startswith "@" key then raise KeyError
  else
    let* e := get_entity self in
    if Dict.mem key (_jsonld e) then put_jsonld self (Dict.remove key (_jsonld e))
    else raise KeyError.

(** [Entity.append_to] *)
Definition append_to (self : loc) (key : string) (value : pyval) (compact : bool)
  : M unit :=
  if PyStr.startswith "@" key then raise KeyError
  else
    let* e := get_entity self in
    (* current_value = self._jsonld.setdefault(key, []) *)
    let* current_value :=
      match Dict.get key (_jsonld e) with
      | Some v => ret v
      | None => let* _ := put_jsonld self (Dict.set key (JList []) (_jsonld e)) in
                ret (JList [])
      end in
    let* e := get_entity self in
    let* current_value :=
      match current_value with
      | JList l => ret l
      | v => let* _ := put_jsonld self (Dict.set key (JList [v]) (_jsonld e)) in
             ret [v]
      end in
    let value := as_values value in
    let* refs := mapM to_ref value in
    let current_value := (current_value ++ refs)%list in
    let* e := get_entity self in
    let* _ := put_jsonld self (Dict.set key (JList current_value) (_jsonld e)) in
    match current_value with
    | [x] =>
        if compact then
          let* e := get_entity self in
          put_jsonld self (Dict.set key x (_jsonld e))
        else ret tt
    | _ => ret tt
    end.

(** One round of the loop of [ROCrate.add]. *)
Definition add1 (l : loc) : M unit :=
  let* e := get_entity l in
  let* c := get_crate in
  let key := canonical_id c e in
  let* _ :=
    if isinstance (ent_class e) RootDataset then
      put_crate (mkCrate (uuid c) (entity_map c) (Some l) (metadata c) (preview c) (source c))
    else if isinstance (ent_class e) Metadata || isinstance (ent_class e) LegacyMetadata then
      put_crate (mkCrate (uuid c) (entity_map c) (root_dataset c) (Some l) (preview c) (source c))
    else if isinstance (ent_class e) Preview then
      put_crate (mkCrate (uuid c) (entity_map c) (root_dataset c) (metadata c) (Some l) (source c))
    else if has_write (ent_class e) then
      match entity_map c !! key with
      | Some _ => ret tt
      | None =>
          match root_dataset c with
          | Some r => append_to r "hasPart" (One (Obj l)) false
          | None => raise AttributeError
          end
      end
    else ret tt in
  let* c := get_crate in
  put_crate (mkCrate (uuid c) (<[key := l]> (entity_map c)) (root_dataset c)
               (metadata c) (preview c) (source c)).

(** [ROCrate.add], over the entities it is given. *)
Fixpoint add (entities : list loc) : M unit :=
  match entities with
  | [] => ret tt
  | l :: r => let* _ := add1 l in add r
  end.


Definition lift {A} (o : outcome A) : M A := fun w => (o, w).

Fixpoint filterM {A} (f : A -> M bool) (l : list A) : M (list A) :=
  match l with
  | [] => ret []
  | x :: r =>
      let* b := f x in
      let* ys := filterM f r in
      ret (if b then x :: ys else ys)
  end.

(** What a [for] loop over the value sees: the elements of a list, the
    characters of a string, the keys of a mapping or of an entity. *)
Definition py_iter (v : pyval) : M (list pyitem) :=
  match v with
  | Many l => ret l
  | One (Val (JList l)) => ret (map Val l)
  | One (Val (JStr s)) =>
      ret (map (fun a => Val (JStr (String a EmptyString))) (list_ascii_of_string s))
  | One (Val (JDict i d)) =>
      ret (map (fun k => Val (JStr k))
             (match i with Some _ => ["@id"] | None => [] end ++ Dict.keys d)%list)
  | One (Obj l) =>
      let* e := get_entity l in
      ret (map (fun k => Val (JStr k)) (Dict.keys (_jsonld e)))
  | One (Val _) => raise TypeError
  end.

(** [bool(v)] *)
Definition truthy (v : pyval) : M bool :=
  match v with
  | Many l => ret (negb (Nat.eqb (length l) 0))
  | One (Obj l) => let* e := get_entity l in ret (negb (Nat.eqb (length (_jsonld e)) 0))
  | One (Val JNone) => ret false
  | One (Val (JBool b)) => ret b
  | One (Val (JInt n)) => ret (negb (Z.eqb n 0))
  | One (Val (JStr s)) => ret (PyStr.nonempty s)
  | One (Val (JList l)) => ret (negb (Nat.eqb (length l) 0))
  | One (Val (JDict None [])) => ret false
  | One (Val (JDict _ _)) => ret true
  end.

(** [_ != e], for the entity object [e]: only another entity can be equal. *)
Definition differs (e : Entity) (x : pyitem) : M bool :=
  match x with
  | Obj l' => let* e' := get_entity l' in ret (negb (entity_eq e' e))
  | Val _ => ret true
  end.

(** An argument of [ROCrate.delete]: an entity object or an id. *)
Inductive entity_arg : Type :=
  | ByObj (l : loc)
  | ById (entity_id : string).

(** Reading the attributes [self.root_dataset] and [self.metadata]. *)
Definition attr (o : option loc) : M loc :=
  match o with
  | Some l => ret l
  | None => raise AttributeError
  end.

(** The [hasattr(e, "write")] branch of [ROCrate.delete]: the root dataset's
    hasPart is read, filtered, written back, and dropped when it is empty. *)
Definition remove_part (c : ROCrate) (r : loc) (e : Entity) : M unit :=
  let* root := get_entity r in
  let* parts := lift (entity_get c root "hasPart" (Many [])) in
  let* items := py_iter parts in
  let* kept := filterM (differs e) items in
  let* _ := setitem r "hasPart" (Many kept) in
  let* root := get_entity r in
  let* parts := lift (getitem c root "hasPart") in
  let* b := truthy parts in
  if b then ret tt
  else
    let* root := get_entity r in
    if Dict.mem "hasPart" (_jsonld root)
    then put_jsonld r (Dict.remove "hasPart" (_jsonld root))
    else raise KeyError.

(** One round of the loop of [ROCrate.delete]. *)
Definition delete1 (a : entity_arg) : M unit :=
  let* c := get_crate in
  match (match a with ByObj l => Some l | ById s => dereference c s end) with
  | None => ret tt
  | Some l =>
      let* e := get_entity l in
      if Nat.eqb (length (_jsonld e)) 0 then ret tt
      else
        let* r := attr (root_dataset c) in
        if bool_decide (l = r) then raise ValueError
        else
          let* m := attr (metadata c) in
          if bool_decide (l = m) then raise ValueError
          else
            let* _ :=
              if bool_decide (preview c = Some l) then
                put_crate (mkCrate (uuid c) (entity_map c) (root_dataset c)
                             (metadata c) None (source c))
              else if has_write (ent_class e) then remove_part c r e
              else ret tt in
            let* c := get_crate in
            put_crate (mkCrate (uuid c) (delete (canonical_id c e) (entity_map c))
                         (root_dataset c) (metadata c) (preview c) (source c))
  end.

(** [ROCrate.delete], over the entities it is given. *)
Fixpoint delete_entities (entities : list entity_arg) : M unit :=
  match entities with
  | [] => ret tt
  | a :: r => let* _ := delete1 a in delete_entities r
  end.

(** [format_id]: [Dataset] overrides it, the other classes inherit
    [Entity.format_id]. *)
Definition format_id (k : EntityClass) (identifier : string) : string :=
  if isinstance k Dataset then PyStr.rstrip "/" identifier ++ "/" else identifier.

(** [_empty]: [Dataset], [RootDataset], [TestSuite] and [TestDefinition] as
    they define it; the other classes as [Entity._empty].  Modelled from the
    spec: the classes outside the sources define a skeleton that sets at
    least id and type. *)
Definition _empty (k : EntityClass) (id_ : string) : pydict :=
  match k with
  | Dataset => [("@id", JStr id_); ("@type", JStr "Dataset")]
  | RootDataset =>
      [("@id", JStr id_); ("@type", JStr "Dataset"); ("datePublished", JStr iso_now)]
  | TestSuite => [("@id", JStr id_); ("@type", JStr "TestSuite")]
  | TestDefinition =>
      [("@id", JStr id_); ("@type", JList [JStr "File"; JStr "TestDefinition"])]
  | _ => [("@id", JStr id_); ("@type", default_type k)]
  end.

Definition alloc (e : Entity) : M loc :=
  fun w => let l := fresh (dom (heap w)) in
           (Ok l, mkWorld (<[l := e]> (heap w)) (crate w)).

(** The loop of [Entity.__init__] over the given properties. *)
Fixpoint init_properties (self : loc) (properties : pydict) : M unit :=
  match properties with
  | [] => ret tt
  | (name, value) :: r =>
      let* _ :=
        if PyStr.startswith "@" name then
          let* e := get_entity self in
          put_jsonld self (Dict.set name value (_jsonld e))
        else setitem self name (One (Val value)) in
      init_properties self r
  end.

(** [Entity.__init__], for an object of class [k].  [identifier] is what the
    class hands to [Entity.__init__] (for a [FileOrDir], the id computed from
    the source or the destination path); [fresh_uuid] is the [uuid4()] drawn
    when there is none. *)
Definition new_entity (k : EntityClass) (identifier : option string)
    (fresh_uuid : string) (properties : pydict)
    (src : option string) (fetch validate : bool) : M loc :=
  let id_ :=
    match identifier with
    | Some (String a s) => format_id k (String a s)
    | _ => "#" ++ fresh_uuid
    end in
  let* self := alloc (mkEntity k id_ (_empty k id_) src fetch validate) in
  let* _ := init_properties self properties in
  ret self.

(** [ROCrate()] with no source and no preview: the state before [__init__]
    and the two additions it makes.  The root dataset gets its id from the
    destination path ["./"], the metadata entity from its file name. *)
Definition empty_world (u : N) : world :=
  mkWorld ∅ (mkCrate u ∅ None None None None).

Definition ROCrate_init : M unit :=
  let* r := new_entity RootDataset (Some ".") "" [] None false false in
  let* m := new_entity Metadata (Some "ro-crate-metadata.json") "" [] None false false in
  add [r; m].

End Crate.

(** ** Auxiliary predicates used in the statements *)

(** [s.endswith(c)] *)
Fixpoint endswith_char (c : ascii) (s : string) : bool :=
  match s with
  | EmptyString => false
  | String a EmptyString => Ascii.eqb a c
  | String _ r => endswith_char c r
  end.

(** The text of a UUID: hexadecimal digits and dashes. *)
Definition uuid_char (a : ascii) : bool :=
  PyStr.is_digit a || PyStr.between "a" "f" a || Ascii.eqb a "-".

Definition is_uuid_text (u : string) : bool := PyStr.forallb uuid_char u.

(** An instance of [is_url] for the examples.  Modelled from the spec:
    utils.py is not among the sources; an id is an absolute URL when it
    starts with a URL scheme. *)
Definition has_scheme (s : string) : bool :=
  PyStr.nonempty (fst (UrlParse.split_scheme s)).

(** A crate built from scratch, for the examples. *)
Definition example_uuid : N := 0x123e4567e89b42d3a456426614174000.

(** The snapshot of an entity carries the entity's own id under ["@id"], as
    the skeleton of every class sets it. *)
Definition own_id (e : Entity) : Prop :=
  Dict.get "@id" (_jsonld e) = Some (JStr (ent_id e)).

(** The entity built by [ContextEntity(crate, identifier, properties)] in a
    fresh crate. *)
Definition example_entity (identifier : string) (properties : pydict) : option Entity :=
  let '(r, w) :=
    new_entity "2024-01-01T00:00:00+00:00" (fun _ => JStr "Thing") ContextEntity
      (Some identifier) "" properties None false false (empty_world example_uuid) in
  match r with
  | Ok l => heap w !! l
  | Raise _ => None
  end.

Definition example_crate : ROCrate := mkCrate example_uuid ∅ None None None None.

(** What item-read makes of one stored entry that is not a mapping without
    ["@id"]: the entity registered under the referenced id, else the id
    itself; any other entry as it is. *)
Definition deref_item (is_url : string -> bool) (c : ROCrate) (entry : json) : pyitem :=
  match entry with
  | JDict (Some id_) _ =>
      match dereference is_url c id_ with
      | Some l => Obj l
      | None => Val (JStr id_)
      end
  | _ => Val entry
  end.

(** [isinstance(entry, dict) and "@id" not in entry] *)
Definition no_id (entry : json) : bool :=
  match entry with
  | JDict None _ => true
  | _ => false
  end.

(** The normal form of a value that is written: an entity object becomes a
    reference to its id.  [live] says that the object exists. *)
Definition ref_of (h : gmap loc Entity) (x : pyitem) : json :=
  match x with
  | Obj l => match h !! l with Some e => ref (ent_id e) | None => JNone end
  | Val v => v
  end.

Definition live (h : gmap loc Entity) (x : pyitem) : Prop :=
  match x with
  | Obj l => is_Some (h !! l)
  | Val _ => True
  end.

(** The heap after an assignment to [_jsonld] of the object at [l]. *)
Definition upd (h : gmap loc Entity) (l : loc) (d : pydict) : gmap loc Entity :=
  alter (fun e => with_jsonld e d) l h.

(** The sequence that [append_to] extends: the stored list, a stored scalar
    promoted to a list of one, nothing for a missing key. *)
Definition as_sequence (o : option json) : list json :=
  match o with
  | None => []
  | Some (JList l) => l
  | Some v => [v]
  end.

(** ** The states a crate built from scratch can reach

    The public operations on a crate and its entities; a reachable state is
    what a sequence of them leaves behind, whether they return or raise. *)

Inductive operation : Type :=
  | OpNew (k : EntityClass) (identifier : option string) (fresh_uuid : string)
      (properties : pydict) (src : option string) (fetch validate : bool)
  | OpAdd (entities : list loc)
  | OpDelete (entities : list entity_arg)
  | OpSetitem (self : loc) (key : string) (value : pyval)
  | OpDelitem (self : loc) (key : string)
  | OpAppendTo (self : loc) (key : string) (value : pyval) (compact : bool).

Section Reachable.

Variable is_url : string -> bool.
Variable iso_now : string.
Variable default_type : EntityClass -> json.

Definition run_operation (o : operation) (w : world) : world :=
  match o with
  | OpNew k identifier fresh_uuid properties src fetch validate =>
      snd (new_entity iso_now default_type k identifier fresh_uuid properties
             src fetch validate w)
  | OpAdd entities => snd (add is_url entities w)
  | OpDelete entities => snd (delete_entities is_url entities w)
  | OpSetitem self key value => snd (setitem self key value w)
  | OpDelitem self key => snd (delitem self key w)
  | OpAppendTo self key value compact => snd (append_to self key value compact w)
  end.

Inductive reachable : world -> Prop :=
  | reachable_init (u : N) :
      reachable (snd (ROCrate_init is_url iso_now default_type (empty_world u)))
  | reachable_step (w : world) (o : operation) :
      reachable w -> reachable (run_operation o w).

End Reachable.

(** Every object carries an ["@id"] entry in its property store. *)
Definition heap_ok (w : world) : Prop :=
  forall l e, heap w !! l = Some e -> Dict.mem "@id" (_jsonld e) = true.

(** The root dataset and the metadata entity, once set, are objects. *)
Definition slots_ok (w : world) : Prop :=
  (forall r, root_dataset (crate w) = Some r -> is_Some (heap w !! r)) /\
  (forall m, metadata (crate w) = Some m -> is_Some (heap w !! m)).

(** What an operation may do to the state besides its purpose: objects stay,
    and every object keeps an ["@id"] entry. *)
Definition frame (w w' : world) : Prop :=
  (forall l, is_Some (heap w !! l) -> is_Some (heap w' !! l)) /\ heap_ok w'.

(** An operation on objects that leaves the crate's own attributes alone. *)
Definition framed {A} (m : M A) : Prop :=
  forall w o w', heap_ok w -> m w = (o, w') -> crate w' = crate w /\ frame w w'.

(** An operation that may also move the crate's attributes, keeping the root
    dataset and the metadata entity set once they are. *)
Definition keeps_slots {A} (m : M A) : Prop :=
  forall w o w', heap_ok w -> slots_ok w -> m w = (o, w') ->
    frame w w' /\ slots_ok w' /\
    (is_Some (root_dataset (crate w)) -> is_Some (root_dataset (crate w'))) /\
    (is_Some (metadata (crate w)) -> is_Some (metadata (crate w'))).

(** The entity that an argument of [delete] names in the state [w]. *)
Definition names (is_url : string -> bool) (w : world) (a : entity_arg) (l : loc) : Prop :=
  a = ByObj l \/ exists s, a = ById s /\ dereference is_url (crate w) s = Some l.

(** The stored hasPart of the object at [l]. *)
Definition has_part_of (w : world) (l : loc) : option json :=
  match heap w !! l with
  | Some e => Dict.get "hasPart" (_jsonld e)
  | None => None
  end.

(** A crate built from scratch to which the file "a.txt" has been added. *)
Definition example_world : world :=
  run_operation has_scheme "2024-01-01T00:00:00+00:00" (fun _ => JStr "Thing")
    (OpAdd [3%positive])
    (run_operation has_scheme "2024-01-01T00:00:00+00:00" (fun _ => JStr "Thing")
       (OpNew File (Some "a.txt") "" [] None false false)
       (snd (ROCrate_init has_scheme "2024-01-01T00:00:00+00:00"
               (fun _ => JStr "Thing") (empty_world example_uuid)))).

(** ** rocrate/model/dataset.py: streaming a dataset *)

(** What a consumer of the generator observes, in order: the pairs yielded
    and the warnings issued. *)
Inductive event : Type :=
  | Yield (rel_path : string) (chunk : string)
  | Warn (dataset_id : string).

(** A generator run to its end: what it produced, how it stopped, and the
    property store it leaves. *)
Record stream_result : Type := mkStream {
  events : list event;
  stopped : outcome unit;
  jsonld_after : pydict }.

Section Streams.

Variable is_url : string -> bool.
Variable iso_now : string.

(** The collaborators: [urlopen(uri)] read [chunk_size] bytes at a time (the
    chunks before the empty read; [None] when the request fails),
    [Path(p).exists()], the pairs that [os.walk], [relative_to] and the
    chunked reads give for a local directory, and [str(Path(id) / part)]. *)
Variable urlopen : string -> option (list string).
Variable path_exists : string -> bool.
Variable walk_chunks : string -> list (string * string).
Variable path_join : string -> string -> string.

(** What [for entry in self._jsonld.get("hasPart", [])] iterates over: the
    elements of a list, the keys of a mapping, the characters of a string. *)
Definition iter_parts (o : option json) : outcome (list json) :=
  match o with
  | None => Ok []
  | Some (JList l) => Ok l
  | Some (JDict i d) =>
      Ok (map JStr (match i with Some _ => ["@id"] | None => [] end ++ Dict.keys d)%list)
  | Some (JStr s) =>
      Ok (map (fun a => JStr (String a EmptyString)) (list_ascii_of_string s))
  | Some _ => Raise TypeError
  end.

(** The loop of [_stream_folder_from_url] when remote content is fetched. *)
Fixpoint stream_parts (base id_ : string) (entries : list json)
  : list event * outcome unit :=
  match entries with
  | [] => ([], Ok tt)
  | entry :: r =>
      match entry with
      | JDict (Some part) _ =>
          if is_url part || PyStr.startswith "/" part then ([], Raise RuntimeError)
          else
            match urlopen (base ++ "/" ++ part) with
            | None => ([], Raise URLError)
            | Some chunks =>
                let '(evs, out) := stream_parts base id_ r in
                (map (Yield (path_join id_ part)) chunks ++ evs, out)%list
            end
      | JDict None _ =>
          let '(evs, out) := stream_parts base id_ r in
          (Warn id_ :: evs, out)
      | _ => ([], Raise TypeError)
      end
  end.

(** [Dataset._stream_folder_from_url] *)
Definition _stream_folder_from_url (e : Entity) (src : string) : stream_result :=
  if negb (fetch_remote e) then
    if validate_url e then
      match urlopen src with
      | Some _ => mkStream [] (Ok tt) (Dict.set "sdDatePublished" (JStr iso_now) (_jsonld e))
      | None => mkStream [] (Raise URLError) (_jsonld e)
      end
    else mkStream [] (Ok tt) (_jsonld e)
  else
    let base := PyStr.rstrip "/" src in
    match iter_parts (Dict.get "hasPart" (_jsonld e)) with
    | Raise x => mkStream [] (Raise x) (_jsonld e)
    | Ok entries =>
        let '(evs, out) := stream_parts base (ent_id e) entries in
        mkStream evs out (_jsonld e)
    end.

(** [Dataset._stream_folder_from_path] *)
Definition _stream_folder_from_path (c : ROCrate) (e : Entity) (src : string)
  : stream_result :=
  if negb (path_exists src) then mkStream [] (Raise FileNotFoundError) (_jsonld e)
  else
    match source c with
    | Some _ => mkStream [] (Ok tt) (_jsonld e)
    | None =>
        mkStream (map (fun dc => Yield (fst dc) (snd dc)) (walk_chunks src))
          (Ok tt) (_jsonld e)
    end.

(** [Dataset.stream] *)
Definition stream (c : ROCrate) (e : Entity) : stream_result :=
  match ent_source e with
  | None => mkStream [] (Ok tt) (_jsonld e)
  | Some src =>
      if is_url src then _stream_folder_from_url e src
      else _stream_folder_from_path c e src
  end.

(** A hasPart entry that streams without error: a mapping that has no
    ["@id"], or whose ["@id"] is a strict relative path that can be opened
    under the base. *)
Definition streams_ok (base : string) (entry : json) : bool :=
  match entry with
  | JDict (Some part) _ =>
      negb (is_url part || PyStr.startswith "/" part) &&
      match urlopen (base ++ "/" ++ part) with Some _ => true | None => false end
  | JDict None _ => true
  | _ => false
  end.

(** What such an entry contributes to the stream. *)
Definition part_events (base id_ : string) (entry : json) : list event :=
  match entry with
  | JDict (Some part) _ =>
      match urlopen (base ++ "/" ++ part) with
      | Some chunks => map (Yield (path_join id_ part)) chunks
      | None => []
      end
  | JDict None _ => [Warn id_]
  | _ => []
  end.

End Streams.

(** Examples: a remote dataset with two parts and an entry without ["@id"],
    a local dataset, and a crate that was read from a directory. *)
Definition example_remote_dataset : Entity :=
  mkEntity Dataset "data/"
    [("@id", JStr "data/");
     ("hasPart", JList [ref "a.txt"; JDict None [("name", JStr "x")]; ref "b.txt"])]
    (Some "http://example.org/data/") true false.

Definition example_urlopen (uri : string) : option (list string) :=
  if String.eqb uri "http://example.org/data/a.txt" then Some ["aa"; "a"] else Some ["b"].

Definition example_local_dataset : Entity :=
  mkEntity Dataset "data/" [("@id", JStr "data/"); ("@type", JStr "Dataset")]
    (Some "/crate/data") false false.

Definition example_loaded_crate : ROCrate :=
  mkCrate example_uuid ∅ None None None (Some "/crate").

(** ** rocrate/rocrate.py: type dispatch while loading *)

(** [utils.as_list].  Modelled from the spec: utils.py is not among the
    sources; a list stands for itself and any other value for the list that
    holds it. *)
Definition as_list (v : json) : list json :=
  match v with
  | JList l => l
  | _ => [v]
  end.

(** A value that [set] cannot hold. *)
Definition unhashable (v : json) : bool :=
  match v with
  | JList _ | JDict _ _ => true
  | _ => false
  end.

Definition str_of (v : json) : option string :=
  match v with
  | JStr s => Some s
  | _ => None
  end.

Fixpoint strip_all (ts : list json) : option (list string) :=
  match ts with
  | [] => Some []
  | t :: r =>
      match str_of t, strip_all r with
      | Some s, Some ss => Some (PyStr.strip s :: ss)
      | _, _ => None
      end
  end.

(** [{_.strip() for _ in set(t if isinstance(t, list) else [t])}] *)
Definition declared_types (t : json) : outcome (list string) :=
  let ts := match t with JList l => l | _ => [t] end in
  if existsb unhashable ts then Raise TypeError
  else match strip_all ts with
       | Some types => Ok types
       | None => Raise AttributeError
       end.

(** The loop of [pick_type] over [type_map.items()]. *)
Fixpoint first_registered {C} (type_map : list (string * C)) (types : list string)
  : option C :=
  match type_map with
  | [] => None
  | (name, c) :: r =>
      if existsb (String.eqb name) types then Some c else first_registered r types
  end.

(** [pick_type].  The message of the [ValueError] reads [json_entity["@id"]],
    which raises [KeyError] in its turn when the entity has no ["@id"]. *)
Definition pick_type {C} (json_entity : pydict) (type_map : list (string * C))
    (fallback : C) : outcome C :=
  match Dict.get "@type" json_entity with
  | None =>
      match Dict.get "@id" json_entity with
      | Some _ => Raise ValueError
      | None => Raise KeyError
      end
  | Some t =>
      match declared_types t with
      | Raise x => Raise x
      | Ok types =>
          Ok (match first_registered type_map types with
              | Some c => c
              | None => fallback
              end)
      end
  end.

(** The pending entities: [entities], a mapping from id to property
    mapping, in insertion order. *)
Abbreviation pool := (list (string * pydict)).

(** [entities.pop(id_)] *)
Fixpoint pool_pop (id_ : string) (entities : pool) : option (pydict * pool) :=
  match entities with
  | [] => None
  | (k, entity) :: r =>
      if String.eqb id_ k then Some (entity, r)
      else match pool_pop id_ r with
           | Some (found, r') => Some (found, (k, entity) :: r')
           | None => None
           end
  end.

(** Some pending entity has no ["@type"]. *)
Definition lacks_type (entities : pool) : bool :=
  existsb (fun ke => negb (Dict.mem "@type" (snd ke))) entities.

(** The constructor calls of the loader. *)
Inductive construction : Type :=
  | Plain (k : EntityClass) (identifier : string) (properties : pydict)
  | Remote (k : EntityClass) (url : string) (properties : pydict)
  | Local (k : EntityClass) (src dest_path : string) (properties : pydict).

Section Loader.

Variable is_url : string -> bool.

(** What is outside the sources: the constructors of the classes
    ([construct] builds the object and returns it), [source / id_], the
    tables that [subclasses] gives for [FileOrDir] and [ContextEntity], and
    the depth of recursion that Python allows. *)
Variable construct : construction -> M loc.
Variable path_under : string -> string.
Variable data_type_map : list (string * EntityClass).
Variable context_type_map : list (string * EntityClass).

(** [assert id_ == entity.pop('@id')]: the entity without its ["@id"]. *)
Definition pop_id (id_ : string) (entity : pydict) : outcome pydict :=
  match Dict.get "@id" entity with
  | None => Raise KeyError
  | Some v =>
      if py_eq (JStr id_) v then Ok (Dict.remove "@id" entity)
      else Raise AssertionError
  end.

(** [data_entity_ref['@id']] *)
Definition ref_id (data_entity_ref : json) : outcome string :=
  match data_entity_ref with
  | JDict (Some id_) _ => Ok id_
  | JDict None _ => Raise KeyError
  | _ => Raise TypeError
  end.

(** [entity.get("hasPart", [])] *)
Definition get_or_empty (key : string) (entity : pydict) : json :=
  match Dict.get key entity with
  | Some v => v
  | None => JList []
  end.

(** The loop of [ROCrate.__add_parts]; [nested] is the method itself, called
    on the parts of the entity just added. *)
Fixpoint parts_loop (nested : list json -> pool -> M pool)
    (parts : list json) (entities : pool) : M pool :=
  match parts with
  | [] => ret entities
  | data_entity_ref :: rest =>
      let* id_ := lift (ref_id data_entity_ref) in
      match pool_pop id_ entities with
      | None => parts_loop nested rest entities
      | Some (entity, entities) =>
          let* entity := lift (pop_id id_ entity) in
          let* cls := lift (pick_type entity data_type_map DataEntity) in
          let* instance :=
            if bool_decide (cls = DataEntity) then construct (Plain DataEntity id_ entity)
            else if is_url id_ then construct (Remote cls id_ entity)
            else construct (Local cls (path_under id_) id_ entity) in
          let* _ := add is_url [instance] in
          let* entities := nested (as_list (get_or_empty "hasPart" entity)) entities in
          parts_loop nested rest entities
      end
  end.

(** [ROCrate.__add_parts]; [limit] is the number of nested calls that Python
    still allows, beyond which it raises [RecursionError]. *)
Fixpoint add_parts (limit : nat) : list json -> pool -> M pool :=
  parts_loop
    (match limit with
     | O => fun _ _ => raise RecursionError
     | S limit' => add_parts limit'
     end).

(** [data_entity_types.intersection(as_list(entity.get("@type", [])))] *)
Definition data_like (entity : pydict) : outcome bool :=
  let ts := as_list (get_or_empty "@type" entity) in
  if existsb unhashable ts then Raise TypeError
  else Ok (existsb (fun t => py_eq t (JStr "File") || py_eq t (JStr "Dataset")) ts).

(** [ROCrate.__read_contextual_entities]; the warning itself is not
    recorded, reading the id for its text is. *)
Fixpoint read_contextual_entities (entities : pool) : M unit :=
  match entities with
  | [] => ret tt
  | (identifier, entity) :: rest =>
      let* warn := lift (data_like entity) in
      let* _ :=
        if warn then
          match Dict.get "@id" entity with
          | Some _ => ret tt
          | None => raise KeyError
          end
        else ret tt in
      let* entity := lift (pop_id identifier entity) in
      let* cls := lift (pick_type entity context_type_map ContextEntity) in
      let* instance := construct (Plain cls identifier entity) in
      let* _ := add is_url [instance] in
      read_contextual_entities rest
  end.

(** The end of [ROCrate.__read]: the walk from the root dataset's parts,
    then the contextual entities. *)
Definition read_entities (limit : nat) (parts : list json) (entities : pool) : M unit :=
  let* entities := add_parts limit parts entities in
  read_contextual_entities entities.

End Loader.

(** An instance of the constructors for the examples: [Entity.__init__] with
    the id as given. *)
Definition example_construct (k : construction) : M loc :=
  match k with
  | Plain c i p => new_entity "now" (fun _ => JStr "Thing") c (Some i) "" p None false false
  | Remote c u p => new_entity "now" (fun _ => JStr "Thing") c (Some u) "" p (Some u) false false
  | Local c s d p => new_entity "now" (fun _ => JStr "Thing") c (Some d) "" p (Some s) false false
  end.

(** ** Further predicates used in the statements *)

(** The root dataset and metadata attributes are what they were. *)
Definition same_slots (w w' : world) : Prop :=
  root_dataset (crate w') = root_dataset (crate w) /\
  metadata (crate w') = metadata (crate w).

(** What holds in every reachable state. *)
Definition crate_inv (w : world) : Prop :=
  heap_ok w /\ slots_ok w /\
  is_Some (root_dataset (crate w)) /\ is_Some (metadata (crate w)).

(** A run that ends in an exception. *)
Definition fails {A} (r : outcome A * world) : Prop :=
  exists x w', r = (Raise x, w').


(** * Further definitions *)

(** ** Predicates on property stores and states *)


(** Apart from its property store, the object is what it was. *)
Definition same_object (e0 e : Entity) : Prop :=
  ent_class e = ent_class e0 /\ ent_id e = ent_id e0 /\
  ent_source e = ent_source e0 /\ fetch_remote e = fetch_remote e0 /\
  validate_url e = validate_url e0.

(** Every object of the heap [h0] is still there, and its property store
    stands in the relation [R] to the one it had. *)
Definition agrees (R : loc -> pydict -> pydict -> Prop) (h0 : gmap loc Entity)
    (w : world) : Prop :=
  forall l e0, h0 !! l = Some e0 ->
    exists e, heap w !! l = Some e /\ same_object e0 e /\ R l (_jsonld e0) (_jsonld e).

(** An operation under which that stays so. *)
Definition keeps {A} (R : loc -> pydict -> pydict -> Prop) (h0 : gmap loc Entity)
    (m : M A) : Prop :=
  forall w o w', agrees R h0 w -> m w = (o, w') -> agrees R h0 w'.

(** Assigning to, or deleting, [key] in the store of the object at [l] is
    within [R]. *)
Definition set_ok (R : loc -> pydict -> pydict -> Prop) (l : loc) (key : string) : Prop :=
  forall d0 d v, R l d0 d -> R l d0 (Dict.set key v d).

Definition remove_ok (R : loc -> pydict -> pydict -> Prop) (l : loc) (key : string)
  : Prop :=
  forall d0 d, R l d0 d -> R l d0 (Dict.remove key d).

(** Only the hasPart of the objects in [may] can differ. *)
Definition only_has_part (may : loc -> Prop) (l : loc) (d0 d : pydict) : Prop :=
  (~ may l -> d = d0) /\
  (forall k, k <> "hasPart" -> Dict.get k d = Dict.get k d0).

(** A value written by [__setitem__] that reads back as itself: an entity
    object registered under its own id, or JSON data that is not a mapping. *)
Definition reads_back (is_url : string -> bool) (w : world) (x : pyitem) : Prop :=
  match x with
  | Obj l =>
      exists e, heap w !! l = Some e /\
                dereference is_url (crate w) (ent_id e) = Some l
  | Val v => is_dict v = false
  end.

(** [One (Val (JList l))] and [Many (map Val l)] stand for the same Python
    list; item-read returns the second form. *)
Definition read_form (value : pyval) : Prop :=
  match value with
  | One (Val (JList _)) => False
  | _ => True
  end.

(** A property that [Entity.__init__] accepts: a reserved key, or a value
    that holds no mapping without ["@id"]. *)
Definition valid_property (p : string * json) : bool :=
  PyStr.startswith "@" (fst p) ||
  negb (existsb lacks_id (as_values (One (Val (snd p))))).

(** The assignments [d[name] = value], in the order of the properties. *)
Definition store_all (properties : pydict) (d : pydict) : pydict :=
  fold_left (fun d p => Dict.set (fst p) (snd p) d) properties d.

(** The id of an entity constructed with [identifier]. *)
Definition init_id (k : EntityClass) (identifier : option string) (fresh_uuid : string)
  : string :=
  match identifier with
  | Some (String a s) => format_id k (String a s)
  | _ => "#" ++ fresh_uuid
  end.

(** ** rocrate/model/dataset.py: writing a remote dataset *)

(** What [_write_from_url] asks of the file system, in order.  The requests
    are taken to succeed; a failing one would raise [OSError] there. *)
Inductive file_op : Type :=
  | MkdirParents (dir : string)
  | OpenWb (path : string)
  | WriteChunk (path : string) (chunk : string)
  | CloseFile (path : string).

(** How a run of [_write_from_url] ends: the requests made, the outcome, the
    file that is still open and the property store. *)
Record write_result : Type := mkWritten {
  file_ops : list file_op;
  finished : outcome unit;
  left_open : option string;
  jsonld_written : pydict }.

Section Writing.

Variable is_url : string -> bool.
Variable iso_now : string.

(** [urlopen] as for streaming, [base_path / rel_path] and [path.parent]. *)
Variable urlopen : string -> option (list string).
Variable path_join : string -> string -> string.
Variable path_under : string -> string -> string.
Variable parent : string -> string.

(** The loop of [_write_from_url] over what the generator yields;
    [out_file_path] is the path of [out_file], [None] before the first
    round.  Warnings are not items of the generator. *)
Fixpoint write_chunks (base_path : string) (out_file_path : option string)
    (evs : list event) : list file_op * option string :=
  match evs with
  | [] => ([], out_file_path)
  | Warn _ :: r => write_chunks base_path out_file_path r
  | Yield rel_path chunk :: r =>
      let path := path_under base_path rel_path in
      let same :=
        match out_file_path with
        | Some p => String.eqb path p
        | None => false
        end in
      let opening :=
        if same then []
        else (match out_file_path with Some p => [CloseFile p] | None => [] end
              ++ [MkdirParents (parent path); OpenWb path])%list in
      let '(ops, last) := write_chunks base_path (Some path) r in
      ((opening ++ WriteChunk path chunk :: ops)%list, last)
  end.

(** [Dataset._write_from_url] of a dataset with the source [src]. *)
Definition _write_from_url (e : Entity) (src base_path : string) : write_result :=
  let validated :=
    if validate_url e && negb (fetch_remote e) then
      match urlopen src with
      | Some _ => Ok (Dict.set "sdDatePublished" (JStr iso_now) (_jsonld e))
      | None => Raise URLError
      end
    else Ok (_jsonld e) in
  match validated with
  | Raise x => mkWritten [] (Raise x) None (_jsonld e)
  | Ok d =>
      if fetch_remote e then
        let s := _stream_folder_from_url is_url iso_now urlopen path_join
                   (with_jsonld e d) src in
        let '(ops, last) := write_chunks base_path None (events s) in
        match stopped s with
        | Ok _ =>
            mkWritten
              (ops ++ match last with Some p => [CloseFile p] | None => [] end)%list
              (Ok tt) None (jsonld_after s)
        | Raise x => mkWritten ops (Raise x) last (jsonld_after s)
        end
      else mkWritten [] (Ok tt) None d
  end.

End Writing.

(** A sequence of requests that respects the protocol of files: a file is
    opened only when none is open, written and closed only while it is the
    open one.  The result is the file left open. *)
Fixpoint conforms (cur : option string) (ops : list file_op) : option (option string) :=
  match ops with
  | [] => Some cur
  | MkdirParents _ :: r => conforms cur r
  | OpenWb p :: r =>
      match cur with
      | None => conforms (Some p) r
      | Some _ => None
      end
  | WriteChunk p _ :: r =>
      match cur with
      | Some q => if String.eqb p q then conforms cur r else None
      | None => None
      end
  | CloseFile p :: r =>
      match cur with
      | Some q => if String.eqb p q then conforms None r else None
      | None => None
      end
  end.

(** The chunks written, and the chunks yielded, in order. *)
Definition chunks_written (ops : list file_op) : list string :=
  omap (fun o => match o with WriteChunk _ chunk => Some chunk | _ => None end) ops.

Definition chunks_yielded (evs : list event) : list string :=
  omap (fun ev => match ev with Yield _ chunk => Some chunk | Warn _ => None end) evs.

(** ** rocrate/rocrate.py: update from a JSON-LD mapping *)




(** Every registered entity is an object. *)
Definition registered_live (w : world) : Prop :=
  forall s l, entity_map (crate w) !! s = Some l -> is_Some (heap w !! l).

(** The entries that [delete] finds under the root dataset's hasPart when it
    is a list or missing. *)
Definition listed_parts (d : pydict) : option (list json) :=
  match Dict.get "hasPart" d with
  | None => Some []
  | Some (JList l) => Some l
  | Some _ => None
  end.

(** [_ != e] on what has been read, for objects that exist. *)
Definition other_than (h : gmap loc Entity) (e : Entity) (x : pyitem) : bool :=
  match x with
  | Obj l => match h !! l with
             | Some e' => negb (entity_eq e' e)
             | None => false
             end
  | Val _ => true
  end.

(** What becomes of one hasPart entry when [e] is deleted: read through the
    crate, compared with [e], written back. *)
Definition rewritten_part (is_url : string -> bool) (w : world) (e : Entity)
    (entry : json) : option json :=
  match deref_item is_url (crate w) entry with
  | Obj l =>
      match heap w !! l with
      | Some e' => if entity_eq e' e then None else Some (ref (ent_id e'))
      | None => None
      end
  | Val v => Some v
  end.

(** ** Examples *)

(** The objects and the crate of [example_world], written out. *)
Definition small_root : Entity :=
  mkEntity RootDataset "./"
    [("@id", JStr "./"); ("@type", JStr "Dataset");
     ("datePublished", JStr "2024-01-01T00:00:00+00:00");
     ("hasPart", JList [ref "a.txt"])] None false false.

Definition small_metadata : Entity :=
  mkEntity Metadata "ro-crate-metadata.json"
    [("@id", JStr "ro-crate-metadata.json"); ("@type", JStr "Thing")] None false false.

Definition small_file : Entity :=
  mkEntity File "a.txt" [("@id", JStr "a.txt"); ("@type", JStr "Thing")] None false false.

Definition small_heap : gmap loc Entity :=
  <[3%positive := small_file]>
    (<[2%positive := small_metadata]> (<[1%positive := small_root]> ∅)).

Definition small_crate : ROCrate :=
  mkCrate example_uuid
    (<["arcp://uuid,123e4567-e89b-42d3-a456-426614174000/a.txt" := 3%positive]>
       (<["arcp://uuid,123e4567-e89b-42d3-a456-426614174000/ro-crate-metadata.json"
            := 2%positive]>
          (<["arcp://uuid,123e4567-e89b-42d3-a456-426614174000" := 1%positive]> ∅)))
    (Some 1%positive) (Some 2%positive) None None.

Definition small_world : world := mkWorld small_heap small_crate.

(** A crate whose root dataset lists the file "a.txt", a file "gone.txt"
    that is not registered, and the file "b.txt". *)
Definition listing_root : Entity :=
  mkEntity RootDataset "./"
    [("@id", JStr "./"); ("@type", JStr "Dataset");
     ("hasPart", JList [ref "a.txt";
                        JDict (Some "gone.txt") [("name", JStr "lost")];
                        JDict (Some "b.txt") [("name", JStr "kept")]])]
    None false false.

Definition other_file : Entity :=
  mkEntity File "b.txt" [("@id", JStr "b.txt"); ("@type", JStr "File")] None false false.

Definition listing_world : world :=
  mkWorld (<[4%positive := other_file]> (<[1%positive := listing_root]> small_heap))
    (mkCrate example_uuid
       (<["arcp://uuid,123e4567-e89b-42d3-a456-426614174000/b.txt" := 4%positive]>
          (entity_map small_crate))
       (Some 1%positive) (Some 2%positive) None None).

(** Two pending directories that list each other as parts. *)
Definition cyclic_pool : pool :=
  [("x/", [("@id", JStr "x/"); ("@type", JStr "Dataset"); ("hasPart", JList [ref "y/"])]);
   ("y/", [("@id", JStr "y/"); ("@type", JStr "Dataset"); ("hasPart", JList [ref "x/"])])].

(** * Properties *)

(** ** Strings and the resolver *)

Lemma append_assoc (s t r : string) : (s ++ t) ++ r = s ++ t ++ r.
Proof.
  induction s as [|a s IH]; [reflexivity|].
  change ((String a s ++ t) ++ r) with (String a ((s ++ t) ++ r)).
  now rewrite IH.
Qed.

Lemma rstrip_app (c : ascii) (s t : string) :
  PyStr.rstrip c t <> EmptyString ->
  PyStr.rstrip c (s ++ t) = s ++ PyStr.rstrip c t.
Proof.
  intros Ht. induction s as [|a s IH]; simpl; [reflexivity|].
  rewrite IH. destruct (s ++ PyStr.rstrip c t) eqn:E; [|now rewrite <- E].
  destruct s; simpl in E; [contradiction | discriminate].
Qed.


Lemma rstrip_no_trailing (c : ascii) (s : string) :
  endswith_char c (PyStr.rstrip c s) = false.
Proof.
  induction s as [|a s IH]; simpl; [reflexivity|].
  destruct (PyStr.rstrip c s) eqn:E.
  - destruct (Ascii.eqb a c) eqn:Ea; simpl; [reflexivity | exact Ea].
  - exact IH.
Qed.

Lemma forallb_app (P : ascii -> bool) (s t : string) :
  PyStr.forallb P (s ++ t) = PyStr.forallb P s && PyStr.forallb P t.
Proof.
  induction s as [|a s IH]; [reflexivity|].
  change (String a s ++ t) with (String a (s ++ t)).
  cbn [PyStr.forallb]. rewrite IH. apply andb_assoc.
Qed.

Lemma hex_digit_uuid_char (n : N) : (n < 16)%N -> uuid_char (hex_digit n) = true.
Proof.
  intros H.
  assert (Hc : In n (map N.of_nat (seq 0 16))).
  { apply in_map_iff. exists (N.to_nat n). split; [lia|]. apply in_seq. lia. }
  simpl in Hc.
  repeat (destruct Hc as [<- | Hc]; [reflexivity|]). destruct Hc.
Qed.

Lemma hex_uuid_text (k : nat) (n : N) : is_uuid_text (hex k n) = true.
Proof.
  revert n. induction k as [|k IH]; intros n; [reflexivity|].
  unfold is_uuid_text in *. cbn [hex]. rewrite forallb_app, IH.
  cbn [PyStr.forallb andb]. rewrite hex_digit_uuid_char; [reflexivity|].
  apply N.mod_lt. lia.
Qed.

Lemma uuid_str_text (n : N) : is_uuid_text (uuid_str n) = true.
Proof.
  unfold uuid_str, is_uuid_text.
  repeat rewrite forallb_app.
  repeat rewrite (hex_uuid_text _ _ : PyStr.forallb uuid_char (hex _ _) = true).
  reflexivity.
Qed.

Lemma uuid_char_not_netloc_end (a : ascii) :
  uuid_char a = true -> UrlParse.netloc_end a = false.
Proof.
  destruct a as [[] [] [] [] [] [] [] []]; vm_compute; congruence.
Qed.

Lemma span_netloc_uuid (u t : string) :
  is_uuid_text u = true ->
  PyStr.span_until UrlParse.netloc_end (u ++ String "/" t) = (u, String "/" t).
Proof.
  induction u as [|a u IH]; intros Hu; [reflexivity|].
  simpl in Hu. apply andb_prop in Hu as [Ha Hu].
  change (String a u ++ String "/" t) with (String a (u ++ String "/" t)).
  cbn [PyStr.span_until]. rewrite (uuid_char_not_netloc_end _ Ha), (IH Hu).
  reflexivity.
Qed.

Lemma urlsplit_arcp_base (u : string) :
  is_uuid_text u = true ->
  UrlParse.urlsplit ("arcp://uuid," ++ u ++ "/") "" =
  UrlParse.mkSplit "arcp" ("uuid," ++ u) "/" "" "".
Proof.
  intros Hu. unfold UrlParse.urlsplit.
  change (UrlParse.split_scheme ("arcp://uuid," ++ u ++ "/"))
    with ("arcp", "//uuid," ++ u ++ "/").
  cbn [PyStr.nonempty].
  assert (Hn : UrlParse.split_netloc ("//uuid," ++ u ++ "/") = ("uuid," ++ u, "/")).
  { change ("//uuid," ++ u ++ "/")
      with (String "/" (String "/" (String "u" (String "u" (String "i"
             (String "d" (String "," (u ++ "/")))))))).
    cbn [UrlParse.split_netloc]. simpl.
    now rewrite (span_netloc_uuid u "" Hu). }
  rewrite Hn. reflexivity.
Qed.

(** Joining a reference that is a plain relative path (it splits into the
    path alone, with no scheme, network location, query or fragment) onto the
    base URI of a crate. *)
Lemma urljoin_arcp_relative (u p : string) :
  is_uuid_text u = true ->
  PyStr.nonempty p = true ->
  PyStr.startswith "/" p = false ->
  (forall d, UrlParse.urlsplit p d = UrlParse.mkSplit d "" p "" "") ->
  UrlParse.urljoin ("arcp://uuid," ++ u ++ "/") p =
  let segments := UrlParse.filter_middle (["" ; ""] ++ PyStr.split "/" p) in
  let resolved := UrlParse.resolve_segments segments [] in
  let resolved :=
    if String.eqb (List.last segments "") "." || String.eqb (List.last segments "") ".."
    then (resolved ++ [EmptyString])%list else resolved in
  let q := PyStr.join "/" resolved in
  "arcp://uuid," ++ u ++ (if PyStr.nonempty q then
                            (if PyStr.startswith "/" q then q else "/" ++ q)
                          else "/").
Proof.
  intros Hu Hp Hs Hsplit. unfold UrlParse.urljoin.
  rewrite (urlsplit_arcp_base u Hu), Hsplit.
  cbn [PyStr.nonempty append negb UrlParse.scheme UrlParse.netloc UrlParse.path
       UrlParse.query UrlParse.fragment].
  rewrite Hp, Hs.
  change (UrlParse.mem "arcp" UrlParse.uses_relative) with true.
  change (UrlParse.mem "arcp" UrlParse.uses_netloc) with true.
  change ("arcp" =? "arcp")%string with true.
  cbn [negb orb andb].
  change (UrlParse.drop_last_unless_empty (PyStr.split "/" "/")) with ["" ; ""].
  cbv zeta.
  match goal with
  | |- context [PyStr.join "/" ?r] => destruct (PyStr.join "/" r) as [|a q] eqn:Eq
  end.
  - reflexivity.
  - unfold UrlParse.urlunsplit.
    cbn [PyStr.nonempty UrlParse.scheme UrlParse.netloc UrlParse.path
         UrlParse.query UrlParse.fragment append orb andb].
    change (PyStr.nonempty ("arcp://uuid," ++ u ++ "/")) with true.
    change (PyStr.nonempty ("uuid," ++ u)) with true.
    destruct (PyStr.startswith "/" (String a q)); reflexivity.
Qed.

Example urljoin_data :
  UrlParse.urljoin "arcp://uuid,ab-12/" "./data/" = "arcp://uuid,ab-12/data/".
Proof. reflexivity. Qed.

Lemma resolve_id_relative (is_url : string -> bool) (c : ROCrate) (p q : string) :
  is_url p = false ->
  PyStr.nonempty p = true ->
  PyStr.startswith "/" p = false ->
  (forall d, UrlParse.urlsplit p d = UrlParse.mkSplit d "" p "" "") ->
  (let segments := UrlParse.filter_middle (["" ; ""] ++ PyStr.split "/" p) in
   let resolved := UrlParse.resolve_segments segments [] in
   let resolved :=
     if String.eqb (List.last segments "") "." || String.eqb (List.last segments "") ".."
     then (resolved ++ [EmptyString])%list else resolved in
   PyStr.join "/" resolved) = "/" ++ q ->
  PyStr.rstrip "/" q <> EmptyString ->
  resolve_id is_url c p =
  "arcp://uuid," ++ uuid_str (uuid c) ++ "/" ++ PyStr.rstrip "/" q.
Proof.
  intros Hurl Hp Hs Hsplit Hq Hne. unfold resolve_id, arcp_base_uri.
  rewrite Hurl, (urljoin_arcp_relative _ p (uuid_str_text _) Hp Hs Hsplit).
  cbv zeta. cbv zeta in Hq. rewrite Hq.
  change (PyStr.nonempty ("/" ++ q)) with true.
  change (PyStr.startswith "/" ("/" ++ q)) with true. cbv iota.
  change ("arcp://uuid," ++ uuid_str (uuid c) ++ "/" ++ q)
    with (("arcp://uuid," ++ uuid_str (uuid c) ++ "/") ++ q).
  rewrite rstrip_app by exact Hne.
  now rewrite !append_assoc.
Qed.

(** C5. Within one crate, [resolve_id] sends "data", "data/" and "./data/" to
    one canonical key (the crate's base URI followed by "data"); an id that
    is an absolute URL is returned with its trailing slashes stripped and
    nothing else changed, every other id is joined onto the crate's private
    base URI and then stripped; a canonical id never ends with a slash. *)
Theorem resolve_id_canonical_key (is_url : string -> bool) (c : ROCrate) :
  is_url "data" = false -> is_url "data/" = false -> is_url "./data/" = false ->
  (resolve_id is_url c "data" = "arcp://uuid," ++ uuid_str (uuid c) ++ "/data" /\
   resolve_id is_url c "data/" = resolve_id is_url c "data" /\
   resolve_id is_url c "./data/" = resolve_id is_url c "data") /\
  (forall id_,
     resolve_id is_url c id_ =
     if is_url id_ then PyStr.rstrip "/" id_
     else PyStr.rstrip "/" (UrlParse.urljoin (arcp_base_uri c) id_)) /\
  (forall id_, endswith_char "/" (resolve_id is_url c id_) = false).
Proof.
  intros H1 H2 H3.
  assert (E1 := resolve_id_relative is_url c "data" "data" H1 eq_refl eq_refl
                  (fun d => eq_refl) eq_refl ltac:(discriminate)).
  assert (E2 := resolve_id_relative is_url c "data/" "data/" H2 eq_refl eq_refl
                  (fun d => eq_refl) eq_refl ltac:(discriminate)).
  assert (E3 := resolve_id_relative is_url c "./data/" "data/" H3 eq_refl eq_refl
                  (fun d => eq_refl) eq_refl ltac:(discriminate)).
  split; [|split].
  - rewrite E1, E2, E3. auto.
  - intros id_. unfold resolve_id. destruct (is_url id_); reflexivity.
  - intros id_. apply rstrip_no_trailing.
Qed.

Lemma resolve_id_canonical_key_witness :
  (resolve_id has_scheme example_crate "data" =
     "arcp://uuid,123e4567-e89b-42d3-a456-426614174000/data" /\
   resolve_id has_scheme example_crate "data/" =
     resolve_id has_scheme example_crate "data" /\
   resolve_id has_scheme example_crate "./data/" =
     resolve_id has_scheme example_crate "data").
Proof.
  exact (proj1 (resolve_id_canonical_key has_scheme
                  example_crate
                  eq_refl eq_refl eq_refl)).
Defined.

(** ** Equality and hash of entities *)

Lemma dict_eq_get (d1 d2 : pydict) (k : string) (v : json) :
  dict_eq d1 d2 = true ->
  Dict.get k d1 = Some v ->
  exists v', Dict.get k d2 = Some v' /\ py_eq v v' = true.
Proof.
  unfold dict_eq. intros H Hk. apply andb_prop in H as [_ H].
  induction d1 as [|[k0 v0] d1 IH]; [discriminate|].
  cbn [forallb fst snd] in H. apply andb_prop in H as [H0 H].
  cbn [Dict.get] in Hk. destruct (String.eqb k k0) eqn:E.
  - apply String.eqb_eq in E. subst k0. injection Hk as ->.
    destruct (Dict.get k d2) as [v'|]; [|discriminate]. eauto.
  - auto.
Qed.

Lemma dict_eq_own_id (e1 e2 : Entity) :
  own_id e1 -> own_id e2 ->
  dict_eq (_jsonld e1) (_jsonld e2) = true ->
  ent_id e1 = ent_id e2.
Proof.
  unfold own_id. intros H1 H2 Heq.
  destruct (dict_eq_get _ _ _ _ Heq H1) as (v' & Hv' & Hpy).
  rewrite H2 in Hv'. injection Hv' as <-.
  now apply String.eqb_eq in Hpy.
Qed.

(** C1 (as the code has it). The hash of an entity is the hash of its
    canonical id, so entities of one crate with equal canonical ids hash
    alike and a change of the property store leaves the hash alone; two
    entities are [==] exactly when their ids as given and their property
    stores match, which makes their canonical ids equal; and entities whose
    stores carry their own id under "@id" are [==] as soon as their canonical
    ids and their stores match. *)
Theorem entity_eq_and_hash (is_url : string -> bool) (py_hash : string -> Z)
    (c : ROCrate) (e1 e2 : Entity) :
  (canonical_id is_url c e1 = canonical_id is_url c e2 ->
   entity_hash is_url py_hash c e1 = entity_hash is_url py_hash c e2) /\
  (forall d, entity_hash is_url py_hash c (with_jsonld e1 d) =
             entity_hash is_url py_hash c e1) /\
  (entity_eq e1 e2 = true <->
   ent_id e1 = ent_id e2 /\ dict_eq (_jsonld e1) (_jsonld e2) = true) /\
  (entity_eq e1 e2 = true ->
   canonical_id is_url c e1 = canonical_id is_url c e2) /\
  (own_id e1 -> own_id e2 ->
   canonical_id is_url c e1 = canonical_id is_url c e2 ->
   dict_eq (_jsonld e1) (_jsonld e2) = true ->
   entity_eq e1 e2 = true).
Proof.
  assert (Hiff : entity_eq e1 e2 = true <->
                 ent_id e1 = ent_id e2 /\ dict_eq (_jsonld e1) (_jsonld e2) = true).
  { unfold entity_eq. rewrite andb_true_iff, String.eqb_eq. reflexivity. }
  split; [|split; [|split; [|split]]].
  - unfold entity_hash. now intros ->.
  - reflexivity.
  - exact Hiff.
  - intros H. apply Hiff in H as [Hid _]. unfold canonical_id. now rewrite Hid.
  - intros O1 O2 _ Hd. apply Hiff. split; [|exact Hd].
    now apply dict_eq_own_id.
Qed.

(** C1, the claim as stated, fails: two entities of one crate built with the
    ids "foo" and "foo/" and the property ["@id": "x"] have the same canonical
    id and equal property stores, and are not [==]. *)
Lemma entity_eq_not_by_canonical_id :
  exists e1 e2,
    example_entity "foo" [("@id", JStr "x")] = Some e1 /\
    example_entity "foo/" [("@id", JStr "x")] = Some e2 /\
    canonical_id has_scheme example_crate e1 = canonical_id has_scheme example_crate e2 /\
    dict_eq (_jsonld e1) (_jsonld e2) = true /\
    entity_eq e1 e2 = false.
Proof.
  eexists _, _. split; [vm_compute; reflexivity|].
  split; [vm_compute; reflexivity|].
  vm_compute. auto.
Qed.

Lemma entity_eq_and_hash_witness :
  exists e1 e2,
    example_entity "#joe" [("name", JStr "Joe")] = Some e1 /\
    example_entity "#joe" [("name", JStr "Joe")] = Some e2 /\
    entity_hash has_scheme (fun s => Z.of_nat (String.length s)) example_crate e1 =
    entity_hash has_scheme (fun s => Z.of_nat (String.length s)) example_crate e2 /\
    entity_eq e1 e2 = true.
Proof.
  eexists _, _. split; [vm_compute; reflexivity|].
  split; [vm_compute; reflexivity|].
  match goal with
  | |- entity_hash _ ?h ?c ?a = entity_hash _ _ _ ?b /\ _ =>
      pose proof (entity_eq_and_hash has_scheme h c a b) as (H1 & _ & _ & _ & H5)
  end.
  split.
  - apply H1. reflexivity.
  - apply H5; reflexivity.
Defined.

(** ** Adding entities *)

(** C2. Adding an entity whose canonical id is already a key of the entity
    map succeeds and replaces that entry: the map holds the new object under
    the key, its size is what it was, and no property store changes, so the
    root dataset's hasPart list gains no entry; unless the entity is itself a
    root dataset, the root dataset stays the same object. *)
Theorem add_replaces_on_collision (is_url : string -> bool)
    (w : world) (l l0 : loc) (e : Entity) :
  heap w !! l = Some e ->
  entity_map (crate w) !! canonical_id is_url (crate w) e = Some l0 ->
  exists c',
    add is_url [l] w = (Ok tt, mkWorld (heap w) c') /\
    entity_map c' = <[canonical_id is_url (crate w) e := l]> (entity_map (crate w)) /\
    size (entity_map c') = size (entity_map (crate w)) /\
    (isinstance (ent_class e) RootDataset = false ->
     root_dataset c' = root_dataset (crate w)).
Proof.
  intros Hl Hk.
  assert (Hsize : size (<[canonical_id is_url (crate w) e := l]> (entity_map (crate w))) =
                  size (entity_map (crate w))).
  { apply map_size_insert_Some. rewrite Hk. eauto. }
  unfold add, add1, bind, get_entity, get_crate. rewrite Hl.
  destruct (isinstance (ent_class e) RootDataset) eqn:Er;
    [|destruct (isinstance (ent_class e) Metadata || isinstance (ent_class e) LegacyMetadata);
      [|destruct (isinstance (ent_class e) Preview);
        [|destruct (has_write (ent_class e))]]];
    cbn [put_crate ret crate heap]; rewrite ?Hk; cbn [ret];
    eexists; (split; [reflexivity|]); cbn [entity_map root_dataset];
    repeat split; auto; discriminate.
Qed.

Lemma add_replaces_on_collision_witness :
  exists c',
    add has_scheme [2%positive]
      (mkWorld {[ 1%positive := mkEntity File "a" [("@id", JStr "a")] None false false;
                  2%positive := mkEntity File "a/" [("@id", JStr "a/")] None false false ]}
         (mkCrate example_uuid
            {[ "arcp://uuid,123e4567-e89b-42d3-a456-426614174000/a" := 1%positive ]}
            None None None None)) =
    (Ok tt,
     mkWorld {[ 1%positive := mkEntity File "a" [("@id", JStr "a")] None false false;
                2%positive := mkEntity File "a/" [("@id", JStr "a/")] None false false ]} c') /\
    size (entity_map c') = 1.
Proof.
  edestruct (add_replaces_on_collision has_scheme
    (mkWorld {[ 1%positive := mkEntity File "a" [("@id", JStr "a")] None false false;
                2%positive := mkEntity File "a/" [("@id", JStr "a/")] None false false ]}
       (mkCrate example_uuid
          {[ "arcp://uuid,123e4567-e89b-42d3-a456-426614174000/a" := 1%positive ]}
          None None None None))
    2%positive 1%positive
    (mkEntity File "a/" [("@id", JStr "a/")] None false false))
    as (c' & Hrun & _ & Hsize & _).
  - reflexivity.
  - vm_compute. reflexivity.
  - exists c'. split; [exact Hrun|]. rewrite Hsize. reflexivity.
Defined.

(** ** Reading a property *)

Lemma deref_entry_item (is_url : string -> bool) (c : ROCrate) (entry : json) :
  deref_entry is_url c entry =
  if no_id entry then Raise ValueError else Ok (deref_item is_url c entry).
Proof. destruct entry as [| | | | |[i|] d]; reflexivity. Qed.

Lemma deref_values_map (is_url : string -> bool) (c : ROCrate) (values : list json) :
  existsb no_id values = false ->
  deref_values is_url c values = Ok (map (deref_item is_url c) values).
Proof.
  induction values as [|entry r IH]; [reflexivity|].
  cbn [existsb]. intros H. apply orb_false_elim in H as [H1 H2].
  cbn [deref_values map]. rewrite deref_entry_item, H1, (IH H2). reflexivity.
Qed.

Lemma deref_values_raise (is_url : string -> bool) (c : ROCrate) (values : list json) :
  existsb no_id values = true ->
  deref_values is_url c values = Raise ValueError.
Proof.
  induction values as [|entry r IH]; [discriminate|].
  cbn [existsb deref_values]. rewrite deref_entry_item.
  destruct (no_id entry); [reflexivity|]. cbn [orb]. intros H.
  now rewrite (IH H).
Qed.

(** C3 (as the code has it). Item-read returns the value of a reserved key
    verbatim.  For any other key a stored list yields a list of the same
    length and a stored scalar yields a scalar; in either, a reference whose
    id resolves to a registered entity becomes that entity object, a
    reference whose id does not resolve becomes the id string it holds (not
    the reference mapping), and an entry that is not a mapping is returned
    unchanged.  A mapping without "@id" makes the read fail. *)
Theorem getitem_dereferences (is_url : string -> bool) (c : ROCrate) (e : Entity)
    (key : string) (v : json) :
  Dict.get key (_jsonld e) = Some v ->
  (PyStr.startswith "@" key = true -> getitem is_url c e key = Ok (One (Val v))) /\
  (PyStr.startswith "@" key = false ->
   (forall values, v = JList values ->
      (existsb no_id values = false ->
       getitem is_url c e key = Ok (Many (map (deref_item is_url c) values)) /\
       length (map (deref_item is_url c) values) = length values) /\
      (existsb no_id values = true -> getitem is_url c e key = Raise ValueError)) /\
   (is_list v = false ->
      getitem is_url c e key =
      if no_id v then Raise ValueError else Ok (One (deref_item is_url c v)))) /\
  (forall id_ rest l,
     dereference is_url c id_ = Some l ->
     deref_item is_url c (JDict (Some id_) rest) = Obj l) /\
  (forall id_ rest,
     dereference is_url c id_ = None ->
     deref_item is_url c (JDict (Some id_) rest) = Val (JStr id_)) /\
  (forall entry, is_dict entry = false -> deref_item is_url c entry = Val entry).
Proof.
  intros Hget. unfold getitem. rewrite Hget.
  split; [|split; [|split; [|split]]].
  - intros ->. destruct v; reflexivity.
  - intros ->. split.
    + intros values ->. split.
      * intros H. rewrite (deref_values_map _ _ _ H). split; [reflexivity|].
        apply length_map.
      * intros H. now rewrite (deref_values_raise _ _ _ H).
    + intros Hl. destruct v as [| | | | |[i|] d]; try reflexivity. discriminate.
  - intros id_ rest l H. cbn [deref_item]. now rewrite H.
  - intros id_ rest H. cbn [deref_item]. now rewrite H.
  - intros entry H. destruct entry; try reflexivity. discriminate.
Qed.

(** C3, the claim as stated, fails: a dangling reference is not returned
    unchanged; the read yields the id string it holds. *)
Lemma getitem_dangling_reference_changed :
  Dict.get "author"
    (_jsonld (mkEntity ContextEntity "#p"
                [("@id", JStr "#p"); ("author", ref "#joe")] None false false)) =
    Some (ref "#joe") /\
  dereference has_scheme example_crate "#joe" = None /\
  getitem has_scheme example_crate
    (mkEntity ContextEntity "#p"
       [("@id", JStr "#p"); ("author", ref "#joe")] None false false) "author" =
    Ok (One (Val (JStr "#joe"))) /\
  One (Val (JStr "#joe")) <> One (Val (ref "#joe")).
Proof.
  repeat split; try (vm_compute; reflexivity). discriminate.
Qed.

Lemma getitem_dereferences_witness :
  getitem has_scheme
    (mkCrate example_uuid
       {[ "arcp://uuid,123e4567-e89b-42d3-a456-426614174000/#joe" := 7%positive ]}
       None None None None)
    (mkEntity ContextEntity "#p"
       [("@id", JStr "#p");
        ("author", JList [ref "#joe"; ref "#ann"; JStr "text"])] None false false)
    "author" =
  Ok (Many [Obj 7%positive; Val (JStr "#ann"); Val (JStr "text")]).
Proof.
  pose proof (getitem_dereferences has_scheme
    (mkCrate example_uuid
       {[ "arcp://uuid,123e4567-e89b-42d3-a456-426614174000/#joe" := 7%positive ]}
       None None None None)
    (mkEntity ContextEntity "#p"
       [("@id", JStr "#p");
        ("author", JList [ref "#joe"; ref "#ann"; JStr "text"])] None false false)
    "author" (JList [ref "#joe"; ref "#ann"; JStr "text"]) eq_refl)
    as (_ & H & _).
  destruct (H eq_refl) as (Hlist & _).
  destruct (Hlist _ eq_refl) as (Hok & _).
  destruct (Hok eq_refl) as (Hrun & _).
  rewrite Hrun. vm_compute. reflexivity.
Defined.

(** ** Writing a property *)

Lemma dict_set_set (k : string) (v1 v2 : json) (d : pydict) :
  Dict.set k v2 (Dict.set k v1 d) = Dict.set k v2 d.
Proof.
  induction d as [|[k' v'] d IH]; cbn [Dict.set].
  - now rewrite String.eqb_refl.
  - destruct (String.eqb k k') eqn:E; cbn [Dict.set].
    + now rewrite String.eqb_refl.
    + now rewrite E, IH.
Qed.

Lemma dict_get_set (k : string) (v : json) (d : pydict) :
  Dict.get k (Dict.set k v d) = Some v.
Proof.
  induction d as [|[k' v'] d IH]; cbn [Dict.set Dict.get].
  - now rewrite String.eqb_refl.
  - destruct (String.eqb k k') eqn:E; cbn [Dict.get].
    + now rewrite String.eqb_refl.
    + now rewrite E.
Qed.

Lemma dict_get_set_ne (k k' : string) (v : json) (d : pydict) :
  String.eqb k' k = false ->
  Dict.get k' (Dict.set k v d) = Dict.get k' d.
Proof.
  intros Hne. induction d as [|[k0 v0] d IH]; cbn [Dict.set Dict.get].
  - now rewrite Hne.
  - destruct (String.eqb k k0) eqn:E; cbn [Dict.get].
    + apply String.eqb_eq in E. subst k0. now rewrite Hne.
    + now rewrite IH.
Qed.

Lemma upd_lookup (h : gmap loc Entity) (l : loc) (d : pydict) (e : Entity) :
  h !! l = Some e -> upd h l d !! l = Some (with_jsonld e d).
Proof. intros H. unfold upd. now rewrite lookup_alter_eq, H. Qed.

Lemma upd_insert (h : gmap loc Entity) (l : loc) (d : pydict) (e : Entity) :
  h !! l = Some e -> upd h l d = <[l := with_jsonld e d]> h.
Proof.
  intros H. apply map_eq. intros i. unfold upd.
  destruct (decide (l = i)) as [<-|Hne].
  - now rewrite lookup_alter_eq, lookup_insert_eq, H.
  - now rewrite lookup_alter_ne, lookup_insert_ne.
Qed.

Lemma upd_upd (h : gmap loc Entity) (l : loc) (d1 d2 : pydict) :
  upd (upd h l d1) l d2 = upd h l d2.
Proof.
  apply map_eq. intros i. unfold upd.
  destruct (decide (l = i)) as [<-|Hne].
  - rewrite !lookup_alter_eq. now destruct (h !! l).
  - now rewrite !lookup_alter_ne.
Qed.

Lemma ref_of_upd (h : gmap loc Entity) (l : loc) (d : pydict) (x : pyitem) :
  ref_of (upd h l d) x = ref_of h x.
Proof.
  destruct x as [l'|v]; [|reflexivity]. cbn [ref_of]. unfold upd.
  destruct (decide (l = l')) as [<-|Hne].
  - rewrite lookup_alter_eq. now destruct (h !! l).
  - now rewrite lookup_alter_ne.
Qed.

Lemma live_upd (h : gmap loc Entity) (l : loc) (d : pydict) (x : pyitem) :
  live h x -> live (upd h l d) x.
Proof.
  destruct x as [l'|v]; [|trivial]. cbn [live]. unfold upd.
  destruct (decide (l = l')) as [<-|Hne].
  - rewrite lookup_alter_eq. intros [e ->]. eauto.
  - now rewrite lookup_alter_ne.
Qed.

Lemma to_ref_state (x : pyitem) (w w' : world) (o : outcome json) :
  to_ref x w = (o, w') -> w' = w.
Proof.
  destruct x as [l|v]; cbn [to_ref]; unfold bind, get_entity, ret.
  - destruct (heap w !! l); now intros [= _ <-].
  - now intros [= _ <-].
Qed.

Lemma mapM_to_ref_state (l : list pyitem) (w w' : world) (o : outcome (list json)) :
  mapM to_ref l w = (o, w') -> w' = w.
Proof.
  revert o w'. induction l as [|x r IH]; cbn [mapM]; intros o w'.
  - now intros [= _ <-].
  - unfold bind at 1. destruct (to_ref x w) as [[y|ex] w1] eqn:E1;
      apply to_ref_state in E1; subst w1; [|now intros [= _ <-]].
    unfold bind at 1. destruct (mapM to_ref r w) as [[ys|ex] w2] eqn:E2;
      pose proof (IH _ _ eq_refl) as ->; now intros [= _ <-].
Qed.

Lemma mapM_to_ref_live (l : list pyitem) (w : world) :
  Forall (live (heap w)) l ->
  mapM to_ref l w = (Ok (map (ref_of (heap w)) l), w).
Proof.
  induction 1 as [|x r Hx Hr IH]; [reflexivity|].
  cbn [mapM map]. unfold bind at 1.
  assert (E : to_ref x w = (Ok (ref_of (heap w) x), w)).
  { destruct x as [l'|v]; [|reflexivity]. cbn [to_ref ref_of live] in *.
    unfold bind, get_entity. destruct Hx as [e ->]. reflexivity. }
  rewrite E. unfold bind at 1. now rewrite IH.
Qed.

(** What [__setitem__] stores for [value]: the normal forms as a list when
    the value is a list, the one normal form otherwise. *)
Lemma setitem_ok (w : world) (self : loc) (e : Entity) (key : string) (value : pyval) :
  PyStr.startswith "@" key = false ->
  existsb lacks_id (as_values value) = false ->
  heap w !! self = Some e ->
  Forall (live (heap w)) (as_values value) ->
  setitem self key value w =
  (Ok tt,
   mkWorld (<[self := with_jsonld e
                (Dict.set key
                   (if isinstance_list value
                    then JList (map (ref_of (heap w)) (as_values value))
                    else first_or_none (map (ref_of (heap w)) (as_values value)))
                   (_jsonld e))]> (heap w))
     (crate w)).
Proof.
  intros Hk Hv He Hl. unfold setitem. rewrite Hk, Hv.
  unfold bind at 1. rewrite (mapM_to_ref_live _ _ Hl).
  unfold bind, get_entity. rewrite He. unfold put_jsonld.
  fold (upd (heap w) self
          (Dict.set key
             (if isinstance_list value
              then JList (map (ref_of (heap w)) (as_values value))
              else first_or_none (map (ref_of (heap w)) (as_values value)))
             (_jsonld e))).
  now rewrite (upd_insert _ _ _ _ He).
Qed.

Lemma setitem_raise_state (w w' : world) (self : loc) (key : string) (value : pyval)
    (x : exn) :
  setitem self key value w = (Raise x, w') -> w' = w.
Proof.
  unfold setitem.
  destruct (PyStr.startswith "@" key); [now intros [= _ <-]|].
  destruct (existsb lacks_id (as_values value)); [now intros [= _ <-]|].
  unfold bind at 1.
  destruct (mapM to_ref (as_values value) w) as [[rs|ex] w1] eqn:E;
    apply mapM_to_ref_state in E; subst w1; [|now intros [= _ <-]].
  unfold bind, get_entity. destruct (heap w !! self); [discriminate|].
  now intros [= _ <-].
Qed.

(** C6. Property write fails with [KeyError] for a reserved key; for any
    other key it fails with [ValueError] when the value, or an element of a
    list value, is a plain mapping without "@id"; otherwise it stores the
    value under the key with every entity object replaced by the reference
    to its id, a list staying a list and a scalar a scalar.  A failing write
    leaves the whole state, hence the property store, as it was. *)
Theorem setitem_checks_and_stores (w : world) (self : loc) (key : string) (value : pyval) :
  (PyStr.startswith "@" key = true ->
   setitem self key value w = (Raise KeyError, w)) /\
  (PyStr.startswith "@" key = false ->
   existsb lacks_id (as_values value) = true ->
   setitem self key value w = (Raise ValueError, w)) /\
  (forall e,
     PyStr.startswith "@" key = false ->
     existsb lacks_id (as_values value) = false ->
     heap w !! self = Some e ->
     Forall (live (heap w)) (as_values value) ->
     exists stored,
       setitem self key value w =
       (Ok tt, mkWorld (<[self := with_jsonld e (Dict.set key stored (_jsonld e))]> (heap w))
                 (crate w)) /\
       Dict.get key (Dict.set key stored (_jsonld e)) = Some stored /\
       stored = (if isinstance_list value
                 then JList (map (ref_of (heap w)) (as_values value))
                 else first_or_none (map (ref_of (heap w)) (as_values value)))) /\
  (forall l e', heap w !! l = Some e' -> ref_of (heap w) (Obj l) = ref (ent_id e')) /\
  (forall v, ref_of (heap w) (Val v) = v) /\
  (forall x w', setitem self key value w = (Raise x, w') -> w' = w).
Proof.
  split; [|split; [|split; [|split; [|split]]]].
  - intros Hk. unfold setitem. now rewrite Hk.
  - intros Hk Hv. unfold setitem. now rewrite Hk, Hv.
  - intros e Hk Hv He Hl. eexists. split; [apply (setitem_ok w self e); assumption|].
    split; [apply dict_get_set | reflexivity].
  - intros l e' H. cbn [ref_of]. now rewrite H.
  - reflexivity.
  - intros x w'. apply setitem_raise_state.
Qed.

Lemma setitem_checks_and_stores_witness :
  setitem 1%positive "author" (Many [Obj 2%positive; Val (JStr "text")])
    (mkWorld {[ 1%positive := mkEntity File "a.txt" [("@id", JStr "a.txt")] None false false;
                2%positive := mkEntity ContextEntity "#joe" [("@id", JStr "#joe")] None false false ]}
       example_crate) =
  (Ok tt,
   mkWorld (<[ 1%positive :=
                 mkEntity File "a.txt"
                   [("@id", JStr "a.txt"); ("author", JList [ref "#joe"; JStr "text"])]
                   None false false ]>
              {[ 1%positive := mkEntity File "a.txt" [("@id", JStr "a.txt")] None false false;
                 2%positive := mkEntity ContextEntity "#joe" [("@id", JStr "#joe")] None false false ]})
     example_crate) /\
  setitem 1%positive "@type" (One (Val (JStr "x")))
    (mkWorld {[ 1%positive := mkEntity File "a.txt" [("@id", JStr "a.txt")] None false false ]}
       example_crate) =
  (Raise KeyError,
   mkWorld {[ 1%positive := mkEntity File "a.txt" [("@id", JStr "a.txt")] None false false ]}
     example_crate) /\
  setitem 1%positive "author" (One (Val (JDict None [("name", JStr "Joe")])))
    (mkWorld {[ 1%positive := mkEntity File "a.txt" [("@id", JStr "a.txt")] None false false ]}
       example_crate) =
  (Raise ValueError,
   mkWorld {[ 1%positive := mkEntity File "a.txt" [("@id", JStr "a.txt")] None false false ]}
     example_crate).
Proof.
  split; [|split].
  - destruct (setitem_checks_and_stores
      (mkWorld {[ 1%positive := mkEntity File "a.txt" [("@id", JStr "a.txt")] None false false;
                  2%positive := mkEntity ContextEntity "#joe" [("@id", JStr "#joe")] None false false ]}
         example_crate)
      1%positive "author" (Many [Obj 2%positive; Val (JStr "text")]))
      as (_ & _ & H & _).
    destruct (H (mkEntity File "a.txt" [("@id", JStr "a.txt")] None false false)
                eq_refl eq_refl eq_refl) as (stored & Hrun & _ & ->).
    + repeat constructor. exists (mkEntity ContextEntity "#joe" [("@id", JStr "#joe")] None false false).
      reflexivity.
    + exact Hrun.
  - apply setitem_checks_and_stores. reflexivity.
  - apply setitem_checks_and_stores; reflexivity.
Defined.

Lemma get_entity_run (w : world) (l : loc) (e : Entity) :
  heap w !! l = Some e -> get_entity l w = (Ok e, w).
Proof. intros H. unfold get_entity. now rewrite H. Qed.

Lemma bind_ok {A B} (m : M A) (f : A -> M B) (w w' : world) (a : A) :
  m w = (Ok a, w') -> bind m f w = f a w'.
Proof. intros H. unfold bind. now rewrite H. Qed.

Lemma bind_raise {A B} (m : M A) (f : A -> M B) (w w' : world) (x : exn) :
  m w = (Raise x, w') -> bind m f w = (Raise x, w').
Proof. intros H. unfold bind. now rewrite H. Qed.

Lemma run_ret {A B} (a : A) (f : A -> M B) (w : world) :
  bind (ret a) f w = f a w.
Proof. reflexivity. Qed.

Lemma run_assoc {A B C} (m : M A) (f : A -> M B) (g : B -> M C) (w : world) :
  bind (bind m f) g w = bind m (fun x => bind (f x) g) w.
Proof. unfold bind. destruct (m w) as [[a|x] w']; reflexivity. Qed.

Lemma run_get {B} (h : gmap loc Entity) (c : ROCrate) (l : loc) (e : Entity)
    (f : Entity -> M B) :
  h !! l = Some e ->
  bind (get_entity l) f (mkWorld h c) = f e (mkWorld h c).
Proof. intros H. apply bind_ok. now apply get_entity_run. Qed.

Lemma run_put {B} (h : gmap loc Entity) (c : ROCrate) (l : loc) (d : pydict)
    (f : unit -> M B) :
  bind (put_jsonld l d) f (mkWorld h c) = f tt (mkWorld (upd h l d) c).
Proof. reflexivity. Qed.

Lemma run_refs {B} (h : gmap loc Entity) (c : ROCrate) (l : list pyitem)
    (f : list json -> M B) :
  Forall (live h) l ->
  bind (mapM to_ref l) f (mkWorld h c) = f (map (ref_of h) l) (mkWorld h c).
Proof. intros H. apply bind_ok. now apply (mapM_to_ref_live l (mkWorld h c)). Qed.

Lemma forall_live_upd (h : gmap loc Entity) (l : loc) (d : pydict) (xs : list pyitem) :
  Forall (live h) xs -> Forall (live (upd h l d)) xs.
Proof. intros H. eapply Forall_impl; [exact H|]. intros x. apply live_upd. Qed.

Lemma map_ref_of_upd (h : gmap loc Entity) (l : loc) (d : pydict) (xs : list pyitem) :
  map (ref_of (upd h l d)) xs = map (ref_of h) xs.
Proof. apply map_ext. intros x. apply ref_of_upd. Qed.

Lemma upd_same (h : gmap loc Entity) (l : loc) (e : Entity) :
  h !! l = Some e -> upd h l (_jsonld e) = h.
Proof.
  intros H. rewrite (upd_insert _ _ _ _ H). apply insert_id.
  rewrite H. now destruct e.
Qed.

(** The state after [append_to], written with the intermediate assignments
    collapsed into the last one. *)
Lemma append_to_run (h : gmap loc Entity) (c : ROCrate) (self : loc) (e : Entity)
    (key : string) (value : pyval) (compact : bool) :
  PyStr.startswith "@" key = false ->
  h !! self = Some e ->
  Forall (live h) (as_values value) ->
  append_to self key value compact (mkWorld h c) =
  (Ok tt,
   mkWorld
     (upd h self
        (Dict.set key
           (match (as_sequence (Dict.get key (_jsonld e)) ++
                   map (ref_of h) (as_values value))%list with
            | [x] => if compact then x else JList [x]
            | r => JList r
            end)
           (_jsonld e)))
     c).
Proof.
  intros Hk He Hl. unfold append_to. rewrite Hk.
  rewrite (run_get _ _ _ _ _ He).
  assert (Hfin : forall d0 (cur : list json),
    h !! self = Some e ->
    (forall v, Dict.set key v d0 = Dict.set key v (_jsonld e)) ->
    (let* refs := mapM to_ref (as_values value) in
     let current_value := (cur ++ refs)%list in
     let* e0 := get_entity self in
     let* _ := put_jsonld self (Dict.set key (JList current_value) (_jsonld e0)) in
     match current_value with
     | [x] => if compact then
                let* e1 := get_entity self in
                put_jsonld self (Dict.set key x (_jsonld e1))
              else ret tt
     | _ => ret tt
     end) (mkWorld (upd h self d0) c) =
    (Ok tt,
     mkWorld
       (upd h self
          (Dict.set key
             (match (cur ++ map (ref_of h) (as_values value))%list with
              | [x] => if compact then x else JList [x]
              | r => JList r
              end)
             (_jsonld e)))
       c)).
  { intros d0 cur He' Hd0.
    rewrite (run_refs _ _ _ _ (forall_live_upd _ _ _ _ Hl)), map_ref_of_upd.
    cbv zeta.
    rewrite (run_get _ _ _ _ _ (upd_lookup _ _ d0 _ He')). cbn [_jsonld with_jsonld].
    rewrite run_put, upd_upd, Hd0.
    destruct (cur ++ map (ref_of h) (as_values value))%list as [|x [|y r]] eqn:E;
      try reflexivity.
    destruct compact; [|reflexivity].
    rewrite (run_get _ _ _ _ _ (upd_lookup _ _ _ _ He')). cbn [_jsonld with_jsonld].
    unfold put_jsonld. cbn [heap crate].
    fold (upd (upd h self (Dict.set key (JList [x]) (_jsonld e))) self
            (Dict.set key x (Dict.set key (JList [x]) (_jsonld e)))).
    now rewrite upd_upd, dict_set_set. }
  destruct (Dict.get key (_jsonld e)) as [v|] eqn:Eg.
  - cbv beta iota. rewrite run_ret, (run_get _ _ _ _ _ He).
    destruct v as [| b | n | s | l | i d]; cbv beta iota;
      try (rewrite run_assoc, run_put, run_ret;
           apply (Hfin _ [_] He); intros v'; apply dict_set_set).
    rewrite run_ret. rewrite <- (upd_same h self e He) at 1.
    apply (Hfin _ l He). reflexivity.
  - cbv beta iota. rewrite run_assoc, run_put, run_ret.
    rewrite (run_get _ _ _ _ _ (upd_lookup _ _ _ _ He)), run_ret.
    apply (Hfin _ [] He). intros v'. apply dict_set_set.
Qed.

(** C7. [append_to] fails with [KeyError] on a reserved key.  Otherwise the
    current value of the key is read as a sequence (the stored list, a
    stored scalar as a list of one, nothing when the key is missing), the
    normal forms of the given value or values (entity objects as references
    to their ids) are added at its end in their order, and the key then
    holds that sequence, or its only element when [compact] is set and the
    sequence has exactly one. *)
Theorem append_to_extends_sequence (w : world) (self : loc) (e : Entity)
    (key : string) (value : pyval) (compact : bool) :
  (PyStr.startswith "@" key = true ->
   append_to self key value compact w = (Raise KeyError, w)) /\
  (PyStr.startswith "@" key = false ->
   heap w !! self = Some e ->
   Forall (live (heap w)) (as_values value) ->
   exists result stored,
     result = (as_sequence (Dict.get key (_jsonld e)) ++
               map (ref_of (heap w)) (as_values value))%list /\
     stored = (if compact && Nat.eqb (length result) 1
               then first_or_none result else JList result) /\
     append_to self key value compact w =
     (Ok tt,
      mkWorld (<[self := with_jsonld e (Dict.set key stored (_jsonld e))]> (heap w))
        (crate w)) /\
     Dict.get key (Dict.set key stored (_jsonld e)) = Some stored) /\
  as_sequence None = [] /\
  (forall l, as_sequence (Some (JList l)) = l) /\
  (forall v, is_list v = false -> as_sequence (Some v) = [v]).
Proof.
  split; [|split; [|split; [|split]]].
  - intros Hk. unfold append_to. now rewrite Hk.
  - intros Hk He Hl. eexists _, _. split; [reflexivity|]. split; [reflexivity|].
    split; [|apply dict_get_set].
    destruct w as [h c]. cbn [heap crate] in *.
    rewrite (append_to_run h c self e key value compact Hk He Hl).
    rewrite (upd_insert _ _ _ _ He). do 4 f_equal.
    destruct (as_sequence (Dict.get key (_jsonld e)) ++
              map (ref_of h) (as_values value))%list as [|x [|y r]];
      destruct compact; reflexivity.
  - reflexivity.
  - reflexivity.
  - intros v Hv. destruct v; try reflexivity. discriminate.
Qed.

Lemma append_to_extends_sequence_witness :
  append_to 1%positive "hasPart" (One (Obj 2%positive)) false
    (mkWorld {[ 1%positive := mkEntity RootDataset "./"
                                [("@id", JStr "./"); ("hasPart", ref "a.txt")] None false false;
                2%positive := mkEntity File "b.txt" [("@id", JStr "b.txt")] None false false ]}
       example_crate) =
  (Ok tt,
   mkWorld (<[ 1%positive :=
                 mkEntity RootDataset "./"
                   [("@id", JStr "./"); ("hasPart", JList [ref "a.txt"; ref "b.txt"])]
                   None false false ]>
              {[ 1%positive := mkEntity RootDataset "./"
                                 [("@id", JStr "./"); ("hasPart", ref "a.txt")] None false false;
                 2%positive := mkEntity File "b.txt" [("@id", JStr "b.txt")] None false false ]})
     example_crate).
Proof.
  destruct (append_to_extends_sequence
    (mkWorld {[ 1%positive := mkEntity RootDataset "./"
                                [("@id", JStr "./"); ("hasPart", ref "a.txt")] None false false;
                2%positive := mkEntity File "b.txt" [("@id", JStr "b.txt")] None false false ]}
       example_crate)
    1%positive
    (mkEntity RootDataset "./" [("@id", JStr "./"); ("hasPart", ref "a.txt")] None false false)
    "hasPart" (One (Obj 2%positive)) false) as (_ & H & _).
  destruct H as (result & stored & -> & -> & Hrun & _).
  - reflexivity.
  - reflexivity.
  - repeat constructor.
    exists (mkEntity File "b.txt" [("@id", JStr "b.txt")] None false false). reflexivity.
  - exact Hrun.
Defined.

(** For contrast with a colliding id: a data entity under a new key is
    appended to the root dataset's hasPart and the map grows by one. *)
Lemma add_new_data_entity (is_url : string -> bool) (w : world) (l r : loc)
    (e root : Entity) :
  heap w !! l = Some e ->
  isinstance (ent_class e) RootDataset = false ->
  isinstance (ent_class e) Metadata || isinstance (ent_class e) LegacyMetadata = false ->
  isinstance (ent_class e) Preview = false ->
  has_write (ent_class e) = true ->
  entity_map (crate w) !! canonical_id is_url (crate w) e = None ->
  root_dataset (crate w) = Some r ->
  heap w !! r = Some root ->
  exists c',
    add is_url [l] w =
    (Ok tt,
     mkWorld
       (upd (heap w) r
          (Dict.set "hasPart"
             (JList (as_sequence (Dict.get "hasPart" (_jsonld root)) ++ [ref (ent_id e)]))
             (_jsonld root)))
       c') /\
    size (entity_map c') = S (size (entity_map (crate w))).
Proof.
  intros He Hr Hm Hp Hw Hk Hroot Hre. destruct w as [h c]. cbn [heap crate] in *.
  cbn [add]. unfold bind at 1.
  enough (H : exists c',
            add1 is_url l (mkWorld h c) =
            (Ok tt,
             mkWorld
               (upd h r
                  (Dict.set "hasPart"
                     (JList (as_sequence (Dict.get "hasPart" (_jsonld root)) ++
                             [ref (ent_id e)]))
                     (_jsonld root)))
               c') /\
            size (entity_map c') = S (size (entity_map c))).
  { destruct H as (c' & -> & Hs). now exists c'. }
  unfold add1. rewrite (run_get _ _ _ _ _ He).
  unfold bind at 1, get_crate. cbn [crate].
  rewrite Hr, Hm, Hp, Hw, Hk, Hroot.
  unfold bind at 1.
  rewrite (append_to_run h c r root "hasPart" (One (Obj l)) false eq_refl Hre).
  - cbn [as_values map ref_of]. rewrite He.
    eexists. split.
    + unfold bind, get_crate, put_crate, ret. cbn [heap crate].
      destruct (as_sequence (Dict.get "hasPart" (_jsonld root)) ++ [ref (ent_id e)])%list
        as [|x [|y t]] eqn:E; reflexivity.
    + cbn [entity_map]. now apply map_size_insert_None.
  - repeat constructor. cbn [live]. rewrite He. eauto.
Qed.

(** ** Invariants of the reachable states *)

Lemma frame_refl (w : world) : heap_ok w -> frame w w.
Proof. intros H. split; auto. Qed.

Lemma frame_same_heap (w w' : world) : heap w' = heap w -> heap_ok w -> frame w w'.
Proof.
  intros Hh Hok. split.
  - intros l. now rewrite Hh.
  - intros l e. rewrite Hh. apply Hok.
Qed.

Lemma frame_trans (w1 w2 w3 : world) : frame w1 w2 -> frame w2 w3 -> frame w1 w3.
Proof. intros [H1 _] [H2 H3]. split; auto. Qed.

Lemma dict_mem_set (k k' : string) (v : json) (d : pydict) :
  Dict.mem k' d = true -> Dict.mem k' (Dict.set k v d) = true.
Proof.
  unfold Dict.mem. destruct (String.eqb k' k) eqn:E.
  - apply String.eqb_eq in E. subst k'. now rewrite dict_get_set.
  - now rewrite (dict_get_set_ne _ _ _ _ E).
Qed.

Lemma dict_get_remove_ne (k k' : string) (d : pydict) :
  String.eqb k' k = false ->
  Dict.get k' (Dict.remove k d) = Dict.get k' d.
Proof.
  intros Hne. induction d as [|[k0 v0] d IH]; cbn [Dict.remove Dict.get]; [reflexivity|].
  destruct (String.eqb k k0) eqn:E; cbn [Dict.get].
  - apply String.eqb_eq in E. subst k0. now rewrite Hne.
  - now rewrite IH.
Qed.

Lemma startswith_at_id (key : string) :
  PyStr.startswith "@" key = false -> String.eqb "@id" key = false.
Proof.
  intros H. apply String.eqb_neq. intros <-. discriminate.
Qed.

Create HintDb framed.

Lemma framed_ret {A} (a : A) : framed (ret a).
Proof. intros w o w' Hok [= _ <-]. auto using frame_refl. Qed.

Lemma framed_raise {A} (x : exn) : framed (@raise A x).
Proof. intros w o w' Hok [= _ <-]. auto using frame_refl. Qed.

Lemma framed_lift {A} (r : outcome A) : framed (lift r).
Proof. intros w o w' Hok [= _ <-]. auto using frame_refl. Qed.

Lemma framed_bind {A B} (m : M A) (f : A -> M B) :
  framed m -> (forall a, framed (f a)) -> framed (bind m f).
Proof.
  intros Hm Hf w o w' Hok. unfold bind.
  destruct (m w) as [[a|x] w1] eqn:E; destruct (Hm _ _ _ Hok E) as (Hc & Hfr).
  - intros E2. destruct (Hf a _ _ _ (proj2 Hfr) E2) as (Hc2 & Hfr2).
    split; [congruence | eauto using frame_trans].
  - intros [= _ <-]. auto.
Qed.

(** Reading an object yields a property store with an ["@id"] entry. *)
Lemma framed_get {B} (l : loc) (f : Entity -> M B) :
  (forall e, Dict.mem "@id" (_jsonld e) = true -> framed (f e)) ->
  framed (bind (get_entity l) f).
Proof.
  intros Hf w o w' Hok. unfold bind, get_entity.
  destruct (heap w !! l) as [e|] eqn:E.
  - apply (Hf e (Hok _ _ E)); assumption.
  - intros [= _ <-]. auto using frame_refl.
Qed.

Lemma framed_get_crate {B} (f : ROCrate -> M B) :
  (forall c, framed (f c)) -> framed (bind get_crate f).
Proof. intros Hf w o w' Hok. unfold bind, get_crate. now apply Hf. Qed.

Lemma framed_put (l : loc) (d : pydict) :
  Dict.mem "@id" d = true -> framed (put_jsonld l d).
Proof.
  intros Hd w o w' Hok [= _ <-]. split; [reflexivity|]. split.
  - intros l' [e He]. cbn [heap]. destruct (decide (l = l')) as [<-|Hne].
    + rewrite lookup_alter_eq, He. eauto.
    + rewrite lookup_alter_ne by assumption. eauto.
  - intros l' e'. cbn [heap]. destruct (decide (l = l')) as [<-|Hne].
    + rewrite lookup_alter_eq. destruct (heap w !! l); [|discriminate].
      now intros [= <-].
    + rewrite lookup_alter_ne by assumption. apply Hok.
Qed.

Lemma framed_alloc (e : Entity) :
  Dict.mem "@id" (_jsonld e) = true -> framed (alloc e).
Proof.
  intros He w o w' Hok [= _ <-]. split; [reflexivity|]. split.
  - intros l' [e' He']. cbn [heap].
    destruct (decide (fresh (dom (heap w)) = l')) as [<-|Hne].
    + rewrite lookup_insert_eq. eauto.
    + rewrite lookup_insert_ne by assumption. eauto.
  - intros l' e'. cbn [heap].
    destruct (decide (fresh (dom (heap w)) = l')) as [<-|Hne].
    + rewrite lookup_insert_eq. now intros [= <-].
    + rewrite lookup_insert_ne by assumption. apply Hok.
Qed.

Lemma framed_mapM {A B} (f : A -> M B) (l : list A) :
  (forall x, framed (f x)) -> framed (mapM f l).
Proof.
  intros Hf. induction l as [|x r IH]; cbn [mapM].
  - apply framed_ret.
  - apply framed_bind; [apply Hf|]. intros y.
    apply framed_bind; [apply IH|]. intros ys. apply framed_ret.
Qed.

Lemma framed_filterM {A} (f : A -> M bool) (l : list A) :
  (forall x, framed (f x)) -> framed (filterM f l).
Proof.
  intros Hf. induction l as [|x r IH]; cbn [filterM].
  - apply framed_ret.
  - apply framed_bind; [apply Hf|]. intros y.
    apply framed_bind; [apply IH|]. intros ys. apply framed_ret.
Qed.

#[local] Hint Resolve framed_ret framed_raise framed_lift framed_bind framed_get
  framed_get_crate framed_put framed_alloc framed_mapM framed_filterM
  dict_mem_set : framed.

Lemma framed_to_ref (x : pyitem) : framed (to_ref x).
Proof. destruct x; cbn [to_ref]; eauto with framed. Qed.

Lemma framed_differs (e : Entity) (x : pyitem) : framed (differs e x).
Proof. destruct x; cbn [differs]; eauto with framed. Qed.

Lemma framed_py_iter (v : pyval) : framed (py_iter v).
Proof.
  destruct v as [[l|[| | | | |]]|l]; cbn [py_iter]; eauto with framed.
Qed.

Lemma framed_truthy (v : pyval) : framed (truthy v).
Proof.
  destruct v as [[l|[| | | | |[i|] [|]]]|l]; cbn [truthy]; eauto with framed.
Qed.

#[local] Hint Resolve framed_to_ref framed_differs framed_py_iter framed_truthy : framed.

Lemma framed_setitem (self : loc) (key : string) (value : pyval) :
  framed (setitem self key value).
Proof.
  unfold setitem.
  destruct (PyStr.startswith "@" key); [eauto with framed|].
  destruct (existsb lacks_id (as_values value)); eauto 8 with framed.
Qed.

Lemma framed_delitem (self : loc) (key : string) : framed (delitem self key).
Proof.
  unfold delitem. destruct (PyStr.startswith "@" key) eqn:Hk; [eauto with framed|].
  apply framed_get. intros e He.
  destruct (Dict.mem key (_jsonld e)); [|eauto with framed].
  apply framed_put. unfold Dict.mem in *.
  now rewrite (dict_get_remove_ne _ _ _ (startswith_at_id _ Hk)).
Qed.

Lemma framed_append_to (self : loc) (key : string) (value : pyval) (compact : bool) :
  framed (append_to self key value compact).
Proof.
  unfold append_to. destruct (PyStr.startswith "@" key); [eauto with framed|].
  apply framed_get. intros e He.
  apply framed_bind.
  { destruct (Dict.get key (_jsonld e)); eauto 6 with framed. }
  intros cv. apply framed_get. intros e1 He1.
  apply framed_bind.
  { destruct cv; eauto 6 with framed. }
  intros cur. apply framed_bind; [eauto with framed|]. intros refs.
  cbv zeta. apply framed_get. intros e2 He2.
  apply framed_bind; [eauto with framed|]. intros _.
  destruct (cur ++ refs)%list as [|x [|y r]]; [eauto with framed| |eauto with framed].
  destruct compact; eauto with framed.
Qed.

#[local] Hint Resolve framed_setitem framed_delitem framed_append_to : framed.

Lemma framed_init_properties (self : loc) (properties : pydict) :
  framed (init_properties self properties).
Proof.
  induction properties as [|[name value] r IH]; cbn [init_properties].
  - apply framed_ret.
  - apply framed_bind; [|intros _; exact IH].
    destruct (PyStr.startswith "@" name); eauto with framed.
Qed.

Lemma empty_has_id (iso_now : string) (default_type : EntityClass -> json)
    (k : EntityClass) (id_ : string) :
  Dict.mem "@id" (_empty iso_now default_type k id_) = true.
Proof. destruct k; reflexivity. Qed.

Lemma framed_new_entity (iso_now : string) (default_type : EntityClass -> json)
    (k : EntityClass) (identifier : option string) (fresh_uuid : string)
    (properties : pydict) (src : option string) (fetch validate : bool) :
  framed (new_entity iso_now default_type k identifier fresh_uuid properties
            src fetch validate).
Proof.
  unfold new_entity. apply framed_bind.
  - apply framed_alloc. apply empty_has_id.
  - intros self. apply framed_bind; [apply framed_init_properties|].
    intros _. apply framed_ret.
Qed.

Lemma framed_remove_part (is_url : string -> bool) (c : ROCrate) (r : loc) (e : Entity) :
  framed (remove_part is_url c r e).
Proof.
  unfold remove_part.
  apply framed_get. intros root Hroot.
  apply framed_bind; [eauto with framed|]. intros parts.
  apply framed_bind; [eauto with framed|]. intros items.
  apply framed_bind; [eauto with framed|]. intros kept.
  apply framed_bind; [eauto with framed|]. intros _.
  apply framed_get. intros root1 Hroot1.
  apply framed_bind; [eauto with framed|]. intros parts1.
  apply framed_bind; [eauto with framed|]. intros [|]; [eauto with framed|].
  apply framed_get. intros root2 Hroot2.
  destruct (Dict.mem "hasPart" (_jsonld root2)); [|eauto with framed].
  apply framed_put. unfold Dict.mem in *.
  now rewrite (dict_get_remove_ne "hasPart" "@id" _ eq_refl).
Qed.

Lemma delete1_slots (is_url : string -> bool) (a : entity_arg) (w w' : world)
    (o : outcome unit) :
  heap_ok w ->
  delete1 is_url a w = (o, w') ->
  same_slots w w' /\ frame w w'.
Proof.
  intros Hok. unfold delete1. unfold bind at 1, get_crate.
  destruct (match a with ByObj l => Some l | ById s => dereference is_url (crate w) s end)
    as [l|]; [|intros [= _ <-]; split; [split; reflexivity | now apply frame_refl]].
  unfold bind at 1, get_entity.
  destruct (heap w !! l) as [e|] eqn:He;
    [|intros [= _ <-]; split; [split; reflexivity | now apply frame_refl]].
  destruct (Nat.eqb (length (_jsonld e)) 0);
    [intros [= _ <-]; split; [split; reflexivity | now apply frame_refl]|].
  unfold bind at 1.
  destruct (root_dataset (crate w)) as [r|] eqn:Er; cbn [attr ret raise];
    [|intros [= _ <-]; split; [split; reflexivity | now apply frame_refl]].
  destruct (bool_decide (l = r));
    [intros [= _ <-]; split; [split; reflexivity | now apply frame_refl]|].
  unfold bind at 1.
  destruct (metadata (crate w)) as [m|] eqn:Em; cbn [attr ret raise];
    [|intros [= _ <-]; split; [split; reflexivity | now apply frame_refl]].
  destruct (bool_decide (l = m));
    [intros [= _ <-]; split; [split; reflexivity | now apply frame_refl]|].
  unfold bind at 1.
  destruct (bool_decide (preview (crate w) = Some l)).
  - cbn [put_crate heap crate]. unfold bind, get_crate, put_crate. cbn [heap crate].
    intros [= _ <-]. split; [split; cbn; congruence | now apply frame_same_heap].
  - assert (Hbranch : framed (if has_write (ent_class e)
                              then remove_part is_url (crate w) r e else ret tt)).
    { destruct (has_write (ent_class e)); auto using framed_remove_part, framed_ret. }
    destruct ((if has_write (ent_class e)
               then remove_part is_url (crate w) r e else ret tt) w)
      as [[[]|x] w1] eqn:E1; destruct (Hbranch _ _ _ Hok E1) as (Hc & Hfr).
    + unfold bind, get_crate, put_crate. cbn [heap crate].
      intros [= _ <-]. split; [split; cbn; congruence|].
      eapply frame_trans; [exact Hfr|]. apply frame_same_heap; [reflexivity|].
      exact (proj2 Hfr).
    + intros [= _ <-]. split; [split; congruence | exact Hfr].
Qed.

Lemma delete_entities_slots (is_url : string -> bool) (entities : list entity_arg)
    (w w' : world) (o : outcome unit) :
  heap_ok w ->
  delete_entities is_url entities w = (o, w') ->
  same_slots w w' /\ frame w w'.
Proof.
  revert w. induction entities as [|a r IH]; intros w Hok; cbn [delete_entities].
  - intros [= _ <-]. split; [split; reflexivity | now apply frame_refl].
  - unfold bind. destruct (delete1 is_url a w) as [[[]|x] w1] eqn:E1;
      destruct (delete1_slots _ _ _ _ _ Hok E1) as ([Hr Hm] & Hfr).
    + intros E2. destruct (IH _ (proj2 Hfr) E2) as ([Hr2 Hm2] & Hfr2).
      split; [split; congruence | eauto using frame_trans].
    + intros [= _ <-]. split; [split; assumption | exact Hfr].
Qed.

Lemma framed_keeps_slots {A} (m : M A) : framed m -> keeps_slots m.
Proof.
  intros Hm w o w' Hok [Hr Hmd] E. destruct (Hm _ _ _ Hok E) as (Hc & Hfr).
  split; [exact Hfr|]. destruct Hfr as [Hl _]. unfold slots_ok. rewrite Hc.
  split; [split; intros x Hx; apply Hl; auto|]. split; auto.
Qed.

Lemma keeps_slots_same {A} (m : M A) :
  (forall w o w', heap_ok w -> m w = (o, w') -> same_slots w w' /\ frame w w') ->
  keeps_slots m.
Proof.
  intros Hm w o w' Hok [Hr Hmd] E. destruct (Hm _ _ _ Hok E) as ([Hc1 Hc2] & Hfr).
  split; [exact Hfr|]. destruct Hfr as [Hl _]. split; [split|split].
  - intros x Hx. apply Hl, Hr. congruence.
  - intros x Hx. apply Hl, Hmd. congruence.
  - now rewrite Hc1.
  - now rewrite Hc2.
Qed.

Lemma keeps_slots_bind {A B} (m : M A) (f : A -> M B) :
  keeps_slots m -> (forall a, keeps_slots (f a)) -> keeps_slots (bind m f).
Proof.
  intros Hm Hf w o w' Hok Hs. unfold bind.
  destruct (m w) as [[a|x] w1] eqn:E; destruct (Hm _ _ _ Hok Hs E) as (Hfr & Hs1 & Hr & Hmd).
  - intros E2. destruct (Hf a _ _ _ (proj2 Hfr) Hs1 E2) as (Hfr2 & Hs2 & Hr2 & Hmd2).
    split; [eauto using frame_trans|]. split; [exact Hs2|]. auto.
  - intros [= _ <-]. auto.
Qed.

Lemma keeps_slots_stay (w : world) :
  heap_ok w -> slots_ok w ->
  frame w w /\ slots_ok w /\
  (is_Some (root_dataset (crate w)) -> is_Some (root_dataset (crate w))) /\
  (is_Some (metadata (crate w)) -> is_Some (metadata (crate w))).
Proof. intros Hok Hs. split; [now apply frame_refl|]. auto. Qed.

Lemma add1_keeps_slots (is_url : string -> bool) (l : loc) :
  keeps_slots (add1 is_url l).
Proof.
  intros w o w' Hok Hs. unfold add1. unfold bind at 1, get_entity.
  destruct (heap w !! l) as [e|] eqn:He;
    [|intros [= _ <-]; now apply keeps_slots_stay].
  unfold bind at 1, get_crate.
  assert (Hput : forall r m p,
    (r = Some l \/ r = root_dataset (crate w)) ->
    (m = Some l \/ m = metadata (crate w)) ->
    (let* _ := put_crate (mkCrate (uuid (crate w)) (entity_map (crate w)) r m p
                            (source (crate w))) in
     let* c := get_crate in
     put_crate (mkCrate (uuid c)
                  (<[canonical_id is_url (crate w) e := l]> (entity_map c))
                  (root_dataset c) (metadata c) (preview c) (source c))) w = (o, w') ->
    frame w w' /\ slots_ok w' /\
    (is_Some (root_dataset (crate w)) -> is_Some (root_dataset (crate w'))) /\
    (is_Some (metadata (crate w)) -> is_Some (metadata (crate w')))).
  { intros r m p Hr Hm. unfold bind, put_crate, get_crate. cbn [heap crate].
    intros [= _ <-]. cbn [uuid entity_map root_dataset metadata preview source].
    split; [now apply frame_same_heap|]. split; [split|split];
      cbn [heap crate root_dataset metadata].
    - intros r0 ->. destruct Hr as [[= ->]|Hr]; [eauto|].
      apply (proj1 Hs). now symmetry.
    - intros m0 ->. destruct Hm as [[= ->]|Hm]; [eauto|].
      apply (proj2 Hs). now symmetry.
    - destruct Hr as [->| ->]; eauto.
    - destruct Hm as [->| ->]; eauto. }
  destruct (isinstance (ent_class e) RootDataset); [apply Hput; auto|].
  destruct (isinstance (ent_class e) Metadata || isinstance (ent_class e) LegacyMetadata);
    [apply Hput; auto|].
  destruct (isinstance (ent_class e) Preview); [apply Hput; auto|].
  assert (Hbranch : framed
    (if has_write (ent_class e) then
       match entity_map (crate w) !! canonical_id is_url (crate w) e with
       | Some _ => ret tt
       | None => match root_dataset (crate w) with
                 | Some r => append_to r "hasPart" (One (Obj l)) false
                 | None => raise AttributeError
                 end
       end
     else ret tt)).
  { destruct (has_write (ent_class e)); [|apply framed_ret].
    destruct (entity_map (crate w) !! canonical_id is_url (crate w) e); [apply framed_ret|].
    destruct (root_dataset (crate w)); [apply framed_append_to | apply framed_raise]. }
  unfold bind at 1.
  match goal with
  | |- context [match ?m w with _ => _ end] => destruct (m w) as [[[]|x] w1] eqn:E1
  end; destruct (Hbranch _ _ _ Hok E1) as (Hc & Hfr).
  - unfold bind, get_crate, put_crate. cbn [heap crate]. intros [= _ <-].
    rewrite Hc. cbn [uuid entity_map root_dataset metadata preview source].
    split; [|split; [split|split]]; cbn [heap crate root_dataset metadata].
    + eapply frame_trans; [exact Hfr|]. apply frame_same_heap; [reflexivity|].
      exact (proj2 Hfr).
    + intros r0 Hr0. destruct Hfr as [Hl _]. apply Hl. now apply (proj1 Hs).
    + intros m0 Hm0. destruct Hfr as [Hl _]. apply Hl. now apply (proj2 Hs).
    + auto.
    + auto.
  - intros [= _ <-]. split; [exact Hfr|]. destruct Hfr as [Hl _].
    unfold slots_ok. rewrite Hc.
    split; [|auto]. split; intros y Hy; apply Hl.
    + now apply (proj1 Hs).
    + now apply (proj2 Hs).
Qed.

Lemma add_keeps_slots (is_url : string -> bool) (entities : list loc) :
  keeps_slots (add is_url entities).
Proof.
  induction entities as [|l r IH]; cbn [add].
  - apply framed_keeps_slots, framed_ret.
  - apply keeps_slots_bind; [apply add1_keeps_slots|]. intros _. exact IH.
Qed.

Lemma keeps_slots_inv {A} (m : M A) (w : world) :
  keeps_slots m -> crate_inv w -> crate_inv (snd (m w)).
Proof.
  intros Hm (Hok & Hs & Hr & Hmd).
  destruct (m w) as [o w'] eqn:E. cbn [snd].
  destruct (Hm _ _ _ Hok Hs E) as (Hfr & Hs' & Hr' & Hmd').
  split; [apply Hfr|]. auto.
Qed.

Lemma init_state (is_url : string -> bool) (iso_now : string)
    (default_type : EntityClass -> json) (u : N) :
  exists mp,
    ROCrate_init is_url iso_now default_type (empty_world u) =
    (Ok tt,
     mkWorld
       (<[2%positive := mkEntity Metadata "ro-crate-metadata.json"
                          [("@id", JStr "ro-crate-metadata.json");
                           ("@type", default_type Metadata)] None false false]>
          (<[1%positive := mkEntity RootDataset "./"
                             [("@id", JStr "./"); ("@type", JStr "Dataset");
                              ("datePublished", JStr iso_now)] None false false]> ∅))
       (mkCrate u mp (Some 1%positive) (Some 2%positive) None None)).
Proof. eexists. reflexivity. Qed.

Lemma init_inv (is_url : string -> bool) (iso_now : string)
    (default_type : EntityClass -> json) (u : N) :
  crate_inv (snd (ROCrate_init is_url iso_now default_type (empty_world u))).
Proof.
  destruct (init_state is_url iso_now default_type u) as (mp & ->). cbn [snd].
  unfold heap_ok.
  split; [|split; [split|split]]; cbn [crate heap root_dataset metadata].
  - intros l e. cbn [heap]. rewrite lookup_insert. case_decide.
    + intros [= <-]. reflexivity.
    + rewrite lookup_insert. case_decide; [|now rewrite lookup_empty].
      intros [= <-]. reflexivity.
  - intros r [= <-]. cbn [heap]. rewrite lookup_insert_ne, lookup_insert_eq; [eauto|].
    discriminate.
  - intros m [= <-]. cbn [heap]. rewrite lookup_insert_eq. eauto.
  - eauto.
  - eauto.
Qed.

Lemma reachable_inv (is_url : string -> bool) (iso_now : string)
    (default_type : EntityClass -> json) (w : world) :
  reachable is_url iso_now default_type w -> crate_inv w.
Proof.
  induction 1 as [u|w o Hw IH].
  - apply init_inv.
  - destruct o; cbn [run_operation]; apply keeps_slots_inv; try exact IH.
    + apply framed_keeps_slots, framed_new_entity.
    + apply add_keeps_slots.
    + apply keeps_slots_same. intros w0 o w'. apply delete_entities_slots.
    + apply framed_keeps_slots, framed_setitem.
    + apply framed_keeps_slots, framed_delitem.
    + apply framed_keeps_slots, framed_append_to.
Qed.

(** ** Deleting entities *)

Lemma delete_entities_app (is_url : string -> bool) (pre post : list entity_arg)
    (w : world) :
  delete_entities is_url (pre ++ post) w =
  bind (delete_entities is_url pre) (fun _ => delete_entities is_url post) w.
Proof.
  revert w. induction pre as [|a r IH]; intros w; [reflexivity|].
  cbn [app delete_entities]. rewrite run_assoc. unfold bind in *.
  destruct (delete1 is_url a w) as [[[]|x] w1]; [apply IH | reflexivity].
Qed.

Lemma dict_mem_nonempty (k : string) (d : pydict) :
  Dict.mem k d = true -> Nat.eqb (length d) 0 = false.
Proof. destruct d; [discriminate | reflexivity]. Qed.

Lemma delete1_protected (is_url : string -> bool) (w : world) (a : entity_arg) (l : loc) :
  crate_inv w ->
  root_dataset (crate w) = Some l \/ metadata (crate w) = Some l ->
  names is_url w a l ->
  delete1 is_url a w = (Raise ValueError, w).
Proof.
  intros (Hok & [Hsr Hsm] & [r Hr] & [m Hm]) Hprot Hnames.
  assert (Hlive : is_Some (heap w !! l)).
  { destruct Hprot as [H|H]; [now apply Hsr | now apply Hsm]. }
  destruct Hlive as [e He].
  unfold delete1. unfold bind at 1, get_crate.
  assert (Htarget : match a with
                    | ByObj l0 => Some l0
                    | ById s => dereference is_url (crate w) s
                    end = Some l).
  { destruct Hnames as [->|(s & -> & Hs)]; [reflexivity | exact Hs]. }
  rewrite Htarget. unfold bind at 1, get_entity. rewrite He.
  rewrite (dict_mem_nonempty _ _ (Hok _ _ He)).
  rewrite Hr, Hm. cbn [attr]. rewrite run_ret.
  destruct (bool_decide (l = r)) eqn:Elr; [reflexivity|].
  rewrite run_ret.
  destruct (bool_decide (l = m)) eqn:Elm; [reflexivity|].
  apply bool_decide_eq_false in Elr, Elm.
  destruct Hprot as [H|H]; rewrite H in *; congruence.
Qed.

(** C4 (as the code has it). In every state that a crate built from scratch
    can reach, the root dataset and the metadata entity exist, and a delete
    call raises [ValueError] when it comes to either of them, named by
    object or by id: if the entities named before it in the same call were
    deleted without error, the call leaves the state those deletions
    produced and does not process the entities named after it; in
    particular, when the root dataset or the metadata entity comes first
    (or alone), the state is exactly what it was before the call. *)
Theorem delete_refuses_root_and_metadata (is_url : string -> bool) (iso_now : string)
    (default_type : EntityClass -> json) (w : world) :
  reachable is_url iso_now default_type w ->
  (exists r m, root_dataset (crate w) = Some r /\ metadata (crate w) = Some m) /\
  (forall a post l,
     root_dataset (crate w) = Some l \/ metadata (crate w) = Some l ->
     names is_url w a l ->
     delete_entities is_url (a :: post) w = (Raise ValueError, w)) /\
  (forall pre a post l w1,
     root_dataset (crate w) = Some l \/ metadata (crate w) = Some l ->
     delete_entities is_url pre w = (Ok tt, w1) ->
     names is_url w1 a l ->
     delete_entities is_url (pre ++ a :: post) w = (Raise ValueError, w1)).
Proof.
  intros Hreach. pose proof (reachable_inv _ _ _ _ Hreach) as Hinv.
  assert (Hone : forall w0 a post l,
    crate_inv w0 ->
    root_dataset (crate w0) = Some l \/ metadata (crate w0) = Some l ->
    names is_url w0 a l ->
    delete_entities is_url (a :: post) w0 = (Raise ValueError, w0)).
  { intros w0 a post l Hinv0 Hprot Hn. cbn [delete_entities].
    apply bind_raise. now apply (delete1_protected is_url w0 a l). }
  split; [|split].
  - destruct Hinv as (_ & _ & [r Hr] & [m Hm]). eauto.
  - intros a post l Hprot Hn. now apply (Hone w a post l).
  - intros pre a post l w1 Hprot Hpre Hn.
    rewrite delete_entities_app, (bind_ok _ _ _ _ _ Hpre).
    assert (Hinv1 : crate_inv w1).
    { pose proof (reachable_inv _ _ _ _
                    (reachable_step is_url iso_now default_type w (OpDelete pre) Hreach))
        as H. cbn [run_operation] in H. now rewrite Hpre in H. }
    destruct (delete_entities_slots _ _ _ _ _ (proj1 Hinv) Hpre) as ([Hr Hm] & _).
    apply (Hone w1 a post l); [exact Hinv1 | | exact Hn]. now rewrite Hr, Hm.
Qed.

Lemma example_world_reachable :
  reachable has_scheme "2024-01-01T00:00:00+00:00" (fun _ => JStr "Thing") example_world.
Proof.
  unfold example_world. apply reachable_step. apply reachable_step.
  apply reachable_init.
Qed.

(** C4, the claim as stated, fails for a call that names several entities:
    deleting the file "a.txt" and the root dataset in one call raises, yet
    the file is gone from the entity map and from the root dataset's
    hasPart. *)
Lemma delete_several_changes_state :
  reachable has_scheme "2024-01-01T00:00:00+00:00" (fun _ => JStr "Thing") example_world /\
  root_dataset (crate example_world) = Some 1%positive /\
  exists w2,
    delete_entities has_scheme [ById "a.txt"; ByObj 1%positive] example_world =
      (Raise ValueError, w2) /\
    size (entity_map (crate example_world)) = 3 /\
    size (entity_map (crate w2)) = 2 /\
    has_part_of example_world 1%positive = Some (JList [ref "a.txt"]) /\
    has_part_of w2 1%positive = None.
Proof.
  split; [apply example_world_reachable|]. split; [vm_compute; reflexivity|].
  eexists. split; [vm_compute; reflexivity|].
  repeat split; vm_compute; reflexivity.
Qed.

Lemma delete_refuses_root_and_metadata_witness :
  delete_entities has_scheme [ByObj 1%positive; ById "a.txt"] example_world =
    (Raise ValueError, example_world) /\
  delete_entities has_scheme [ById "ro-crate-metadata.json"] example_world =
    (Raise ValueError, example_world).
Proof.
  destruct (delete_refuses_root_and_metadata has_scheme "2024-01-01T00:00:00+00:00"
              (fun _ => JStr "Thing") example_world) as (_ & H & _).
  - unfold example_world. apply reachable_step. apply reachable_step.
    apply reachable_init.
  - split.
    + apply (H (ByObj 1%positive) [ById "a.txt"] 1%positive);
        [left; vm_compute; reflexivity | left; reflexivity].
    + apply (H (ById "ro-crate-metadata.json") [] 2%positive).
      * right. vm_compute. reflexivity.
      * right. exists "ro-crate-metadata.json". split; [reflexivity|]. vm_compute. reflexivity.
Defined.

(** ** Streaming a dataset *)

Section StreamFacts.

Variable is_url : string -> bool.
Variable iso_now : string.
Variable urlopen : string -> option (list string).
Variable path_exists : string -> bool.
Variable walk_chunks : string -> list (string * string).
Variable path_join : string -> string -> string.

Lemma stream_parts_ok (base id_ : string) (entries : list json) :
  forallb (streams_ok is_url urlopen base) entries = true ->
  stream_parts is_url urlopen path_join base id_ entries =
  (flat_map (part_events urlopen path_join base id_) entries, Ok tt).
Proof.
  induction entries as [|entry r IH]; [reflexivity|].
  cbn [forallb]. intros H. apply andb_prop in H as [H1 H2].
  cbn [stream_parts flat_map]. rewrite (IH H2).
  destruct entry as [| | | | |[part|] d]; try discriminate.
  - cbn [streams_ok part_events] in *. apply andb_prop in H1 as [Hrel Hopen].
    apply negb_true_iff in Hrel. rewrite Hrel.
    destruct (urlopen (base ++ "/" ++ part)); [reflexivity | discriminate].
  - reflexivity.
Qed.

Lemma stream_parts_app (base id_ : string) (pre post : list json) :
  forallb (streams_ok is_url urlopen base) pre = true ->
  stream_parts is_url urlopen path_join base id_ (pre ++ post) =
  (flat_map (part_events urlopen path_join base id_) pre ++
   fst (stream_parts is_url urlopen path_join base id_ post),
   snd (stream_parts is_url urlopen path_join base id_ post))%list.
Proof.
  induction pre as [|entry r IH]; cbn [forallb app flat_map].
  - intros _. now destruct (stream_parts _ _ _ _ _ post).
  - intros H. apply andb_prop in H as [H1 H2].
    cbn [stream_parts]. rewrite (IH H2).
    destruct entry as [| | | | |[part|] d]; try discriminate.
    + cbn [streams_ok part_events] in *. apply andb_prop in H1 as [Hrel Hopen].
      apply negb_true_iff in Hrel. rewrite Hrel.
      destruct (urlopen (base ++ "/" ++ part)); [|discriminate].
      now rewrite app_assoc.
    + reflexivity.
Qed.

(** C8. For a dataset with a URL source and [fetch_remote] set, and the
    entries that the loop over its stored hasPart sees (the elements of the
    list; none when the key is missing): when every entry is a mapping that either has no
    "@id" or has a strict relative "@id" that opens under the base URL, the
    stream ends normally, having yielded for each entry with an "@id" the
    chunks read from the base URL (the source without trailing slashes),
    a slash and the part's id, and having issued one warning and nothing
    else for each entry without "@id"; and when, after such entries, an
    entry has an "@id" that is a URL or starts with a slash, the stream
    fails with [RuntimeError] at that entry, after what the entries before
    it produced. *)
Theorem stream_remote_parts (c : ROCrate) (e : Entity) (src : string)
    (entries : list json) :
  ent_source e = Some src ->
  is_url src = true ->
  fetch_remote e = true ->
  iter_parts (Dict.get "hasPart" (_jsonld e)) = Ok entries ->
  (forallb (streams_ok is_url urlopen (PyStr.rstrip "/" src)) entries = true ->
   stream is_url iso_now urlopen path_exists walk_chunks path_join c e =
   mkStream
     (flat_map (part_events urlopen path_join (PyStr.rstrip "/" src) (ent_id e)) entries)
     (Ok tt) (_jsonld e)) /\
  (forall pre part rest post,
     entries = (pre ++ JDict (Some part) rest :: post)%list ->
     forallb (streams_ok is_url urlopen (PyStr.rstrip "/" src)) pre = true ->
     is_url part || PyStr.startswith "/" part = true ->
     stream is_url iso_now urlopen path_exists walk_chunks path_join c e =
     mkStream
       (flat_map (part_events urlopen path_join (PyStr.rstrip "/" src) (ent_id e)) pre)
       (Raise RuntimeError) (_jsonld e)) /\
  (forall base rest,
     part_events urlopen path_join base (ent_id e) (JDict None rest) =
     [Warn (ent_id e)]) /\
  (forall base part rest chunks,
     urlopen (base ++ "/" ++ part) = Some chunks ->
     part_events urlopen path_join base (ent_id e) (JDict (Some part) rest) =
     map (Yield (path_join (ent_id e) part)) chunks).
Proof.
  intros Hsrc Hurl Hfetch Hparts.
  assert (Hrun : stream is_url iso_now urlopen path_exists walk_chunks path_join c e =
                 let '(evs, out) :=
                   stream_parts is_url urlopen path_join (PyStr.rstrip "/" src)
                     (ent_id e) entries in
                 mkStream evs out (_jsonld e)).
  { unfold stream, _stream_folder_from_url.
    rewrite Hsrc, Hurl, Hfetch, Hparts. reflexivity. }
  split; [|split; [|split]].
  - intros Hok. rewrite Hrun, (stream_parts_ok _ _ _ Hok). reflexivity.
  - intros pre part rest post -> Hpre Hbad.
    rewrite Hrun, (stream_parts_app _ _ _ _ Hpre).
    cbn [stream_parts]. rewrite Hbad. cbn [fst snd]. now rewrite app_nil_r.
  - reflexivity.
  - intros base part rest chunks H. cbn [part_events]. now rewrite H.
Qed.

(** A hasPart entry that is not a mapping stops the stream with
    [TypeError]: reading its "@id" is not a [KeyError]. *)
Lemma stream_parts_not_mapping (base id_ : string) (entry : json) (r : list json) :
  is_dict entry = false ->
  stream_parts is_url urlopen path_join base id_ (entry :: r) = ([], Raise TypeError).
Proof. destruct entry; try reflexivity. discriminate. Qed.

(** C10 (as the code has it). [Dataset.stream] yields nothing and ends
    normally when the dataset has no source.  For a local source it first
    raises [FileNotFoundError] when the path does not exist, whether or not
    the crate has a source; when the path exists it yields nothing if the
    owning crate has a source, and the contents of the directory if the
    crate was built from scratch. *)
Theorem stream_local_source (c : ROCrate) (e : Entity) :
  (ent_source e = None ->
   stream is_url iso_now urlopen path_exists walk_chunks path_join c e =
   mkStream [] (Ok tt) (_jsonld e)) /\
  (forall src,
     ent_source e = Some src -> is_url src = false ->
     (path_exists src = false ->
      stream is_url iso_now urlopen path_exists walk_chunks path_join c e =
      mkStream [] (Raise FileNotFoundError) (_jsonld e)) /\
     (path_exists src = true -> is_Some (source c) ->
      stream is_url iso_now urlopen path_exists walk_chunks path_join c e =
      mkStream [] (Ok tt) (_jsonld e)) /\
     (path_exists src = true -> source c = None ->
      stream is_url iso_now urlopen path_exists walk_chunks path_join c e =
      mkStream (map (fun dc => Yield (fst dc) (snd dc)) (walk_chunks src))
        (Ok tt) (_jsonld e))).
Proof.
  split.
  - intros H. unfold stream. now rewrite H.
  - intros src Hsrc Hurl. unfold stream, _stream_folder_from_path.
    rewrite Hsrc, Hurl. split; [|split].
    + now intros ->.
    + intros -> [p ->]. reflexivity.
    + intros -> ->. reflexivity.
Qed.

End StreamFacts.

(** C8 at an input: a remote dataset with two parts and an entry without
    "@id". *)
Lemma stream_remote_parts_witness :
  stream has_scheme "now" example_urlopen (fun _ => false) (fun _ => [])
    (fun d p => d ++ p) example_crate example_remote_dataset =
  mkStream
    [Yield "data/a.txt" "aa"; Yield "data/a.txt" "a"; Warn "data/"; Yield "data/b.txt" "b"]
    (Ok tt) (_jsonld example_remote_dataset).
Proof.
  exact (proj1 (stream_remote_parts has_scheme "now" example_urlopen (fun _ => false)
                  (fun _ => []) (fun d p => d ++ p) example_crate example_remote_dataset
                  "http://example.org/data/"
                  [ref "a.txt"; JDict None [("name", JStr "x")]; ref "b.txt"]
                  eq_refl eq_refl eq_refl eq_refl) eq_refl).
Defined.

(** C10, the claim as stated, fails: in a crate that has a source, a dataset
    whose local source path does not exist does not stream the empty
    sequence; the stream raises [FileNotFoundError]. *)
Lemma stream_missing_path_in_loaded_crate :
  source example_loaded_crate = Some "/crate" /\
  ent_source example_local_dataset = Some "/crate/data" /\
  has_scheme "/crate/data" = false /\
  stream has_scheme "now" (fun _ => None) (fun _ => false) (fun _ => []) (fun d p => d ++ p)
    example_loaded_crate example_local_dataset =
  mkStream [] (Raise FileNotFoundError) (_jsonld example_local_dataset) /\
  stopped (stream has_scheme "now" (fun _ => None) (fun _ => false) (fun _ => [])
             (fun d p => d ++ p) example_loaded_crate example_local_dataset) <> Ok tt.
Proof. repeat split. discriminate. Qed.

Lemma stream_local_source_witness :
  stream has_scheme "now" (fun _ => None) (fun _ => true) (fun _ => [("data/f", "xyz")])
    (fun d p => d ++ p) example_loaded_crate example_local_dataset =
  mkStream [] (Ok tt) (_jsonld example_local_dataset).
Proof.
  refine (proj1 (proj2 (proj2 (stream_local_source has_scheme "now" (fun _ => None)
            (fun _ => true) (fun _ => [("data/f", "xyz")]) (fun d p => d ++ p)
            example_loaded_crate example_local_dataset)
            "/crate/data" eq_refl eq_refl)) eq_refl _).
  eexists. reflexivity.
Defined.

(** ** Type dispatch while loading *)

Lemma fails_bind {A B} (m : M A) (f : A -> M B) (w : world) :
  (forall a w1, m w = (Ok a, w1) -> fails (f a w1)) -> fails (bind m f w).
Proof.
  intros H. unfold bind. destruct (m w) as [[a|x] w1]; [now apply H|].
  now exists x, w1.
Qed.

Lemma fails_lift_raise {A B} (x : exn) (f : A -> M B) (w : world) :
  fails (bind (lift (Raise x)) f w).
Proof. now exists x, w. Qed.

Lemma pick_type_without_type {C} (entity : pydict) (type_map : list (string * C))
    (fallback : C) :
  Dict.get "@type" entity = None ->
  pick_type entity type_map fallback =
  Raise (if Dict.mem "@id" entity then ValueError else KeyError).
Proof.
  intros H. unfold pick_type, Dict.mem. rewrite H.
  now destruct (Dict.get "@id" entity).
Qed.

Lemma first_registered_none {C} (type_map : list (string * C)) (types : list string) :
  (forall name c, In (name, c) type_map -> ~ In name types) ->
  first_registered type_map types = None.
Proof.
  induction type_map as [|[name c] r IH]; intros H; [reflexivity|].
  cbn [first_registered].
  destruct (existsb (String.eqb name) types) eqn:E.
  - apply existsb_exists in E as (t & Ht & Heq). apply String.eqb_eq in Heq. subst t.
    exfalso. apply (H name c); [now left | exact Ht].
  - apply IH. intros n c' Hin. apply (H n c'). now right.
Qed.

Lemma pop_id_keeps_type (id_ : string) (entity entity' : pydict) :
  pop_id id_ entity = Ok entity' ->
  Dict.get "@type" entity' = Dict.get "@type" entity.
Proof.
  unfold pop_id. destruct (Dict.get "@id" entity) as [v|]; [|discriminate].
  destruct (py_eq (JStr id_) v); [|discriminate].
  intros [= <-]. now apply dict_get_remove_ne.
Qed.

Lemma untyped_entity_fails {B} (id_ : string) (entity : pydict)
    (type_map : list (string * EntityClass)) (fallback : EntityClass)
    (f : pydict -> EntityClass -> M B) (w : world) :
  Dict.mem "@type" entity = false ->
  fails (bind (lift (pop_id id_ entity))
           (fun entity' => bind (lift (pick_type entity' type_map fallback)) (f entity')) w).
Proof.
  intros Hbad. unfold bind at 1, lift at 1.
  destruct (pop_id id_ entity) as [entity'|x] eqn:E; [|now exists x, w].
  assert (Hnone : Dict.get "@type" entity' = None).
  { rewrite (pop_id_keeps_type _ _ _ E). unfold Dict.mem in Hbad.
    now destruct (Dict.get "@type" entity). }
  rewrite (pick_type_without_type _ _ _ Hnone). apply fails_lift_raise.
Qed.

Lemma pool_pop_lacks_type (id_ : string) (entities rest : pool) (entity : pydict) :
  pool_pop id_ entities = Some (entity, rest) ->
  lacks_type entities = true ->
  Dict.mem "@type" entity = false \/ lacks_type rest = true.
Proof.
  revert rest. induction entities as [|[k e0] r IH]; intros rest; [discriminate|].
  cbn [pool_pop]. destruct (String.eqb id_ k).
  - intros [= <- <-]. unfold lacks_type. cbn [existsb snd].
    intros H. apply orb_prop in H as [H|H]; [left | now right].
    now apply negb_true_iff in H.
  - destruct (pool_pop id_ r) as [[found r']|]; [|discriminate].
    intros [= <- <-]. unfold lacks_type in *. cbn [existsb snd].
    intros H. apply orb_prop in H as [H|H].
    + right. now rewrite H.
    + destruct (IH r' eq_refl H) as [Hf|Hr]; [now left|].
      right. rewrite Hr. apply orb_true_r.
Qed.

Section LoaderFacts.

Variable is_url : string -> bool.
Variable construct : construction -> M loc.
Variable path_under : string -> string.
Variable data_type_map : list (string * EntityClass).
Variable context_type_map : list (string * EntityClass).

(** The walk hands on every pending entity without "@type", unless it
    raises. *)
Lemma parts_loop_keeps_untyped (nested : list json -> pool -> M pool) :
  (forall parts entities w entities' w',
     nested parts entities w = (Ok entities', w') ->
     lacks_type entities = true -> lacks_type entities' = true) ->
  forall parts entities w entities' w',
    parts_loop is_url construct path_under data_type_map nested parts entities w =
      (Ok entities', w') ->
    lacks_type entities = true -> lacks_type entities' = true.
Proof.
  intros Hnested parts.
  induction parts as [|data_entity_ref rest IH]; intros entities w entities' w'.
  - cbn [parts_loop]. now intros [= <- <-].
  - cbn [parts_loop]. unfold bind at 1, lift at 1.
    destruct (ref_id data_entity_ref) as [id_|x]; [|discriminate].
    destruct (pool_pop id_ entities) as [[entity popped]|] eqn:Epop; [|apply IH].
    intros Hrun Hbad.
    destruct (pool_pop_lacks_type _ _ _ _ Epop Hbad) as [Hent|Hrest].
    + exfalso. revert Hrun. unfold bind at 1, lift at 1.
      destruct (pop_id id_ entity) as [entity1|y] eqn:Eid; [|discriminate].
      unfold bind at 1, lift at 1.
      rewrite pick_type_without_type; [discriminate|].
      rewrite (pop_id_keeps_type _ _ _ Eid). unfold Dict.mem in Hent.
      now destruct (Dict.get "@type" entity).
    + revert Hrun. unfold bind at 1, lift at 1.
      destruct (pop_id id_ entity) as [entity1|y]; [|discriminate].
      unfold bind at 1, lift at 1.
      destruct (pick_type entity1 data_type_map DataEntity) as [cls|y]; [|discriminate].
      unfold bind at 1.
      match goal with
      | |- context [match ?m w with _ => _ end] => destruct (m w) as [[instance|y] w1]
      end; [|discriminate].
      unfold bind at 1.
      destruct (add is_url [instance] w1) as [[[]|y] w2]; [|discriminate].
      unfold bind at 1.
      destruct (nested (as_list (get_or_empty "hasPart" entity1)) popped w2)
        as [[entities2|y] w3] eqn:En; [|discriminate].
      intros Hrun. apply (IH _ _ _ _ Hrun). apply (Hnested _ _ _ _ _ En Hrest).
Qed.

Lemma add_parts_keeps_untyped (limit : nat) (parts : list json)
    (entities entities' : pool) (w w' : world) :
  add_parts is_url construct path_under data_type_map limit parts entities w =
    (Ok entities', w') ->
  lacks_type entities = true -> lacks_type entities' = true.
Proof.
  revert parts entities entities' w w'.
  induction limit as [|limit IH]; intros parts entities entities' w w';
    cbn [add_parts]; apply parts_loop_keeps_untyped.
  - discriminate.
  - intros p e0 w0 e1 w1. apply IH.
Qed.

Lemma read_contextual_untyped_fails (entities : pool) (w : world) :
  lacks_type entities = true ->
  fails (read_contextual_entities is_url construct context_type_map entities w).
Proof.
  revert w. induction entities as [|[identifier entity] rest IH]; intros w;
    [discriminate|].
  unfold lacks_type. cbn [existsb snd read_contextual_entities]. intros Hbad.
  apply fails_bind. intros warn w1 _.
  apply fails_bind. intros _ w2 _.
  destruct (Dict.mem "@type" entity) eqn:Et.
  - cbn [negb orb] in Hbad.
    apply fails_bind. intros entity1 w3 _.
    apply fails_bind. intros cls w4 _.
    apply fails_bind. intros instance w5 _.
    apply fails_bind. intros _ w6 _.
    now apply IH.
  - now apply (untyped_entity_fails identifier entity context_type_map ContextEntity
                 (fun entity' cls =>
                    let* instance := construct (Plain cls identifier entity') in
                    let* _ := add is_url [instance] in
                    read_contextual_entities is_url construct context_type_map rest)).
Qed.

(** C9. [pick_type] never answers for an entity without "@type": it raises
    [ValueError], or [KeyError] when the entity has no "@id" left for the
    message, as in the loader, which takes the "@id" out first.  When the
    declared types, stripped, name no class of the table, it answers the
    fallback class.  And a load whose pending entities include one without
    "@type" ends in an exception, whatever the root dataset's parts are:
    the walk over the parts and the pass over the contextual entities both
    dispatch every entity they take. *)
Theorem pick_type_requires_type (limit : nat) (parts : list json)
    (entities : pool) (w : world) :
  (forall entity (type_map : list (string * EntityClass)) fallback,
     Dict.get "@type" entity = None ->
     pick_type entity type_map fallback =
     Raise (if Dict.mem "@id" entity then ValueError else KeyError)) /\
  (forall entity (type_map : list (string * EntityClass)) fallback t types,
     Dict.get "@type" entity = Some t ->
     declared_types t = Ok types ->
     (forall name c, In (name, c) type_map -> ~ In name types) ->
     pick_type entity type_map fallback = Ok fallback) /\
  (lacks_type entities = true ->
   exists x w',
     read_entities is_url construct path_under data_type_map context_type_map
       limit parts entities w = (Raise x, w')).
Proof.
  split; [|split].
  - intros entity type_map fallback. apply pick_type_without_type.
  - intros entity type_map fallback t types Ht Hd Hnone.
    unfold pick_type. rewrite Ht, Hd. now rewrite first_registered_none.
  - intros Hbad. unfold read_entities. apply fails_bind.
    intros entities' w1 Hwalk. apply read_contextual_untyped_fails.
    exact (add_parts_keeps_untyped _ _ _ _ _ _ Hwalk Hbad).
Qed.

End LoaderFacts.

Lemma pick_type_requires_type_witness :
  pick_type [("name", JStr "x")] [("File", File); ("Dataset", Dataset)] DataEntity =
    Raise KeyError /\
  pick_type [("@id", JStr "#p"); ("@type", JStr "Person")]
    [("File", File); ("Dataset", Dataset)] DataEntity = Ok DataEntity /\
  exists x w',
    read_entities has_scheme example_construct (fun p => "/crate/" ++ p)
      [("File", File); ("Dataset", Dataset)] [("TestSuite", TestSuite)] 1000
      [ref "a.txt"]
      [("a.txt", [("@id", JStr "a.txt"); ("@type", JStr "File")]);
       ("#p", [("@id", JStr "#p"); ("name", JStr "x")])]
      example_world = (Raise x, w').
Proof.
  destruct (pick_type_requires_type has_scheme example_construct
              (fun p => "/crate/" ++ p)
              [("File", File); ("Dataset", Dataset)] [("TestSuite", TestSuite)] 1000
              [ref "a.txt"]
              [("a.txt", [("@id", JStr "a.txt"); ("@type", JStr "File")]);
               ("#p", [("@id", JStr "#p"); ("name", JStr "x")])]
              example_world) as (H1 & H2 & H3).
  split; [|split].
  - exact (H1 [("name", JStr "x")] [("File", File); ("Dataset", Dataset)] DataEntity eq_refl).
  - apply (H2 _ _ _ (JStr "Person") ["Person"]); [reflexivity | reflexivity |].
    intros name c [[= <- <-]|[[= <- <-]|[]]] [Hin|[]]; discriminate.
  - apply H3. reflexivity.
Defined.

(** * Further properties *)

(** ** Item operations of an entity *)

(** X1. An entity object registered under its own id, and any JSON value
    that is not a mapping, read back as written: after [e[key] = value]
    for a non-reserved key, [e[key]] is [value], a list as a list and a
    scalar as a scalar. *)
Theorem setitem_getitem_round_trip (is_url : string -> bool) (w : world)
    (self : loc) (e : Entity) (key : string) (value : pyval) :
  PyStr.startswith "@" key = false ->
  heap w !! self = Some e ->
  read_form value ->
  Forall (reads_back is_url w) (as_values value) ->
  exists w' e',
    setitem self key value w = (Ok tt, w') /\
    crate w' = crate w /\
    heap w' !! self = Some e' /\
    getitem is_url (crate w') e' key = Ok value.
Proof.
  intros Hk He Hshape Hback.
  assert (Hlive : Forall (live (heap w)) (as_values value)).
  { eapply Forall_impl; [exact Hback|]. intros [l|v]; cbn; [|trivial].
    intros (el & Hl & _). eauto. }
  assert (Hids : existsb lacks_id (as_values value) = false).
  { clear -Hback. induction Hback as [|x r Hx _ IH]; [reflexivity|].
    cbn [existsb]. rewrite IH, orb_false_r.
    destruct x as [l|[| | | | |[i|] d]]; try reflexivity. discriminate. }
  rewrite (setitem_ok w self e key value Hk Hids He Hlive).
  eexists _, _. split; [reflexivity|]. split; [reflexivity|].
  cbn [heap crate]. split; [apply lookup_insert_eq|].
  unfold getitem. cbn [_jsonld with_jsonld]. rewrite dict_get_set, Hk.
  assert (Hderef : forall x, reads_back is_url w x ->
            deref_entry is_url (crate w) (ref_of (heap w) x) = Ok x).
  { intros [l|v]; cbn [reads_back ref_of].
    - intros (el & -> & Hreg). cbn [ref deref_entry]. now rewrite Hreg.
    - intros Hv. destruct v; try reflexivity. discriminate. }
  destruct value as [x|xs]; cbn [isinstance_list as_values] in *.
  - destruct x as [l|v]; cbn [isinstance_list].
    + inversion Hback as [|? ? Hx _]; subst. cbn [map first_or_none].
      pose proof (Hderef _ Hx) as Hd. cbn [reads_back ref_of] in *.
      destruct Hx as (el & Hl & Hreg). rewrite Hl in *. cbn [ref] in *.
      now rewrite Hd.
    + destruct v; try contradiction; cbn [map first_or_none ref_of];
        inversion Hback as [|? ? Hx _]; subst; cbn in Hx; try discriminate;
        reflexivity.
  - assert (Hall : deref_values is_url (crate w) (map (ref_of (heap w)) xs) = Ok xs).
    { clear -Hback Hderef. induction Hback as [|x r Hx _ IH]; [reflexivity|].
      cbn [map deref_values]. now rewrite (Hderef _ Hx), IH. }
    now rewrite Hall.
Qed.

Lemma setitem_getitem_round_trip_witness :
  exists w' e',
    setitem 3%positive "about" (Many [Obj 1%positive; Val (JStr "text")]) small_world =
      (Ok tt, w') /\
    crate w' = crate small_world /\
    heap w' !! 3%positive = Some e' /\
    getitem has_scheme (crate w') e' "about" =
      Ok (Many [Obj 1%positive; Val (JStr "text")]).
Proof.
  apply (setitem_getitem_round_trip has_scheme small_world 3%positive small_file).
  - reflexivity.
  - reflexivity.
  - exact I.
  - constructor; [|constructor; [reflexivity | constructor]].
    exists small_root. split; [reflexivity | vm_compute; reflexivity].
Defined.

Lemma dict_get_none_keys (k : string) (d : pydict) :
  Dict.get k d = None <-> ~ In k (Dict.keys d).
Proof.
  induction d as [|[k0 v0] d IH]; cbn [Dict.get Dict.keys map fst In]; [tauto|].
  destruct (String.eqb k k0) eqn:E.
  - apply String.eqb_eq in E. subst k0. split; [discriminate | tauto].
  - apply String.eqb_neq in E. rewrite IH. unfold Dict.keys.
    split; [intros H [?|?]; [congruence | tauto] | tauto].
Qed.

Lemma dict_get_remove (k : string) (d : pydict) :
  NoDup (Dict.keys d) -> Dict.get k (Dict.remove k d) = None.
Proof.
  induction d as [|[k0 v0] d IH]; cbn [Dict.remove Dict.keys map fst]; [reflexivity|].
  intros Hnd. inversion Hnd as [|? ? Hnotin Hnd']; subst.
  destruct (String.eqb k k0) eqn:E.
  - apply String.eqb_eq in E. subst k0. apply dict_get_none_keys.
    intros Hin. apply Hnotin. now apply list_elem_of_In.
  - cbn [Dict.get]. rewrite E. now apply IH.
Qed.

Lemma dict_remove_length (k : string) (d : pydict) :
  Dict.mem k d = true -> length (Dict.remove k d) + 1 = length d.
Proof.
  unfold Dict.mem.
  induction d as [|[k0 v0] d IH]; cbn [Dict.get Dict.remove length]; [discriminate|].
  destruct (String.eqb k k0); [lia|]. intros H. cbn [length]. specialize (IH H). lia.
Qed.

Lemma dict_remove_set (k : string) (v : json) (d : pydict) :
  Dict.get k d = None -> Dict.remove k (Dict.set k v d) = d.
Proof.
  induction d as [|[k0 v0] d IH]; cbn [Dict.get Dict.set Dict.remove].
  - now rewrite String.eqb_refl.
  - destruct (String.eqb k k0) eqn:E; [discriminate|].
    intros H. cbn [Dict.remove]. now rewrite E, IH.
Qed.

(** X2. [del e[key]] fails with [KeyError], leaving the state as it was, for
    a reserved key and for a key that the entity does not have; for a key
    it has, the key is gone afterwards, every other key keeps its value and
    the entity has one property less. *)
Theorem delitem_removes_key (w : world) (self : loc) (e : Entity) (key : string) :
  heap w !! self = Some e ->
  NoDup (Dict.keys (_jsonld e)) ->
  (PyStr.startswith "@" key = true -> delitem self key w = (Raise KeyError, w)) /\
  (Dict.get key (_jsonld e) = None -> delitem self key w = (Raise KeyError, w)) /\
  (PyStr.startswith "@" key = false ->
   is_Some (Dict.get key (_jsonld e)) ->
   exists e',
     delitem self key w = (Ok tt, mkWorld (<[self := e']> (heap w)) (crate w)) /\
     same_object e e' /\
     Dict.get key (_jsonld e') = None /\
     (forall k, k <> key -> Dict.get k (_jsonld e') = Dict.get k (_jsonld e)) /\
     length (_jsonld e') + 1 = length (_jsonld e)).
Proof.
  intros He Hnd. split; [|split].
  - intros Hk. unfold delitem. now rewrite Hk.
  - intros Hnone. unfold delitem. destruct (PyStr.startswith "@" key); [reflexivity|].
    destruct w as [h c]. cbn [heap] in He. rewrite (run_get _ _ _ _ _ He).
    unfold Dict.mem. now rewrite Hnone.
  - intros Hk [v Hv]. exists (with_jsonld e (Dict.remove key (_jsonld e))).
    split; [|split; [|split; [|split]]].
    + unfold delitem. rewrite Hk. destruct w as [h c]. cbn [heap crate] in *.
      rewrite (run_get _ _ _ _ _ He). unfold Dict.mem. rewrite Hv.
      unfold put_jsonld. cbn [heap crate].
      fold (upd h self (Dict.remove key (_jsonld e))).
      now rewrite (upd_insert _ _ _ _ He).
    + repeat split.
    + cbn [_jsonld with_jsonld]. now apply dict_get_remove.
    + intros k Hne. cbn [_jsonld with_jsonld]. apply dict_get_remove_ne.
      now apply String.eqb_neq.
    + cbn [_jsonld with_jsonld]. apply dict_remove_length. unfold Dict.mem.
      now rewrite Hv.
Qed.

Lemma delitem_removes_key_witness :
  exists e',
    delitem 1%positive "hasPart" small_world =
      (Ok tt, mkWorld (<[1%positive := e']> (heap small_world)) (crate small_world)) /\
    Dict.get "hasPart" (_jsonld e') = None /\
    Dict.get "@type" (_jsonld e') = Some (JStr "Dataset").
Proof.
  destruct (delitem_removes_key small_world 1%positive small_root "hasPart" eq_refl)
    as (_ & _ & H).
  - apply (bool_decide_unpack _). vm_compute. exact I.
  - destruct (H eq_refl ltac:(eexists; reflexivity)) as (e' & Hrun & _ & Hgone & Hrest & _).
    exists e'. split; [exact Hrun|]. split; [exact Hgone|].
    rewrite Hrest; [reflexivity | discriminate].
Defined.

(** X3. Setting a property that the entity does not have and deleting it
    again restores the state exactly. *)
Theorem setitem_delitem_restores (w : world) (self : loc) (e : Entity)
    (key : string) (value : pyval) :
  PyStr.startswith "@" key = false ->
  heap w !! self = Some e ->
  Dict.get key (_jsonld e) = None ->
  existsb lacks_id (as_values value) = false ->
  Forall (live (heap w)) (as_values value) ->
  bind (setitem self key value) (fun _ => delitem self key) w = (Ok tt, w).
Proof.
  intros Hk He Hnone Hids Hlive.
  rewrite (bind_ok _ _ _ _ _ (setitem_ok w self e key value Hk Hids He Hlive)).
  unfold delitem. rewrite Hk.
  rewrite run_get with (e := with_jsonld e
    (Dict.set key
       (if isinstance_list value
        then JList (map (ref_of (heap w)) (as_values value))
        else first_or_none (map (ref_of (heap w)) (as_values value)))
       (_jsonld e))) by apply lookup_insert_eq.
  cbn [_jsonld with_jsonld]. unfold Dict.mem. rewrite dict_get_set.
  rewrite (dict_remove_set _ _ _ Hnone).
  unfold put_jsonld. cbn [heap crate]. destruct w as [h c]. cbn [heap crate] in *.
  f_equal. f_equal. apply map_eq. intros i.
  destruct (decide (self = i)) as [<-|Hne].
  - rewrite lookup_alter_eq, lookup_insert_eq, He. now destruct e.
  - now rewrite lookup_alter_ne, lookup_insert_ne.
Qed.

Lemma setitem_delitem_restores_witness :
  bind (setitem 3%positive "author" (One (Val (JStr "Joe"))))
    (fun _ => delitem 3%positive "author") small_world = (Ok tt, small_world).
Proof.
  apply (setitem_delitem_restores small_world 3%positive small_file);
    try reflexivity.
  repeat constructor.
Defined.

(** X4. Two appends to a key are one append of both values in their order:
    without [compact], [append_to(key, v1)] followed by [append_to(key, v2)]
    leaves the state that a single append of the elements of [v1] and then
    those of [v2] leaves. *)
Theorem append_to_twice (w : world) (self : loc) (e : Entity) (key : string)
    (v1 v2 : pyval) :
  PyStr.startswith "@" key = false ->
  heap w !! self = Some e ->
  Forall (live (heap w)) (as_values v1) ->
  Forall (live (heap w)) (as_values v2) ->
  bind (append_to self key v1 false) (fun _ => append_to self key v2 false) w =
  append_to self key (Many (as_values v1 ++ as_values v2)) false w.
Proof.
  intros Hk He H1 H2. destruct w as [h c]. cbn [heap] in *.
  rewrite (bind_ok _ _ _ _ _ (append_to_run h c self e key v1 false Hk He H1)).
  rewrite (append_to_run _ c self _ key v2 false Hk (upd_lookup _ _ _ _ He)
             (forall_live_upd _ _ _ _ H2)).
  rewrite (append_to_run h c self e key _ false Hk He).
  2:{ cbn [as_values]. apply Forall_app. split; assumption. }
  cbn [_jsonld with_jsonld as_values]. rewrite upd_upd, dict_set_set, dict_get_set.
  rewrite map_ref_of_upd, map_app.
  assert (Hm : forall r : list json,
            match r with
            | [] => JList []
            | [x] => JList [x]
            | x :: y :: t => JList (x :: y :: t)
            end = JList r).
  { intros [|x [|y t]]; reflexivity. }
  rewrite !Hm. cbn [as_sequence]. now rewrite <- app_assoc.
Qed.

Lemma append_to_twice_witness :
  bind (append_to 1%positive "hasPart" (One (Obj 3%positive)) false)
    (fun _ => append_to 1%positive "hasPart" (One (Val (ref "b.txt"))) false) small_world =
  append_to 1%positive "hasPart" (Many [Obj 3%positive; Val (ref "b.txt")]) false
    small_world.
Proof.
  apply (append_to_twice small_world 1%positive small_root "hasPart"
           (One (Obj 3%positive)) (One (Val (ref "b.txt")))).
  - reflexivity.
  - reflexivity.
  - constructor; [|constructor]. exists small_file. reflexivity.
  - constructor; [exact I | constructor].
Defined.

(** ** What the operations leave alone *)

Section Keeps.

Variable R : loc -> pydict -> pydict -> Prop.
Variable h0 : gmap loc Entity.

Lemma keeps_ret {A} (a : A) : keeps R h0 (ret a).
Proof. now intros w o w' H [= _ <-]. Qed.

Lemma keeps_raise {A} (x : exn) : keeps R h0 (@raise A x).
Proof. now intros w o w' H [= _ <-]. Qed.

Lemma keeps_lift {A} (r : outcome A) : keeps R h0 (lift r).
Proof. now intros w o w' H [= _ <-]. Qed.

Lemma keeps_bind {A B} (m : M A) (f : A -> M B) :
  keeps R h0 m -> (forall a, keeps R h0 (f a)) -> keeps R h0 (bind m f).
Proof.
  intros Hm Hf w o w' Hag. unfold bind.
  destruct (m w) as [[a|x] w1] eqn:E; pose proof (Hm _ _ _ Hag E) as H1.
  - now apply Hf.
  - now intros [= _ <-].
Qed.

Lemma keeps_get_crate {B} (f : ROCrate -> M B) :
  (forall c, keeps R h0 (f c)) -> keeps R h0 (bind get_crate f).
Proof. intros Hf w o w' Hag. unfold bind, get_crate. now apply Hf. Qed.

Lemma keeps_put_crate (c : ROCrate) : keeps R h0 (put_crate c).
Proof. now intros w o w' Hag [= _ <-]. Qed.

(** An object read in a state that agrees with [h0] has a store within [R]
    of the one it had. *)
Lemma keeps_get {B} (l : loc) (f : Entity -> M B) :
  (forall e, (forall e0, h0 !! l = Some e0 -> R l (_jsonld e0) (_jsonld e)) ->
             keeps R h0 (f e)) ->
  keeps R h0 (bind (get_entity l) f).
Proof.
  intros Hf w o w' Hag. unfold bind, get_entity.
  destruct (heap w !! l) as [e|] eqn:E; [|now intros [= _ <-]].
  apply Hf; [|exact Hag]. intros e0 H0.
  destruct (Hag _ _ H0) as (e1 & H1 & _ & HR). rewrite E in H1. now injection H1 as ->.
Qed.

Lemma keeps_put (l : loc) (d : pydict) :
  (forall e0, h0 !! l = Some e0 -> R l (_jsonld e0) d) ->
  keeps R h0 (put_jsonld l d).
Proof.
  intros Hd w o w' Hag [= _ <-] l' e0 H0. cbn [heap].
  destruct (Hag _ _ H0) as (e1 & H1 & Hobj & HR).
  destruct (decide (l = l')) as [<-|Hne].
  - rewrite lookup_alter_eq, H1. eexists. split; [reflexivity|].
    split; [exact Hobj | now apply Hd].
  - rewrite lookup_alter_ne by assumption. eauto.
Qed.


Lemma keeps_mapM {A B} (f : A -> M B) (l : list A) :
  (forall x, keeps R h0 (f x)) -> keeps R h0 (mapM f l).
Proof.
  intros Hf. induction l as [|x r IH]; cbn [mapM]; [apply keeps_ret|].
  apply keeps_bind; [apply Hf|]. intros y.
  apply keeps_bind; [apply IH|]. intros ys. apply keeps_ret.
Qed.

Lemma keeps_filterM {A} (f : A -> M bool) (l : list A) :
  (forall x, keeps R h0 (f x)) -> keeps R h0 (filterM f l).
Proof.
  intros Hf. induction l as [|x r IH]; cbn [filterM]; [apply keeps_ret|].
  apply keeps_bind; [apply Hf|]. intros y.
  apply keeps_bind; [apply IH|]. intros ys. apply keeps_ret.
Qed.

Lemma keeps_read {A B} (l : loc) (f : Entity -> A) (g : A -> M B) :
  (forall a, keeps R h0 (g a)) ->
  keeps R h0 (bind (get_entity l) (fun e => g (f e))).
Proof. intros Hg. apply keeps_get. intros e _. apply Hg. Qed.

Lemma keeps_to_ref (x : pyitem) : keeps R h0 (to_ref x).
Proof.
  destruct x as [l|v]; cbn [to_ref]; [|apply keeps_ret].
  apply keeps_get. intros e _. apply keeps_ret.
Qed.

Lemma keeps_differs (e : Entity) (x : pyitem) : keeps R h0 (differs e x).
Proof.
  destruct x as [l|v]; cbn [differs]; [|apply keeps_ret].
  apply keeps_get. intros e' _. apply keeps_ret.
Qed.

Lemma keeps_py_iter (v : pyval) : keeps R h0 (py_iter v).
Proof.
  destruct v as [[l|[| | | | |]]|l]; cbn [py_iter];
    try apply keeps_ret; try apply keeps_raise.
  apply keeps_get. intros e' _. apply keeps_ret.
Qed.

Lemma keeps_truthy (v : pyval) : keeps R h0 (truthy v).
Proof.
  destruct v as [[l|[| | | | |[i|] [|]]]|l]; cbn [truthy]; try apply keeps_ret.
  apply keeps_get. intros e' _. apply keeps_ret.
Qed.

Lemma keeps_setitem (self : loc) (key : string) (value : pyval) :
  (PyStr.startswith "@" key = false -> set_ok R self key) ->
  keeps R h0 (setitem self key value).
Proof.
  intros Hset. unfold setitem.
  destruct (PyStr.startswith "@" key); [apply keeps_raise|].
  destruct (existsb lacks_id (as_values value)); [apply keeps_raise|].
  apply keeps_bind; [apply keeps_mapM, keeps_to_ref|]. intros refs.
  apply keeps_get. intros e He. apply keeps_put.
  intros e0 H0. apply Hset; [reflexivity | now apply He].
Qed.



Lemma keeps_remove_part (is_url : string -> bool) (c : ROCrate) (r : loc) (e : Entity) :
  set_ok R r "hasPart" -> remove_ok R r "hasPart" ->
  keeps R h0 (remove_part is_url c r e).
Proof.
  intros Hset Hrem. unfold remove_part.
  apply keeps_get. intros root _.
  apply keeps_bind; [apply keeps_lift|]. intros parts.
  apply keeps_bind; [apply keeps_py_iter|]. intros items.
  apply keeps_bind; [apply keeps_filterM, keeps_differs|]. intros kept.
  apply keeps_bind; [now apply keeps_setitem|]. intros _.
  apply keeps_get. intros root1 _.
  apply keeps_bind; [apply keeps_lift|]. intros parts1.
  apply keeps_bind; [apply keeps_truthy|]. intros [|]; [apply keeps_ret|].
  apply keeps_get. intros root2 Hroot2.
  destruct (Dict.mem "hasPart" (_jsonld root2)); [|apply keeps_raise].
  apply keeps_put. intros e0 H0. apply Hrem. now apply Hroot2.
Qed.

Lemma keeps_bind_ret {A B} (a : A) (f : A -> M B) :
  keeps R h0 (f a) -> keeps R h0 (bind (ret a) f).
Proof. intros Hf w o w' Hag E. exact (Hf w o w' Hag E). Qed.

Lemma keeps_bind_raise {A B} (x : exn) (f : A -> M B) :
  keeps R h0 (bind (@raise A x) f).
Proof. now intros w o w' Hag [= _ <-]. Qed.

(** The crate that [get_crate] returns is the one of the state. *)
Lemma keeps_get_crate_at {B} (f : ROCrate -> M B) (w w' : world) (o : outcome B) :
  keeps R h0 (f (crate w)) ->
  agrees R h0 w -> bind get_crate f w = (o, w') -> agrees R h0 w'.
Proof. intros Hk Hag E. exact (Hk w o w' Hag E). Qed.

Lemma keeps_delete1_at (is_url : string -> bool) (a : entity_arg)
    (w w' : world) (o : outcome unit) :
  (forall r, root_dataset (crate w) = Some r ->
             set_ok R r "hasPart" /\ remove_ok R r "hasPart") ->
  agrees R h0 w -> delete1 is_url a w = (o, w') -> agrees R h0 w'.
Proof.
  intros Hok Hag E. unfold delete1 in E.
  eapply keeps_get_crate_at; [|exact Hag|exact E]. clear E Hag. cbv beta.
  revert Hok. generalize (crate w). intros c Hok.
  destruct (match a with ByObj l => Some l | ById s => dereference is_url c s end)
    as [l|]; [|apply keeps_ret].
  apply keeps_get. intros e _.
  destruct (Nat.eqb (length (_jsonld e)) 0); [apply keeps_ret|].
  destruct (root_dataset c) as [r|]; cbn [attr]; [|apply keeps_bind_raise].
  apply keeps_bind_ret. destruct (bool_decide (l = r)); [apply keeps_raise|].
  apply keeps_bind; [destruct (metadata c); [apply keeps_ret | apply keeps_raise]|].
  intros m. destruct (bool_decide (l = m)); [apply keeps_raise|].
  apply keeps_bind.
  - destruct (bool_decide (preview c = Some l)); [apply keeps_put_crate|].
    destruct (has_write (ent_class e)); [|apply keeps_ret].
    apply keeps_remove_part; now apply Hok.
  - intros _. apply keeps_get_crate. intros c1. apply keeps_put_crate.
Qed.








End Keeps.

Lemma agrees_start (R : loc -> pydict -> pydict -> Prop) (w : world) :
  (forall l d, R l d d) -> agrees R (heap w) w.
Proof.
  intros Hrefl l e0 H0. exists e0. split; [exact H0|]. split; [|apply Hrefl].
  repeat split.
Qed.





Lemma only_has_part_refl (may : loc -> Prop) (l : loc) (d : pydict) :
  only_has_part may l d d.
Proof. split; reflexivity. Qed.

Lemma only_has_part_set (may : loc -> Prop) (r : loc) :
  may r -> set_ok (only_has_part may) r "hasPart".
Proof.
  intros Hr d0 d v [H1 H2]. split; [intros Hn; now destruct Hn|].
  intros k Hk. rewrite dict_get_set_ne; [now apply H2|]. now apply String.eqb_neq.
Qed.

Lemma only_has_part_remove (may : loc -> Prop) (r : loc) :
  may r -> remove_ok (only_has_part may) r "hasPart".
Proof.
  intros Hr d0 d [H1 H2]. split; [intros Hn; now destruct Hn|].
  intros k Hk. rewrite dict_get_remove_ne; [now apply H2|]. now apply String.eqb_neq.
Qed.

Lemma delete_entities_only_has_part (is_url : string -> bool) (h0 : gmap loc Entity)
    (r0 : option loc) (entities : list entity_arg) (w w' : world) (o : outcome unit) :
  heap_ok w -> root_dataset (crate w) = r0 ->
  agrees (only_has_part (fun l => r0 = Some l)) h0 w ->
  delete_entities is_url entities w = (o, w') ->
  agrees (only_has_part (fun l => r0 = Some l)) h0 w'.
Proof.
  revert w. induction entities as [|a r IH]; intros w Hok Hroot Hag;
    cbn [delete_entities]; [now intros [= _ <-]|].
  unfold bind. destruct (delete1 is_url a w) as [[[]|x] w1] eqn:E1;
    destruct (delete1_slots _ _ _ _ _ Hok E1) as ([Hr _] & Hfr);
    assert (Hag1 : agrees (only_has_part (fun l => r0 = Some l)) h0 w1)
      by (eapply keeps_delete1_at; [|exact Hag|exact E1];
          intros r1 Hr1; split;
          [apply only_has_part_set | apply only_has_part_remove]; congruence).
  - apply IH; [exact (proj2 Hfr) | congruence | exact Hag1].
  - now intros [= _ <-].
Qed.

(** X6. delete does not cascade: whatever entities a call of delete names,
    and whether it returns or raises, every object that existed is still
    there as the same object; the property stores of all objects other than
    the root dataset are exactly what they were, and in the root dataset
    nothing but "hasPart" can differ.  References to a deleted entity held
    by other entities are left as they are. *)
Theorem delete_touches_only_has_part (is_url : string -> bool)
    (entities : list entity_arg) (w w' : world) (o : outcome unit)
    (l : loc) (e0 : Entity) :
  heap_ok w ->
  delete_entities is_url entities w = (o, w') ->
  heap w !! l = Some e0 ->
  exists e,
    heap w' !! l = Some e /\ same_object e0 e /\
    (root_dataset (crate w) <> Some l -> _jsonld e = _jsonld e0) /\
    (forall k, k <> "hasPart" -> Dict.get k (_jsonld e) = Dict.get k (_jsonld e0)).
Proof.
  intros Hok E H0.
  pose proof (delete_entities_only_has_part is_url (heap w) (root_dataset (crate w))
                entities w w' o Hok eq_refl
                (agrees_start _ w (only_has_part_refl _)) E) as Hag.
  destruct (Hag l e0 H0) as (e & He & Hobj & H1 & H2). eauto.
Qed.

Lemma small_world_ok : heap_ok small_world.
Proof.
  intros l e. unfold small_world, small_heap. cbn [heap].
  rewrite !lookup_insert, lookup_empty.
  repeat case_decide; intros [= <-]; reflexivity.
Qed.

Lemma delete_touches_only_has_part_witness :
  exists e,
    heap (snd (delete_entities has_scheme [ById "a.txt"] small_world)) !! 1%positive
      = Some e /\
    same_object small_root e /\
    (root_dataset (crate small_world) <> Some 1%positive ->
     _jsonld e = _jsonld small_root) /\
    (forall k, k <> "hasPart" ->
               Dict.get k (_jsonld e) = Dict.get k (_jsonld small_root)).
Proof.
  exact (delete_touches_only_has_part has_scheme [ById "a.txt"] small_world
           (snd (delete_entities has_scheme [ById "a.txt"] small_world))
           (fst (delete_entities has_scheme [ById "a.txt"] small_world))
           1%positive small_root small_world_ok
           (surjective_pairing _) eq_refl).
Defined.





(** ** Construction *)

Lemma val_normal (h : gmap loc Entity) (v : json) :
  (if isinstance_list (One (Val v))
   then JList (map (ref_of h) (as_values (One (Val v))))
   else first_or_none (map (ref_of h) (as_values (One (Val v))))) = v.
Proof.
  destruct v; try reflexivity. cbn [isinstance_list as_values].
  f_equal. rewrite map_map. cbn [ref_of]. apply map_id.
Qed.

Lemma val_live (h : gmap loc Entity) (v : json) :
  Forall (live h) (as_values (One (Val v))).
Proof.
  destruct v; cbn [as_values]; try (constructor; [exact I | constructor]).
  apply Forall_forall. intros x Hx. apply list_elem_of_In, in_map_iff in Hx.
  destruct Hx as (y & <- & _). exact I.
Qed.

Lemma init_property_ok (w : world) (self : loc) (e : Entity) (name : string) (v : json) :
  heap w !! self = Some e ->
  valid_property (name, v) = true ->
  (if PyStr.startswith "@" name
   then let* e := get_entity self in put_jsonld self (Dict.set name v (_jsonld e))
   else setitem self name (One (Val v))) w =
  (Ok tt, mkWorld (<[self := with_jsonld e (Dict.set name v (_jsonld e))]> (heap w))
            (crate w)).
Proof.
  intros He Hv. unfold valid_property in Hv. cbn [fst snd] in Hv.
  destruct (PyStr.startswith "@" name) eqn:Hn.
  - unfold bind, get_entity. rewrite He. unfold put_jsonld.
    fold (upd (heap w) self (Dict.set name v (_jsonld e))).
    now rewrite (upd_insert _ _ _ _ He).
  - cbn [orb] in Hv. apply negb_true_iff in Hv.
    rewrite (setitem_ok w self e name _ Hn Hv He (val_live _ _)).
    now rewrite val_normal.
Qed.

Lemma init_properties_ok (self : loc) (properties : pydict) (w : world) (e : Entity) :
  heap w !! self = Some e ->
  forallb valid_property properties = true ->
  init_properties self properties w =
  (Ok tt, mkWorld (<[self := with_jsonld e (store_all properties (_jsonld e))]> (heap w))
            (crate w)).
Proof.
  revert w e. induction properties as [|[name v] r IH]; intros w e He Hv.
  - cbn [init_properties store_all fold_left]. unfold ret. f_equal.
    destruct w as [h c]. cbn [heap crate] in *. f_equal.
    symmetry. apply insert_id. rewrite He. now destruct e.
  - cbn [forallb] in Hv. apply andb_true_iff in Hv as [Hv1 Hv2].
    cbn [init_properties]. rewrite (bind_ok _ _ _ _ _ (init_property_ok w self e name v He Hv1)).
    rewrite (IH _ (with_jsonld e (Dict.set name v (_jsonld e))));
      [|cbn [heap]; apply lookup_insert_eq|exact Hv2].
    cbn [heap crate with_jsonld _jsonld ent_class ent_id ent_source fetch_remote
         validate_url store_all fold_left fst snd].
    now rewrite insert_insert_eq.
Qed.

Lemma init_properties_app (self : loc) (ps qs : pydict) (w : world) :
  init_properties self (ps ++ qs)%list w =
  bind (init_properties self ps) (fun _ => init_properties self qs) w.
Proof.
  revert w. induction ps as [|[name v] r IH]; intros w; [reflexivity|].
  cbn [app init_properties]. rewrite run_assoc. unfold bind at 1 3.
  destruct ((if PyStr.startswith "@" name
             then let* e := get_entity self in
                  put_jsonld self (Dict.set name v (_jsonld e))
             else setitem self name (One (Val v))) w) as [[[]|x] w1]; [apply IH|reflexivity].
Qed.

(** X8. Constructing an entity stores the properties it is given on top of
    the skeleton of its class, one assignment per property in their order
    (so a given "@id" or "@type" replaces the skeleton's), as long as every
    value under a non-reserved key holds no mapping without "@id"; the
    values are stored as given.  The entity is a new object with the
    formatted identifier (or "#" and a new UUID when the identifier is
    missing or empty) as its id; the crate is not touched, so the
    entity is not registered by its construction.  The first property that
    holds a mapping without "@id" under a non-reserved key makes the
    constructor raise ValueError. *)
Theorem new_entity_stores_properties (iso_now : string)
    (default_type : EntityClass -> json) (k : EntityClass)
    (identifier : option string) (fresh_uuid : string)
    (src : option string) (fetch validate : bool) (w : world)
    (properties : pydict) :
  forallb valid_property properties = true ->
  let id_ := init_id k identifier fresh_uuid in
  let self := fresh (dom (heap w)) in
  heap w !! self = None /\
  new_entity iso_now default_type k identifier fresh_uuid properties src fetch validate w
  = (Ok self,
     mkWorld
       (<[self := mkEntity k id_ (store_all properties (_empty iso_now default_type k id_))
                    src fetch validate]> (heap w))
       (crate w)) /\
  forall (name : string) (v : json) (rest : pydict),
    valid_property (name, v) = false ->
    new_entity iso_now default_type k identifier fresh_uuid
      (properties ++ (name, v) :: rest)%list src fetch validate w
    = (Raise ValueError,
       mkWorld
         (<[self := mkEntity k id_ (store_all properties (_empty iso_now default_type k id_))
                      src fetch validate]> (heap w))
         (crate w)).
Proof.
  intros Hv id_ self.
  assert (Hfresh : heap w !! self = None) by apply not_elem_of_dom, is_fresh.
  split; [exact Hfresh|].
  set (e := mkEntity k id_ (_empty iso_now default_type k id_) src fetch validate).
  set (w1 := mkWorld (<[self := e]> (heap w)) (crate w)).
  assert (He : heap w1 !! self = Some e) by apply lookup_insert_eq.
  pose proof (init_properties_ok self properties w1 e He Hv) as Hinit.
  cbn [heap crate w1] in Hinit. rewrite insert_insert_eq in Hinit.
  assert (Hrun : forall ps : pydict,
            new_entity iso_now default_type k identifier fresh_uuid ps src fetch validate w
            = bind (init_properties self ps) (fun _ => ret self) w1) by reflexivity.
  split.
  - rewrite Hrun. now rewrite (bind_ok _ _ _ _ _ Hinit).
  - intros name v rest Hbad. rewrite Hrun. apply bind_raise.
    rewrite init_properties_app. rewrite (bind_ok _ _ _ _ _ Hinit).
    cbn [init_properties]. apply bind_raise.
    unfold valid_property in Hbad. cbn [fst snd] in Hbad.
    apply orb_false_iff in Hbad as [Hn Hl]. apply negb_false_iff in Hl.
    rewrite Hn. unfold setitem. now rewrite Hn, Hl.
Qed.

Lemma new_entity_stores_properties_witness :
  heap small_world !! fresh (dom (heap small_world)) = None /\
  new_entity "now" (fun _ => JStr "Thing") Dataset (Some "data//") ""
    [("@type", JStr "Collection"); ("name", JStr "d")] None false false small_world
  = (Ok (fresh (dom (heap small_world))),
     mkWorld
       (<[fresh (dom (heap small_world)) :=
            mkEntity Dataset "data/"
              [("@id", JStr "data/"); ("@type", JStr "Collection"); ("name", JStr "d")]
              None false false]> (heap small_world))
       (crate small_world)).
Proof.
  pose proof (new_entity_stores_properties "now" (fun _ => JStr "Thing") Dataset
                (Some "data//") "" None false false small_world
                [("@type", JStr "Collection"); ("name", JStr "d")] eq_refl) as H.
  cbv zeta in H. destruct H as (H1 & H2 & _). split; [exact H1 | exact H2].
Defined.

Lemma rstrip_trailing (c : ascii) (s : string) :
  PyStr.rstrip c (s ++ String c EmptyString) = PyStr.rstrip c s.
Proof.
  induction s as [|a s IH].
  - change (PyStr.rstrip c (String c EmptyString) = EmptyString).
    cbn [PyStr.rstrip]. now rewrite Ascii.eqb_refl.
  - change (String a s ++ String c EmptyString)
      with (String a (s ++ String c EmptyString)).
    cbn [PyStr.rstrip]. now rewrite IH.
Qed.




(** ** Registration *)




(** X11. delete unregisters: when a call of delete on one argument that
    names a non-empty entity returns, the entity map is the old one without
    the entity's canonical id, so dereferencing its id then finds nothing;
    when the call raises, the crate's attributes and entity map are what
    they were. *)
Theorem delete_then_dereference (is_url : string -> bool) (w w' : world)
    (a : entity_arg) (l : loc) (e : Entity) (o : outcome unit) :
  heap_ok w ->
  names is_url w a l ->
  heap w !! l = Some e ->
  _jsonld e <> [] ->
  delete_entities is_url [a] w = (o, w') ->
  match o with
  | Ok _ =>
      entity_map (crate w')
      = delete (canonical_id is_url (crate w) e) (entity_map (crate w)) /\
      dereference is_url (crate w') (ent_id e) = None
  | Raise _ => crate w' = crate w
  end.
Proof.
  intros Hok Hn He Hne. cbn [delete_entities]. unfold delete1.
  rewrite run_assoc. unfold bind at 1, get_crate.
  replace (match a with ByObj l0 => Some l0 | ById s => dereference is_url (crate w) s end)
    with (Some l) by (destruct Hn as [->|(s & -> & Hs)]; [reflexivity | now rewrite Hs]).
  rewrite run_assoc. unfold bind at 1, get_entity. rewrite He.
  destruct (_jsonld e) as [|p d] eqn:Ed; [contradiction|]. cbn [length Nat.eqb].
  rewrite run_assoc. unfold bind at 1.
  destruct (root_dataset (crate w)) as [r|]; cbn [attr ret raise];
    [|now intros [= <- <-]].
  destruct (bool_decide (l = r)); [now intros [= <- <-]|].
  rewrite run_assoc. unfold bind at 1.
  destruct (metadata (crate w)) as [m|]; cbn [attr ret raise];
    [|now intros [= <- <-]].
  destruct (bool_decide (l = m)); [now intros [= <- <-]|].
  rewrite !run_assoc. unfold bind at 1.
  assert (Hfin : forall w1 : world,
    uuid (crate w1) = uuid (crate w) -> entity_map (crate w1) = entity_map (crate w) ->
    (let* c := get_crate in
     let* _ := put_crate (mkCrate (uuid c) (delete (canonical_id is_url c e)
                                              (entity_map c))
                            (root_dataset c) (metadata c) (preview c) (source c)) in
     ret tt) w1 = (o, w') ->
    match o with
    | Ok _ =>
        entity_map (crate w')
        = delete (canonical_id is_url (crate w) e) (entity_map (crate w)) /\
        dereference is_url (crate w') (ent_id e) = None
    | Raise _ => crate w' = crate w
    end).
  { intros w1 Hu Hm. unfold bind, get_crate, put_crate, ret. intros [= <- <-].
    cbn [crate entity_map].
    unfold dereference, canonical_id, resolve_id, arcp_base_uri. cbn [entity_map uuid].
    rewrite Hm, Hu. split; [reflexivity | apply lookup_delete_eq]. }
  destruct (bool_decide (preview (crate w) = Some l)).
  - cbn [put_crate]. apply Hfin; reflexivity.
  - assert (Hbranch : framed (if has_write (ent_class e)
                              then remove_part is_url (crate w) r e else ret tt)).
    { destruct (has_write (ent_class e)); auto using framed_remove_part, framed_ret. }
    destruct ((if has_write (ent_class e)
               then remove_part is_url (crate w) r e else ret tt) w)
      as [[[]|x] w1] eqn:E1; destruct (Hbranch _ _ _ Hok E1) as (Hc & _).
    + apply Hfin; now rewrite Hc.
    + now intros [= <- <-].
Qed.

Lemma delete_then_dereference_witness :
  match fst (delete_entities has_scheme [ById "a.txt"] small_world) with
  | Ok _ =>
      entity_map (crate (snd (delete_entities has_scheme [ById "a.txt"] small_world)))
      = delete (canonical_id has_scheme (crate small_world) small_file)
          (entity_map (crate small_world)) /\
      dereference has_scheme
        (crate (snd (delete_entities has_scheme [ById "a.txt"] small_world)))
        (ent_id small_file) = None
  | Raise _ =>
      crate (snd (delete_entities has_scheme [ById "a.txt"] small_world))
      = crate small_world
  end.
Proof.
  refine (delete_then_dereference has_scheme small_world _ (ById "a.txt") 3%positive
            small_file _ small_world_ok _ eq_refl _ (surjective_pairing _)).
  - right. exists "a.txt". split; reflexivity.
  - discriminate.
Defined.

(** ** What delete makes of the root dataset's hasPart *)

Lemma dict_remove_set_same (k : string) (v : json) (d : pydict) :
  Dict.remove k (Dict.set k v d) = Dict.remove k d.
Proof.
  induction d as [|[k0 v0] d IH]; cbn [Dict.set Dict.remove].
  - now rewrite String.eqb_refl.
  - destruct (String.eqb k k0) eqn:E; cbn [Dict.remove].
    + now rewrite String.eqb_refl.
    + now rewrite E, IH.
Qed.

Lemma run_lift {A B} (a : A) (f : A -> M B) (w : world) :
  bind (lift (Ok a)) f w = f a w.
Proof. reflexivity. Qed.

Lemma filterM_differs (h : gmap loc Entity) (c : ROCrate) (e : Entity)
    (items : list pyitem) :
  Forall (live h) items ->
  filterM (differs e) items (mkWorld h c)
  = (Ok (List.filter (other_than h e) items), mkWorld h c).
Proof.
  induction 1 as [|x r Hx _ IH]; [reflexivity|].
  cbn [filterM List.filter]. unfold bind at 1.
  assert (E : differs e x (mkWorld h c) = (Ok (other_than h e x), mkWorld h c)).
  { destruct x as [l|v]; cbn [differs other_than live] in *; [|reflexivity].
    destruct Hx as [e' He']. unfold bind, get_entity. cbn [heap]. now rewrite He'. }
  rewrite E. unfold bind at 1. rewrite IH. reflexivity.
Qed.

Lemma deref_items_live (is_url : string -> bool) (w : world) (entries : list json) :
  registered_live w ->
  Forall (live (heap w)) (map (deref_item is_url (crate w)) entries).
Proof.
  intros Hreg. apply Forall_forall. intros x Hx.
  apply list_elem_of_In, in_map_iff in Hx. destruct Hx as (entry & <- & _).
  destruct entry as [| | | | |[i|] d]; cbn [deref_item live]; try exact I.
  destruct (dereference is_url (crate w) i) as [l|] eqn:E; cbn [live]; [|exact I].
  exact (Hreg _ _ E).
Qed.

Lemma kept_parts (is_url : string -> bool) (w : world) (e : Entity)
    (entries : list json) :
  existsb no_id entries = false ->
  let kept := List.filter (other_than (heap w) e)
                (map (deref_item is_url (crate w)) entries) in
  map (ref_of (heap w)) kept = omap (rewritten_part is_url w e) entries /\
  existsb lacks_id kept = false /\
  existsb no_id (map (ref_of (heap w)) kept) = false.
Proof.
  induction entries as [|entry r IH]; [now intros _|].
  cbn [existsb]. intros H. apply orb_false_elim in H as [H1 H2].
  destruct (IH H2) as (IH1 & IH2 & IH3). cbv zeta in *. rewrite IH1 in IH3.
  cbn [map List.filter omap list_omap]. unfold rewritten_part at 1.
  destruct (deref_item is_url (crate w) entry) as [l|v] eqn:Ed; cbn [other_than].
  - destruct (heap w !! l) as [e'|] eqn:El; [|auto].
    destruct (entity_eq e' e); cbn [negb]; [auto|].
    cbn [map ref_of existsb lacks_id]. rewrite El, IH1.
    split; [reflexivity|]. split; [exact IH2 | exact IH3].
  - cbn [map ref_of existsb]. rewrite IH1, IH2, IH3, !orb_false_r.
    split; [reflexivity|].
    destruct entry as [| | | | |[i|] d]; cbn [deref_item no_id] in *;
      try discriminate;
      try (injection Ed as <-; split; reflexivity).
    destruct (dereference is_url (crate w) i); [discriminate|].
    injection Ed as <-. split; reflexivity.
Qed.

Lemma remove_part_run (is_url : string -> bool) (h : gmap loc Entity) (c : ROCrate)
    (r : loc) (e root : Entity) (entries : list json) :
  h !! r = Some root ->
  listed_parts (_jsonld root) = Some entries ->
  existsb no_id entries = false ->
  registered_live (mkWorld h c) ->
  remove_part is_url c r e (mkWorld h c) =
  (Ok tt,
   mkWorld
     (<[r := with_jsonld root
               (match omap (rewritten_part is_url (mkWorld h c) e) entries with
                | [] => Dict.remove "hasPart" (_jsonld root)
                | ps => Dict.set "hasPart" (JList ps) (_jsonld root)
                end)]> h)
     c).
Proof.
  intros Hroot Hparts Hids Hreg.
  destruct (kept_parts is_url (mkWorld h c) e entries Hids) as (Hk1 & Hk2 & Hk3).
  cbv zeta in Hk1, Hk2, Hk3. cbn [heap crate] in Hk1, Hk2, Hk3.
  pose proof (deref_items_live is_url (mkWorld h c) entries Hreg) as Hlive.
  cbn [heap crate] in Hlive.
  set (kept := List.filter (other_than h e) (map (deref_item is_url c) entries)) in *.
  assert (Hlk : Forall (live h) kept).
  { apply Forall_forall. intros x Hx. apply list_elem_of_In, filter_In in Hx.
    destruct Hx as [Hx _]. rewrite Forall_forall in Hlive. apply Hlive.
    now apply list_elem_of_In. }
  assert (Hread : entity_get is_url c root "hasPart" (Many [])
                  = Ok (Many (map (deref_item is_url c) entries))).
  { unfold entity_get, getitem. unfold listed_parts in Hparts.
    destruct (Dict.get "hasPart" (_jsonld root)) as [[| | | |vs|]|];
      try discriminate; injection Hparts as <-; [|reflexivity].
    change (PyStr.startswith "@" "hasPart") with false. cbv iota.
    now rewrite (deref_values_map _ _ _ Hids). }
  unfold remove_part. rewrite (run_get _ _ _ _ _ Hroot), Hread, run_lift.
  cbn [py_iter]. rewrite run_ret.
  rewrite (bind_ok _ _ _ _ _ (filterM_differs h c e _ Hlive)). fold kept.
  rewrite (bind_ok _ _ _ _ _
             (setitem_ok (mkWorld h c) r root "hasPart" (Many kept) eq_refl Hk2 Hroot Hlk)).
  cbn [heap crate isinstance_list as_values]. rewrite Hk1. rewrite Hk1 in Hk3.
  set (ps := omap (rewritten_part is_url (mkWorld h c) e) entries) in *.
  set (root1 := with_jsonld root (Dict.set "hasPart" (JList ps) (_jsonld root))).
  assert (H1 : <[r := root1]> h !! r = Some root1) by apply lookup_insert_eq.
  rewrite (run_get _ _ _ _ _ H1).
  assert (Hread1 : getitem is_url c root1 "hasPart"
                   = Ok (Many (map (deref_item is_url c) ps))).
  { unfold getitem. cbn [root1 _jsonld with_jsonld]. rewrite dict_get_set.
    change (PyStr.startswith "@" "hasPart") with false. cbv iota.
    now rewrite (deref_values_map _ _ _ Hk3). }
  rewrite Hread1, run_lift. cbn [truthy]. rewrite run_ret, length_map.
  destruct ps as [|p ps'] eqn:Eps; cbn [length Nat.eqb negb]; [|reflexivity].
  rewrite (run_get _ _ _ _ _ H1). cbn [root1 _jsonld with_jsonld].
  unfold Dict.mem. rewrite dict_get_set. unfold put_jsonld. cbn [heap crate].
  fold (upd (<[r := root1]> h) r
          (Dict.remove "hasPart" (Dict.set "hasPart" (JList []) (_jsonld root)))).
  rewrite (upd_insert _ _ _ _ H1), insert_insert_eq, dict_remove_set_same.
  reflexivity.
Qed.

(** X12. What delete does to the root dataset when it removes a data
    entity e (an entity with a write method that is neither the root
    dataset, the metadata entity nor the preview): every entry of the root
    dataset's hasPart is read through the crate and written back.  An entry
    that refers to an entity equal to e is dropped; an entry that refers to
    another registered entity becomes the bare reference to that entity's
    id; a reference to an id that is not registered becomes the id string
    itself; other entries stay.  When nothing is left the "hasPart" key
    is removed.  The entity's canonical id leaves the entity map, and
    nothing else changes. *)
Theorem delete_rewrites_has_part (is_url : string -> bool) (w : world)
    (a : entity_arg) (l r m : loc) (e root : Entity) (entries : list json) :
  root_dataset (crate w) = Some r ->
  metadata (crate w) = Some m ->
  names is_url w a l ->
  heap w !! l = Some e ->
  _jsonld e <> [] ->
  l <> r -> l <> m -> preview (crate w) <> Some l ->
  has_write (ent_class e) = true ->
  heap w !! r = Some root ->
  listed_parts (_jsonld root) = Some entries ->
  existsb no_id entries = false ->
  registered_live w ->
  delete_entities is_url [a] w =
  (Ok tt,
   mkWorld
     (<[r := with_jsonld root
               (match omap (rewritten_part is_url w e) entries with
                | [] => Dict.remove "hasPart" (_jsonld root)
                | ps => Dict.set "hasPart" (JList ps) (_jsonld root)
                end)]> (heap w))
     (mkCrate (uuid (crate w))
        (delete (canonical_id is_url (crate w) e) (entity_map (crate w)))
        (root_dataset (crate w)) (metadata (crate w)) (preview (crate w))
        (source (crate w)))).
Proof.
  intros Hr Hm Hn He Hne Hlr Hlm Hp Hw Hroot Hparts Hids Hreg.
  destruct w as [h c]. cbn [heap crate] in *.
  assert (Hlen : Nat.eqb (length (_jsonld e)) 0 = false)
    by (destruct (_jsonld e); [contradiction | reflexivity]).
  cbn [delete_entities]. unfold delete1.
  rewrite run_assoc. unfold bind at 1, get_crate. cbn [crate].
  replace (match a with ByObj l0 => Some l0 | ById s => dereference is_url c s end)
    with (Some l)
    by (destruct Hn as [->|(s & -> & Hs)];
        [reflexivity | cbn [crate] in Hs; now rewrite Hs]).
  rewrite run_assoc, (run_get _ _ _ _ _ He), Hlen, Hr, Hm. cbn [attr].
  rewrite run_assoc, run_ret, (bool_decide_eq_false_2 _ Hlr).
  rewrite run_assoc, run_ret, (bool_decide_eq_false_2 _ Hlm).
  rewrite (bool_decide_eq_false_2 _ Hp), Hw.
  rewrite !run_assoc.
  rewrite (bind_ok _ _ _ _ _
             (remove_part_run is_url h c r e root entries Hroot Hparts Hids Hreg)).
  unfold bind, get_crate, put_crate, ret. cbn [heap crate]. now rewrite Hr, Hm.
Qed.

Lemma listing_world_registered : registered_live listing_world.
Proof.
  intros s l. unfold listing_world, small_crate, small_heap. cbn [heap crate entity_map].
  rewrite !lookup_insert, lookup_empty.
  repeat case_decide; intros [= <-]; first [congruence | eexists; reflexivity].
Qed.

Lemma delete_rewrites_has_part_witness :
  delete_entities has_scheme [ById "a.txt"] listing_world =
  (Ok tt,
   mkWorld
     (<[1%positive :=
          with_jsonld listing_root
            [("@id", JStr "./"); ("@type", JStr "Dataset");
             ("hasPart", JList [JStr "gone.txt"; ref "b.txt"])]]>
        (heap listing_world))
     (mkCrate example_uuid
        (delete "arcp://uuid,123e4567-e89b-42d3-a456-426614174000/a.txt"
           (entity_map (crate listing_world)))
        (Some 1%positive) (Some 2%positive) None None)).
Proof.
  refine (delete_rewrites_has_part has_scheme listing_world (ById "a.txt")
            3%positive 1%positive 2%positive small_file listing_root _
            eq_refl eq_refl _ eq_refl _ _ _ _ eq_refl eq_refl eq_refl eq_refl
            listing_world_registered).
  - right. exists "a.txt". split; [reflexivity | vm_compute; reflexivity].
  - discriminate.
  - discriminate.
  - discriminate.
  - discriminate.
Defined.

(** ** update_jsonld *)






(** ** Choosing the class of a loaded entity *)

Lemma existsb_eqb_in (name : string) (types : list string) :
  existsb (String.eqb name) types = true <-> In name types.
Proof.
  rewrite existsb_exists. split.
  - intros (x & Hx & E). apply String.eqb_eq in E. now subst.
  - intros H. exists name. split; [exact H | apply String.eqb_refl].
Qed.

Lemma first_registered_same_names {C} (type_map : list (string * C))
    (types1 types2 : list string) :
  (forall s, In s types1 <-> In s types2) ->
  first_registered type_map types1 = first_registered type_map types2.
Proof.
  intros Hsame. induction type_map as [|[name c] r IH]; [reflexivity|].
  cbn [first_registered]. rewrite IH.
  assert (E : existsb (String.eqb name) types1 = existsb (String.eqb name) types2).
  { apply eq_true_iff_eq. rewrite !existsb_eqb_in. apply Hsame. }
  now rewrite E.
Qed.

Lemma first_registered_in {C} (type_map : list (string * C)) (types : list string)
    (c : C) :
  first_registered type_map types = Some c ->
  exists name, In (name, c) type_map /\ In name types.
Proof.
  induction type_map as [|[name c0] r IH]; cbn [first_registered]; [discriminate|].
  destruct (existsb (String.eqb name) types) eqn:E.
  - intros [= <-]. exists name. split; [now left | now apply existsb_eqb_in].
  - intros H. destruct (IH H) as (n & Hn & Ht). exists n. split; [now right | exact Ht].
Qed.

(** X14. The class that pick_type chooses depends on the set of type names
    an entity declares, not on how it lists them: two entities whose "@type"
    values give the same names once stripped of surrounding whitespace (in
    any order, with or without repetitions, a single name or a list) get the
    same class from the same table.  The class is the fallback or a class
    that the table registers under one of the declared names. *)
Theorem pick_type_by_declared_names {C} (entity1 entity2 : pydict)
    (type_map : list (string * C)) (fallback : C) (t1 t2 : json)
    (types1 types2 : list string) :
  Dict.get "@type" entity1 = Some t1 ->
  Dict.get "@type" entity2 = Some t2 ->
  declared_types t1 = Ok types1 ->
  declared_types t2 = Ok types2 ->
  (forall s, In s types1 <-> In s types2) ->
  pick_type entity1 type_map fallback = pick_type entity2 type_map fallback /\
  exists c,
    pick_type entity1 type_map fallback = Ok c /\
    (c = fallback \/ exists name, In (name, c) type_map /\ In name types1).
Proof.
  intros H1 H2 D1 D2 Hsame. unfold pick_type. rewrite H1, H2, D1, D2.
  rewrite (first_registered_same_names type_map _ _ Hsame). split; [reflexivity|].
  eexists. split; [reflexivity|].
  destruct (first_registered type_map types2) as [c|] eqn:E; [right | now left].
  rewrite <- (first_registered_same_names type_map _ _ Hsame) in E.
  now apply first_registered_in.
Qed.

Lemma pick_type_by_declared_names_witness :
  pick_type [("@type", JList [JStr "File"; JStr " Dataset "])]
    [("Dataset", Dataset); ("File", File)] DataEntity
  = pick_type [("@type", JList [JStr "Dataset"; JStr "File"; JStr "Dataset"])]
      [("Dataset", Dataset); ("File", File)] DataEntity /\
  exists c,
    pick_type [("@type", JList [JStr "File"; JStr " Dataset "])]
      [("Dataset", Dataset); ("File", File)] DataEntity = Ok c /\
    (c = DataEntity \/
     exists name, In (name, c) [("Dataset", Dataset); ("File", File)] /\
                  In name ["File"; "Dataset"]).
Proof.
  refine (pick_type_by_declared_names
            [("@type", JList [JStr "File"; JStr " Dataset "])]
            [("@type", JList [JStr "Dataset"; JStr "File"; JStr "Dataset"])]
            [("Dataset", Dataset); ("File", File)] DataEntity
            _ _ ["File"; "Dataset"] ["Dataset"; "File"; "Dataset"]
            eq_refl eq_refl eq_refl eq_refl _).
  intros s. cbn [In]. tauto.
Defined.

(** ** Loading the parts of a crate *)

Lemma pool_pop_sublist (id_ : string) (entities rest : pool) (entity : pydict) :
  pool_pop id_ entities = Some (entity, rest) ->
  sublist rest entities /\ length entities = S (length rest).
Proof.
  revert rest. induction entities as [|[k e0] r IH]; intros rest; cbn [pool_pop];
    [discriminate|].
  destruct (String.eqb id_ k).
  - intros [= _ <-]. split; [now apply sublist_cons | reflexivity].
  - destruct (pool_pop id_ r) as [[found r']|]; [|discriminate].
    intros [= <- <-]. destruct (IH _ eq_refl) as [Hs Hl].
    split; [now apply sublist_skip | cbn [length]; now rewrite Hl].
Qed.

Lemma sublist_keys_in {V} (a b : list (string * V)) (k : string) :
  sublist a b -> In k (map fst a) -> In k (map fst b).
Proof.
  induction 1 as [|x l1 l2 _ IH|x l1 l2 _ IH]; cbn [map In]; [auto| |auto].
  intros [H|H]; [now left | right; auto].
Qed.

Lemma sublist_keys_nodup {V} (a b : list (string * V)) :
  sublist a b -> NoDup (map fst b) -> NoDup (map fst a).
Proof.
  induction 1 as [|x l1 l2 Hs IH|x l1 l2 _ IH]; cbn [map]; [auto| |].
  - intros Hnd. inversion Hnd as [|? ? Hnotin Hnd']; subst. constructor; [|auto].
    intros Hin. apply Hnotin. apply list_elem_of_In.
    apply (sublist_keys_in _ _ _ Hs). now apply list_elem_of_In.
  - intros Hnd. inversion Hnd; subst. auto.
Qed.

Lemma pool_pop_none (id_ : string) (entities : pool) :
  pool_pop id_ entities = None -> ~ In id_ (map fst entities).
Proof.
  induction entities as [|[k e0] r IH]; cbn [pool_pop map fst In]; [tauto|].
  destruct (String.eqb id_ k) eqn:E; [discriminate|].
  destruct (pool_pop id_ r) as [[found r']|]; [discriminate|].
  intros _ [H|H]; [|now apply IH].
  subst k. now rewrite String.eqb_refl in E.
Qed.

Lemma pool_pop_gone (id_ : string) (entities rest : pool) (entity : pydict) :
  NoDup (map fst entities) ->
  pool_pop id_ entities = Some (entity, rest) -> ~ In id_ (map fst rest).
Proof.
  revert rest. induction entities as [|[k e0] r IH]; intros rest Hnd; cbn [pool_pop];
    [discriminate|].
  cbn [map fst] in Hnd. inversion Hnd as [|? ? Hnotin Hnd']; subst.
  destruct (String.eqb id_ k) eqn:E.
  - intros [= _ <-]. apply String.eqb_eq in E. subst k.
    intros Hin. apply Hnotin. now apply list_elem_of_In.
  - destruct (pool_pop id_ r) as [[found r']|] eqn:Ep; [|discriminate].
    intros [= <- <-]. cbn [map fst In]. intros [H|H].
    + subst k. now rewrite String.eqb_refl in E.
    + exact (IH _ Hnd' eq_refl H).
Qed.

Section LoaderFacts.

Variable is_url : string -> bool.
Variable construct : construction -> M loc.
Variable path_under : string -> string.
Variable data_type_map : list (string * EntityClass).

Lemma parts_loop_sublist (nested : list json -> pool -> M pool) :
  (forall parts entities w entities' w',
     nested parts entities w = (Ok entities', w') -> sublist entities' entities) ->
  forall parts entities w entities' w',
    parts_loop is_url construct path_under data_type_map nested parts entities w
    = (Ok entities', w') ->
    sublist entities' entities.
Proof.
  intros Hnested parts. induction parts as [|part rest IH]; intros entities w entities' w';
    cbn [parts_loop].
  - now intros [= <- _].
  - unfold bind at 1. unfold lift at 1.
    destruct (ref_id part) as [id_|x]; [|discriminate].
    destruct (pool_pop id_ entities) as [[entity popped]|] eqn:Epop; [|apply IH].
    destruct (pool_pop_sublist _ _ _ _ Epop) as [Hsub _].
    unfold bind at 1. unfold lift at 1.
    destruct (pop_id id_ entity) as [entity1|x]; [|discriminate].
    unfold bind at 1. unfold lift at 1.
    destruct (pick_type entity1 data_type_map DataEntity) as [cls|x]; [|discriminate].
    unfold bind at 1.
    destruct ((if bool_decide (cls = DataEntity)
               then construct (Plain DataEntity id_ entity1)
               else if is_url id_ then construct (Remote cls id_ entity1)
                    else construct (Local cls (path_under id_) id_ entity1)) w)
      as [[instance|x] w1]; [|discriminate].
    unfold bind at 1.
    destruct (add is_url [instance] w1) as [[[]|x] w2]; [|discriminate].
    unfold bind at 1.
    destruct (nested (as_list (get_or_empty "hasPart" entity1)) popped w2)
      as [[entities2|x] w3] eqn:En; [|discriminate].
    intros Hrest. apply IH in Hrest. apply Hnested in En.
    etransitivity; [exact Hrest|]. etransitivity; [exact En | exact Hsub].
Qed.

Lemma parts_loop_consumed (nested : list json -> pool -> M pool) :
  (forall parts entities w entities' w',
     nested parts entities w = (Ok entities', w') -> sublist entities' entities) ->
  forall parts entities w entities' w',
    NoDup (map fst entities) ->
    parts_loop is_url construct path_under data_type_map nested parts entities w
    = (Ok entities', w') ->
    forall part id_, In part parts -> ref_id part = Ok id_ ->
                     ~ In id_ (map fst entities').
Proof.
  intros Hnested parts. induction parts as [|part rest IH];
    intros entities w entities' w' Hnd; cbn [parts_loop]; [intros _ ? ? []|].
  unfold bind at 1. unfold lift at 1.
  destruct (ref_id part) as [id0|x] eqn:Eid; [|discriminate].
  destruct (pool_pop id0 entities) as [[entity popped]|] eqn:Epop.
  - destruct (pool_pop_sublist _ _ _ _ Epop) as [Hsub _].
    pose proof (pool_pop_gone _ _ _ _ Hnd Epop) as Hgone.
    unfold bind at 1. unfold lift at 1.
    destruct (pop_id id0 entity) as [entity1|x]; [|discriminate].
    unfold bind at 1. unfold lift at 1.
    destruct (pick_type entity1 data_type_map DataEntity) as [cls|x]; [|discriminate].
    unfold bind at 1.
    destruct ((if bool_decide (cls = DataEntity)
               then construct (Plain DataEntity id0 entity1)
               else if is_url id0 then construct (Remote cls id0 entity1)
                    else construct (Local cls (path_under id0) id0 entity1)) w)
      as [[instance|x] w1]; [|discriminate].
    unfold bind at 1.
    destruct (add is_url [instance] w1) as [[[]|x] w2]; [|discriminate].
    unfold bind at 1.
    destruct (nested (as_list (get_or_empty "hasPart" entity1)) popped w2)
      as [[entities2|x] w3] eqn:En; [|discriminate].
    apply Hnested in En. intros Hrest p i [<-|Hin] Hi.
    + rewrite Eid in Hi. injection Hi as <-. intros Hin. apply Hgone.
      apply (sublist_keys_in _ _ _ En).
      exact (sublist_keys_in _ _ _ (parts_loop_sublist nested Hnested _ _ _ _ _ Hrest) Hin).
    + refine (IH _ _ _ _ _ Hrest p i Hin Hi).
      apply (sublist_keys_nodup _ _ En). exact (sublist_keys_nodup _ _ Hsub Hnd).
  - intros Hrest p i [<-|Hin] Hi.
    + rewrite Eid in Hi. injection Hi as <-. intros Hin.
      apply (pool_pop_none _ _ Epop).
      exact (sublist_keys_in _ _ _ (parts_loop_sublist nested Hnested _ _ _ _ _ Hrest) Hin).
    + exact (IH _ _ _ _ Hnd Hrest p i Hin Hi).
Qed.

Lemma add_parts_sublist (limit : nat) (parts : list json) (entities entities' : pool)
    (w w' : world) :
  add_parts is_url construct path_under data_type_map limit parts entities w
  = (Ok entities', w') ->
  sublist entities' entities.
Proof.
  revert parts entities entities' w w'.
  induction limit as [|limit IH]; intros parts entities entities' w w'; cbn [add_parts];
    apply parts_loop_sublist.
  - discriminate.
  - intros ps es w0 es' w0'. apply IH.
Qed.



End LoaderFacts.

(** X15. Loading parts only takes entities out of the pending ones: when
    __add_parts returns, the entities still pending are pending entities of
    before, in their order (none is added, changed or moved), and no part
    that the given list names is among them.  Pending entities have distinct
    ids, as the keys of a mapping do. *)
Theorem add_parts_consumes_pending (is_url : string -> bool)
    (construct : construction -> M loc) (path_under : string -> string)
    (data_type_map : list (string * EntityClass)) (limit : nat)
    (parts : list json) (entities entities' : pool) (w w' : world) :
  NoDup (map fst entities) ->
  add_parts is_url construct path_under data_type_map limit parts entities w
  = (Ok entities', w') ->
  sublist entities' entities /\
  forall part id_, In part parts -> ref_id part = Ok id_ ->
                   ~ In id_ (map fst entities').
Proof.
  intros Hnd Hrun. split; [exact (add_parts_sublist _ _ _ _ _ _ _ _ _ _ Hrun)|].
  destruct limit as [|limit]; cbn [add_parts] in Hrun;
    refine (parts_loop_consumed _ _ _ _ _ _ _ _ _ _ _ Hnd Hrun).
  - discriminate.
  - intros ps es w0 es' w0'. apply add_parts_sublist.
Qed.

Lemma add_parts_consumes_pending_witness :
  sublist [] cyclic_pool /\
  forall part id_, In part [ref "x/"; ref "z.txt"] -> ref_id part = Ok id_ ->
                   ~ In id_ (map fst (@nil (string * pydict))).
Proof.
  refine (add_parts_consumes_pending has_scheme example_construct (fun s => s)
            [("Dataset", Dataset)] 2 [ref "x/"; ref "z.txt"] cyclic_pool []
            small_world
            (snd (add_parts has_scheme example_construct (fun s => s)
                    [("Dataset", Dataset)] 2 [ref "x/"; ref "z.txt"] cyclic_pool
                    small_world)) _ _).
  - apply (bool_decide_unpack _). vm_compute. exact I.
  - apply injective_projections; cbn [fst snd]; [vm_compute; reflexivity | reflexivity].
Defined.



(** ** A crate built from scratch *)

Lemma uuid_char_not_slash (a : ascii) :
  uuid_char a = true -> Ascii.eqb a "/" = false.
Proof.
  destruct a as [[] [] [] [] [] [] [] []]; vm_compute; congruence.
Qed.

Lemma rstrip_uuid_text (u : string) :
  is_uuid_text u = true -> PyStr.rstrip "/" u = u.
Proof.
  unfold is_uuid_text. induction u as [|a u IH]; [reflexivity|].
  cbn [PyStr.forallb]. intros H. apply andb_true_iff in H as [Ha Hu].
  cbn [PyStr.rstrip]. rewrite (IH Hu). destruct u; [|reflexivity].
  now rewrite (uuid_char_not_slash _ Ha).
Qed.

Lemma uuid_str_nonempty (n : N) : uuid_str n <> EmptyString.
Proof.
  unfold uuid_str. destruct (hex 8 (n / 16 ^ 24)); discriminate.
Qed.

Lemma resolve_id_root (is_url : string -> bool) (c : ROCrate) :
  is_url "./" = false ->
  resolve_id is_url c "./" = "arcp://uuid," ++ uuid_str (uuid c).
Proof.
  intros Hurl. unfold resolve_id, arcp_base_uri. rewrite Hurl.
  rewrite (urljoin_arcp_relative _ "./" (uuid_str_text _) eq_refl eq_refl
             (fun d => eq_refl)).
  cbv zeta.
  change (PyStr.join "/"
            (if String.eqb (List.last (UrlParse.filter_middle
                                         (["" ; ""] ++ PyStr.split "/" "./")) "") "."
                || String.eqb (List.last (UrlParse.filter_middle
                                            (["" ; ""] ++ PyStr.split "/" "./")) "") ".."
             then (UrlParse.resolve_segments
                     (UrlParse.filter_middle (["" ; ""] ++ PyStr.split "/" "./")) []
                   ++ [EmptyString])%list
             else UrlParse.resolve_segments
                    (UrlParse.filter_middle (["" ; ""] ++ PyStr.split "/" "./")) []))
    with "/".
  cbv iota beta.
  change (if PyStr.nonempty "/" then if PyStr.startswith "/" "/" then "/" else "/" ++ "/"
          else "/") with "/".
  change ("arcp://uuid," ++ uuid_str (uuid c) ++ "/")
    with ("arcp://uuid," ++ (uuid_str (uuid c) ++ "/")).
  rewrite rstrip_app; rewrite rstrip_trailing, (rstrip_uuid_text _ (uuid_str_text _));
    [reflexivity | apply uuid_str_nonempty].
Qed.

Lemma append_same (s t : string) : s = s ++ t -> t = EmptyString.
Proof.
  induction s as [|a s IH]; [intros H; symmetry; exact H|].
  change (String a s ++ t) with (String a (s ++ t)). intros [= H]. auto.
Qed.

Lemma init_state_map (is_url : string -> bool) (iso_now : string)
    (default_type : EntityClass -> json) (u : N) :
  ROCrate_init is_url iso_now default_type (empty_world u) =
  (Ok tt,
   mkWorld
     (<[2%positive := mkEntity Metadata "ro-crate-metadata.json"
                        [("@id", JStr "ro-crate-metadata.json");
                         ("@type", default_type Metadata)] None false false]>
        (<[1%positive := mkEntity RootDataset "./"
                           [("@id", JStr "./"); ("@type", JStr "Dataset");
                            ("datePublished", JStr iso_now)] None false false]> ∅))
     (mkCrate u
        (<[resolve_id is_url (mkCrate u ∅ None None None None) "ro-crate-metadata.json"
             := 2%positive]>
           (<[resolve_id is_url (mkCrate u ∅ None None None None) "./" := 1%positive]> ∅))
        (Some 1%positive) (Some 2%positive) None None)).
Proof. reflexivity. Qed.

(** X17. A crate built from scratch holds exactly two entities, whatever
    UUID it draws: the root dataset, registered under "./", and the metadata
    entity, registered under "ro-crate-metadata.json".  They are different
    objects under different keys, the root dataset lists no parts yet, and
    there is no preview. *)
Theorem fresh_crate_entities (is_url : string -> bool) (iso_now : string)
    (default_type : EntityClass -> json) (u : N) :
  is_url "./" = false ->
  is_url "ro-crate-metadata.json" = false ->
  exists w root meta,
    ROCrate_init is_url iso_now default_type (empty_world u) = (Ok tt, w) /\
    root_dataset (crate w) = Some root /\
    metadata (crate w) = Some meta /\
    preview (crate w) = None /\
    root <> meta /\
    dereference is_url (crate w) "./" = Some root /\
    dereference is_url (crate w) "ro-crate-metadata.json" = Some meta /\
    size (entity_map (crate w)) = 2 /\
    has_part_of w root = None.
Proof.
  intros H1 H2.
  set (c0 := mkCrate u ∅ None None None None).
  pose proof (resolve_id_root is_url c0 H1) as K1.
  pose proof (resolve_id_relative is_url c0 "ro-crate-metadata.json"
                "ro-crate-metadata.json" H2 eq_refl eq_refl (fun d => eq_refl) eq_refl
                ltac:(discriminate)) as K2.
  change (PyStr.rstrip "/" "ro-crate-metadata.json") with "ro-crate-metadata.json" in K2.
  cbn [uuid c0] in K1, K2.
  assert (Hne : resolve_id is_url c0 "ro-crate-metadata.json"
                <> resolve_id is_url c0 "./").
  { rewrite K1, K2. intros E. symmetry in E.
    change ("arcp://uuid," ++ uuid_str u ++ "/" ++ "ro-crate-metadata.json")
      with ("arcp://uuid," ++ uuid_str u ++ "/ro-crate-metadata.json") in E.
    rewrite <- append_assoc in E. apply append_same in E. discriminate E. }
  assert (Hu : forall c i, uuid c = u -> resolve_id is_url c i = resolve_id is_url c0 i).
  { intros c i Hc. unfold resolve_id, arcp_base_uri. now rewrite Hc. }
  rewrite init_state_map. fold c0.
  eexists _, 1%positive, 2%positive. split; [reflexivity|].
  cbn [crate root_dataset metadata preview].
  split; [reflexivity|]. split; [reflexivity|]. split; [reflexivity|].
  split; [discriminate|].
  unfold dereference. cbn [entity_map]. rewrite !(Hu (mkCrate u _ _ _ _ _) _ eq_refl).
  split; [|split; [|split]].
  - rewrite lookup_insert_ne by exact Hne. apply lookup_insert_eq.
  - apply lookup_insert_eq.
  - rewrite map_size_insert_None.
    + rewrite map_size_insert_None; [reflexivity | apply lookup_empty].
    + rewrite lookup_insert_ne; [apply lookup_empty|]. intros E. now apply Hne.
  - unfold has_part_of. cbn [heap]. rewrite lookup_insert_ne by discriminate.
    rewrite lookup_insert_eq. reflexivity.
Qed.

Lemma fresh_crate_entities_witness :
  exists w root meta,
    ROCrate_init has_scheme "now" (fun _ => JStr "Thing") (empty_world example_uuid)
    = (Ok tt, w) /\
    root_dataset (crate w) = Some root /\
    metadata (crate w) = Some meta /\
    preview (crate w) = None /\
    root <> meta /\
    dereference has_scheme (crate w) "./" = Some root /\
    dereference has_scheme (crate w) "ro-crate-metadata.json" = Some meta /\
    size (entity_map (crate w)) = 2 /\
    has_part_of w root = None.
Proof.
  exact (fresh_crate_entities has_scheme "now" (fun _ => JStr "Thing") example_uuid
           eq_refl eq_refl).
Defined.

(** ** Streaming and writing a dataset *)


Lemma conforms_app (cur : option string) (a b : list file_op) :
  conforms cur (a ++ b) =
  match conforms cur a with
  | Some c => conforms c b
  | None => None
  end.
Proof.
  revert cur. induction a as [|o a IH]; intros cur; [reflexivity|].
  cbn [app conforms]. destruct o as [d|p|p ch|p]; [apply IH| | |].
  - destruct cur; [reflexivity | apply IH].
  - destruct cur as [q|]; [|reflexivity]. destruct (String.eqb p q); [apply IH | reflexivity].
  - destruct cur as [q|]; [|reflexivity]. destruct (String.eqb p q); [apply IH | reflexivity].
Qed.

Lemma chunks_written_app (a b : list file_op) :
  chunks_written (a ++ b) = (chunks_written a ++ chunks_written b)%list.
Proof. unfold chunks_written. apply omap_app. Qed.

Lemma write_chunks_conforms (path_under : string -> string -> string)
    (parent : string -> string) (base_path : string) (evs : list event)
    (cur : option string) :
  conforms cur (fst (write_chunks path_under parent base_path cur evs))
  = Some (snd (write_chunks path_under parent base_path cur evs)) /\
  chunks_written (fst (write_chunks path_under parent base_path cur evs))
  = chunks_yielded evs /\
  (is_Some cur \/ chunks_yielded evs <> [] ->
   is_Some (snd (write_chunks path_under parent base_path cur evs))).
Proof.
  revert cur. induction evs as [|[rel chunk|d] r IH]; intros cur; cbn [write_chunks].
  - cbn [fst snd conforms]. split; [reflexivity|]. split; [reflexivity|].
    intros [H|H]; [exact H | now destruct H].
  - cbv zeta. destruct (IH (Some (path_under base_path rel))) as (IH1 & IH2 & IH3).
    destruct (write_chunks path_under parent base_path
                (Some (path_under base_path rel)) r) as [ops last].
    cbn [fst snd] in *.
    assert (Hlast : is_Some last) by (apply IH3; left; now eexists).
    destruct cur as [p|]; [destruct (String.eqb (path_under base_path rel) p) eqn:E|].
    + apply String.eqb_eq in E. subst p. cbn [app conforms].
      rewrite String.eqb_refl. split; [exact IH1|]. split; [|auto].
      unfold chunks_written, chunks_yielded in *. cbn [omap list_omap].
      now rewrite IH2.
    + cbn [app conforms]. rewrite !String.eqb_refl. split; [exact IH1|]. split; [|auto].
      unfold chunks_written, chunks_yielded in *. cbn [omap list_omap].
      now rewrite IH2.
    + cbn [app conforms]. rewrite String.eqb_refl. split; [exact IH1|]. split; [|auto].
      unfold chunks_written, chunks_yielded in *. cbn [omap list_omap].
      now rewrite IH2.
  - apply IH.
Qed.

(** X19. Writing a remote dataset consumes the stream of the dataset and
    respects the protocol of files: a file is opened only when no other is
    open and after its directory has been asked for, every chunk goes to
    the file that is open, the chunks written are the chunks streamed in
    their order, and the run ends as the stream ends, with the same property
    store.  When the stream ends normally no file is left open; when it
    raises after a chunk has been written, the file being written is left
    open. *)
Theorem write_from_url_protocol (is_url : string -> bool) (iso_now : string)
    (urlopen : string -> option (list string))
    (path_join path_under : string -> string -> string) (parent : string -> string)
    (e : Entity) (src base_path : string) :
  let r := _write_from_url is_url iso_now urlopen path_join path_under parent
             e src base_path in
  let s := _stream_folder_from_url is_url iso_now urlopen path_join e src in
  conforms None (file_ops r) = Some (left_open r) /\
  chunks_written (file_ops r) = chunks_yielded (events s) /\
  finished r = stopped s /\
  jsonld_written r = jsonld_after s /\
  (finished r = Ok tt -> left_open r = None) /\
  (forall x, finished r = Raise x -> chunks_written (file_ops r) <> [] ->
             is_Some (left_open r)).
Proof.
  cbv zeta. unfold _write_from_url.
  destruct (fetch_remote e) eqn:Hf.
  - rewrite andb_false_r.
    replace (with_jsonld e (_jsonld e)) with e by now destruct e.
    set (s := _stream_folder_from_url is_url iso_now urlopen path_join e src).
    destruct (write_chunks_conforms path_under parent base_path (events s) None)
      as (H1 & H2 & H3).
    destruct (write_chunks path_under parent base_path None (events s)) as [ops last].
    cbn [fst snd] in *.
    destruct (stopped s) as [[]|x] eqn:Est; cbn [file_ops finished left_open jsonld_written].
    + split; [|split; [|split; [|split; [|split]]]]; try reflexivity; try discriminate.
      * rewrite conforms_app, H1. destruct last; cbn [conforms];
          [now rewrite String.eqb_refl | reflexivity].
      * rewrite chunks_written_app, H2. destruct last; apply app_nil_r.
    + split; [exact H1|]. split; [exact H2|]. split; [reflexivity|].
      split; [reflexivity|]. split; [discriminate|].
      intros _ _ Hw. apply H3. right. now rewrite <- H2.
  - rewrite andb_true_r. unfold _stream_folder_from_url. rewrite Hf. cbn [negb].
    destruct (validate_url e); [destruct (urlopen src)|];
      cbn [file_ops finished left_open jsonld_written events stopped jsonld_after];
      (split; [reflexivity|]); (split; [reflexivity|]); (split; [reflexivity|]);
      (split; [reflexivity|]); (split; [reflexivity|]); intros x _ H; now destruct H.
Qed.

Lemma write_from_url_protocol_witness :
  left_open (_write_from_url has_scheme "now" example_urlopen (fun d p => d ++ p)
               (fun d p => d ++ p) (fun p => p) example_remote_dataset
               "http://example.org/data/" "/out/") = None /\
  file_ops (_write_from_url has_scheme "now" example_urlopen (fun d p => d ++ p)
              (fun d p => d ++ p) (fun p => p) example_remote_dataset
              "http://example.org/data/" "/out/")
  = [MkdirParents "/out/data/a.txt"; OpenWb "/out/data/a.txt";
     WriteChunk "/out/data/a.txt" "aa"; WriteChunk "/out/data/a.txt" "a";
     CloseFile "/out/data/a.txt";
     MkdirParents "/out/data/b.txt"; OpenWb "/out/data/b.txt";
     WriteChunk "/out/data/b.txt" "b"; CloseFile "/out/data/b.txt"].
Proof.
  split; [|reflexivity].
  exact (proj1 (proj2 (proj2 (proj2 (proj2
           (write_from_url_protocol has_scheme "now" example_urlopen
              (fun d p => d ++ p) (fun d p => d ++ p) (fun p => p)
              example_remote_dataset "http://example.org/data/" "/out/"))))) eq_refl).
Defined.
